(** * Log-Based SOC Platform: the detection and response core

    A shallow embedding of the Python sources and the properties proved
    about it.  The development follows the sources module by module:

    - [PyStr]        Python's [str] as a sequence of code points, with
                     the string methods the sources call;
    - [SeverityMap]  config/severity_map.py;
    - [Settings]     the policy dictionaries of config/settings.py;
    - [Firewall]     response/firewall.py;
    - [Det]          the detection records passed between the engines;
    - [Responder]    response/responder.py;
    - [IOC]          intelligence/ioc_loader.py;
    - [Normalizer]   core/normalizer.py;
    - [Correlation]  core/correlation.py;
    - [PyRe]         Python's [re], for the constructs the rules use;
    - [Detector]     core/detector.py with core/rules.py;
    - [Alerting]     response/alerting.py;
    - [Parser]       core/parser.py;
    - [IOCStartup]   how intelligence/ioc_loader.py builds its engine;
    - [Stats]        analytics/stats.py;
    - [LogViewer]    the two workers of frontend/views/log_viewer_view.py.

    [ResponderTrace], [CorrelationSpec] and [NormalizerSpec] hold what
    the statements about those modules speak of.

    What lies outside the sources (the clock, the network, the file
    system, subprocesses, the regular-expression engine, the Unicode
    tables) enters as a type class or as an argument, and every statement
    holds for all its instances.  Definitions come first; the statements
    about them follow in the second half of the file. *)

From Stdlib Require Import ZArith NArith QArith Qcanon Ascii String List Bool Lia
  Sorted.
From stdpp Require Import base option list gmap strings sets.

(* ===================================================================== *)
(** * Python strings *)
(* ===================================================================== *)

Module PyStr.

(** A Python [str] is a finite sequence of Unicode code points; [len] is
    the number of code points and slicing counts code points. *)
Abbreviation char := N (only parsing).
Abbreviation str := (list N) (only parsing).

(** A string literal of the sources (all of them are ASCII). *)
Definition lit (s : string) : str :=
  map N_of_ascii (list_ascii_of_string s).
Arguments lit s%_string.

(** [s.startswith(p)] *)
Fixpoint startswith (s p : str) {struct p} : bool :=
  match p, s with
  | [], _ => true
  | _ :: _, [] => false
  | c :: p', d :: s' => (c =? d)%N && startswith s' p'
  end.

(** [s.startswith((p1, ..., pn))]: some prefix of the tuple fits. *)
Definition startswith_any (s : str) (ps : list str) : bool :=
  existsb (startswith s) ps.

(** [sub in s]: [sub] occurs in [s] as a contiguous block. *)
Fixpoint contains (sub s : str) : bool :=
  startswith s sub ||
  match s with
  | [] => false
  | _ :: s' => contains sub s'
  end.

(** [c in s] for a single character. *)
Definition has_char (c : char) (s : str) : bool :=
  existsb (N.eqb c) s.

(** [a == b] *)
Definition eqb (a b : str) : bool := bool_decide (a = b).

(** [a < b]: code point by code point, a proper prefix first. *)
Fixpoint ltb (a b : str) : bool :=
  match a, b with
  | _, [] => false
  | [], _ :: _ => true
  | c :: a', d :: b' => (c <? d)%N || ((c =? d)%N && ltb a' b')
  end.

(** [ch.isspace()] : the 29 code points Python counts as white space. *)
Definition isspace (c : char) : bool :=
  ((9 <=? c) && (c <=? 13) || (28 <=? c) && (c <=? 32)
   || (c =? 133) || (c =? 160) || (c =? 5760)
   || (8192 <=? c) && (c <=? 8202)
   || (c =? 8232) || (c =? 8233) || (c =? 8239) || (c =? 8287)
   || (c =? 12288))%N.

Fixpoint lstrip (s : str) : str :=
  match s with
  | c :: s' => if isspace c then lstrip s' else s
  | [] => []
  end.

(** [s.strip()] *)
Definition strip (s : str) : str :=
  rev (lstrip (rev (lstrip s))).

(** Truth value of a string: [bool(s)], as in [if not s] and [a or b]. *)
Definition truthy (s : str) : bool :=
  match s with [] => false | _ => true end.

(** [a or b] on strings. *)
Definition or_else (a b : str) : str := if truthy a then a else b.

(** The truth value of a list: it is not empty. *)
Definition nonempty {A} (l : list A) : bool :=
  match l with [] => false | _ => true end.

(** The line boundaries of [str.splitlines]. *)
Definition is_linebreak (c : char) : bool :=
  ((10 <=? c) && (c <=? 13) || (28 <=? c) && (c <=? 30)
   || (c =? 133) || (c =? 8232) || (c =? 8233))%N.

(** [s.splitlines()], with [cur] the current line in reverse; "\r\n" is
    one boundary, and a last line is kept only when it is not empty. *)
Fixpoint splitlines_from (cur : str) (s : str) : list str :=
  match s with
  | [] => match cur with [] => [] | _ => [rev cur] end
  | c :: s' =>
      if (c =? 13)%N then
        match s' with
        | d :: s'' =>
            if (d =? 10)%N then rev cur :: splitlines_from [] s''
            else rev cur :: splitlines_from [] s'
        | [] => [rev cur]
        end
      else if is_linebreak c then rev cur :: splitlines_from [] s'
      else splitlines_from (c :: cur) s'
  end.

Definition splitlines (s : str) : list str := splitlines_from [] s.

End PyStr.
Import PyStr.

(** A call that may raise: it returns a value or raises an exception. *)
Inductive outcome (A : Type) :=
| Returned (a : A)
| Raised.
Arguments Returned {A} a.
Arguments Raised {A}.

(* ===================================================================== *)
(** * config/severity_map.py *)
(* ===================================================================== *)

Module SeverityMap.

Definition SEVERITY_LEVELS : list str :=
    [lit "Critical"; lit "High"; lit "Medium"; lit "Low"].

Definition THREAT_SEVERITY_ITEMS : list (str * str) :=
    [ (lit "SQL Injection", lit "Critical");
    (lit "SQLi - Tautology / OR 1=1", lit "Critical");
    (lit "Command Injection / Shell", lit "Critical");
    (lit "Sensitive File Access", lit "Critical");
    (lit "SSRF / Internal Resource Access", lit "Critical");
    (lit "Serialized Object Detected (Java)", lit "Critical");
    (lit "Serialized Object Detected (Python)", lit "Critical");
    (lit "Serialized Object Detected (.NET)", lit "Critical");
    (lit "Malicious Package Download", lit "Critical");
    (lit "CI/CD Script Execution", lit "Critical");
    (lit "Unexpected Build Dependency Fetch", lit "Critical");
    (lit "XSS", lit "High");
    (lit "XSS - Advanced Payloads", lit "High");
    (lit "Credential Stuffing Probe", lit "High");
    (lit "Unauthorized Admin Access", lit "High");
    (lit "Plaintext Credential Exposure", lit "High");
    (lit "IDOR / Object Access Violation", lit "Medium");
    (lit "Brute Force Attempt", lit "Medium");
    (lit "Sensitive Data Over HTTP", lit "Medium");
    (lit "Debug / Error Exposure", lit "Medium");
    (lit "API Rate Abuse / Resource Exhaustion", lit "Medium");
    (lit "Unhandled Exception Exposure", lit "Medium");
    (lit "Directory Traversal", lit "Medium");
    (lit "Failed Login", lit "Low");
    (lit "Weak Crypto Indicator", lit "Low");
    (lit "Excessive Data Exposure", lit "Low");
    (lit "Repeated Error Without Alerting", lit "Low");
    (lit "Discovery / Recon Probes", lit "Low") ].

(** The dict literal; its keys are pairwise distinct, so the order of
    the items does not matter. *)
Definition THREAT_SEVERITY_MAP : gmap (list N) (list N) :=
  list_to_map THREAT_SEVERITY_ITEMS.

(** [THREAT_SEVERITY_MAP.get(threat_name.strip(), "Low")] *)
Definition get_severity (threat_name : str) : str :=
  default (lit "Low") (THREAT_SEVERITY_MAP !! strip threat_name).

End SeverityMap.

(* ===================================================================== *)
(** * config/settings.py: the policy dictionaries *)
(* ===================================================================== *)

Module Settings.

(** [AUTO_BLOCK]: the two keys the code reads.  The code always reads them
    with [.get(key, default)], so each key may be missing ([None]). *)
Record AutoBlock := {
  ENABLED : option bool;
  REQUIRE_IOC : option bool
}.

(** [FEATURES]: the two keys the response engine reads. *)
Record Features := {
  EMAIL_ALERTS : option bool;
  EMAIL_ALL_DETECTIONS : option bool
}.

(** The values shipped in config/settings.py. *)
Definition AUTO_BLOCK : AutoBlock :=
  {| ENABLED := Some false; REQUIRE_IOC := Some true |}.

Definition FEATURES : Features :=
  {| EMAIL_ALERTS := Some true; EMAIL_ALL_DETECTIONS := Some false |}.

End Settings.
Import Settings.

(* ===================================================================== *)
(** * response/firewall.py *)
(* ===================================================================== *)

Module Firewall.

(** One value of the audit ledger.  [blocked_at] is the reading of
    [datetime.utcnow()] (microseconds) whose ISO rendering the file
    stores. *)
Record BlockRecord := {
  blocked_at : Z;
  reason : str;
  ioc_confirmed : bool;
  os : str;
  method : str;
  rule_name : str
}.

(** The audit file [BLOCKED_IPS_FILE]: it holds a JSON object keyed by
    address, or it cannot be read (missing, or not JSON). *)
Inductive LedgerFile :=
| Readable (history : gmap (list N) BlockRecord)
| Unreadable.

(** A command line handed to [subprocess.Popen]. *)
Abbreviation command := (list (list N)) (only parsing).

(** What the controller acts on: the operating system name
    ([platform.system()]), the audit file, and the commands spawned so
    far (oldest first).  Writing the audit file is taken to succeed. *)
Record FwState := {
  os_type : str;
  ledger_file : LedgerFile;
  spawned : list command
}.

(** The environment decides whether [subprocess.Popen] raises, given the
    commands spawned so far and the new one. *)
Class Subprocess := {
  popen_raises : list command -> command -> bool
}.

(** An environment in which [subprocess.Popen] never raises. *)
Definition popen_works : Subprocess := {| popen_raises := λ _ _, false |}.

(** [_load_history]: any failure to read gives the empty dict. *)
Definition _load_history (st : FwState) : gmap (list N) BlockRecord :=
  match ledger_file st with
  | Readable history => history
  | Unreadable => ∅
  end.

(** [_save_history] *)
Definition _save_history (st : FwState) (data : gmap (list N) BlockRecord)
  : FwState :=
  {| os_type := os_type st;
     ledger_file := Readable data;
     spawned := spawned st |}.

Definition PRIVATE_PREFIXES : list str :=
  [ lit "127."; lit "10."; lit "192.168.";
    lit "172.16."; lit "172.17."; lit "172.18.";
    lit "172.19."; lit "172.2"; lit "0." ].

(** [_is_private_ip] *)
Definition _is_private_ip (ip : str) : bool :=
  startswith_any ip PRIVATE_PREFIXES.

(** The two [netsh] command lines of [_block_windows]. *)
Definition netsh_cmd (rule_name suffix dir ip : str) : command :=
  [ lit "netsh"; lit "advfirewall"; lit "firewall"; lit "add"; lit "rule";
    lit "name=" ++ rule_name ++ suffix;
    dir;
    lit "action=block";
    lit "remoteip=" ++ ip ].

Definition windows_cmds (ip rule_name : str) : list command :=
  [ netsh_cmd rule_name (lit "_IN") (lit "dir=in") ip;
    netsh_cmd rule_name (lit "_OUT") (lit "dir=out") ip ].

(** The loop [for cmd in cmds: subprocess.Popen(cmd, ...)]: a command
    that raises ends the loop; [false] reports the exception. *)
Fixpoint spawn_all `{Subprocess} (cmds : list command) (st : FwState)
  : bool * FwState :=
  match cmds with
  | [] => (true, st)
  | cmd :: rest =>
      if popen_raises (spawned st) cmd then (false, st)
      else spawn_all rest
             {| os_type := os_type st;
                ledger_file := ledger_file st;
                spawned := spawned st ++ [cmd] |}
  end.

(** [_block_windows] *)
Definition _block_windows `{Subprocess} (st : FwState) (ip rule_name : str)
  : bool * FwState :=
  spawn_all (windows_cmds ip rule_name) st.

(** The audit step of [block_ip]: reload, insert, save. *)
Definition audit_log (now : Z) (st : FwState)
    (ip reason : str) (ioc_confirmed : bool) (method rule_name : str)
  : FwState :=
  let history := _load_history st in
  _save_history st
    (<[ ip := {| blocked_at := now;
                 reason := reason;
                 ioc_confirmed := ioc_confirmed;
                 os := os_type st;
                 method := method;
                 rule_name := rule_name |} ]> history).

(** [block_ip]: the result and the state it leaves.  [policy] is the
    [AUTO_BLOCK] dictionary, [now] the clock reading of the audit step. *)
Definition block_ip `{Subprocess} (policy : AutoBlock) (now : Z)
    (st : FwState) (ip reason : str) (ioc_confirmed : bool)
  : bool * FwState :=
  if negb (default false (ENABLED policy)) then (false, st)
  else if default true (REQUIRE_IOC policy) && negb ioc_confirmed
  then (false, st)
  else if negb (truthy ip) || eqb ip (lit "UNKNOWN") then (false, st)
  else if _is_private_ip ip then (false, st)
  else
    let history := _load_history st in
    if bool_decide (is_Some (history !! ip)) then (false, st)
    else
      let rule_name := lit "SOC_BLOCK_" ++ ip in
      if eqb (os_type st) (lit "Windows") then
        match _block_windows st ip rule_name with
        | (true, st') =>
            (true, audit_log now st' ip reason ioc_confirmed
                     (lit "netsh") rule_name)
        | (false, st') => (false, st')
        end
      else
        (true, audit_log now st ip reason ioc_confirmed
                 (lit "audit-only") rule_name).

(** A call of [block_ip], and a sequential run of calls: the results in
    call order and the final state. *)
Record Call := {
  call_policy : AutoBlock;
  call_now : Z;
  call_ip : str;
  call_reason : str;
  call_ioc : bool
}.

Definition do_call `{Subprocess} (st : FwState) (c : Call) : bool * FwState :=
  block_ip (call_policy c) (call_now c) st
           (call_ip c) (call_reason c) (call_ioc c).

Fixpoint run `{Subprocess} (calls : list Call) (st : FwState)
  : list bool * FwState :=
  match calls with
  | [] => ([], st)
  | c :: rest =>
      let '(r, st1) := do_call st c in
      let '(rs, st2) := run rest st1 in
      (r :: rs, st2)
  end.

(** How many calls of a run returned [True] for the address [ip]. *)
Definition times_blocked (ip : str) (calls : list Call) (results : list bool)
  : nat :=
  length (List.filter (λ cr : Call * bool, cr.2 && eqb (call_ip cr.1) ip)
                      (zip calls results)).

(** The private and loopback ranges as the specification names them:
    127.0.0.0/8, 10.0.0.0/8, 192.168.0.0/16 and 172.16.0.0/12, on the
    first two octets of a dotted quad. *)
Definition in_private_range (a b : N) : bool :=
  ((a =? 127) || (a =? 10) || (a =? 192) && (b =? 168)
   || (a =? 172) && (16 <=? b) && (b <=? 31))%N.

(** Decimal rendering of an octet, and of a dotted quad. *)
Definition digit (n : N) : N := (48 + n)%N.

Definition octet (n : N) : str :=
  if (n <? 10)%N then [digit n]
  else if (n <? 100)%N then [digit (n / 10); digit (n mod 10)]
  else [digit (n / 100); digit ((n / 10) mod 10); digit (n mod 10)].

Definition dotted (a b c d : N) : str :=
  octet a ++ lit "." ++ octet b ++ lit "." ++ octet c ++ lit "." ++ octet d.

End Firewall.

(* ===================================================================== *)
(** * Detection records *)
(* ===================================================================== *)

Module Det.

(** A detection is a Python dict with the keys below.  Consumers read it
    with [.get], so every key is optional here; the detection engine
    fills all seven. *)
Record Detection := {
  rule : option (list N);
  severity : option (list N);
  ip : option (list N);
  time : option (list N);
  payload : option (list N);
  raw : option (list N);
  ioc_hit : option bool
}.

(** The empty dict [{}], the one falsy detection. *)
Definition empty : Detection :=
  {| rule := None; severity := None; ip := None; time := None;
     payload := None; raw := None; ioc_hit := None |}.

#[export] Instance Detection_eq_dec : EqDecision Detection.
Proof. solve_decision. Defined.

(** [bool(detection)] *)
Definition truthy (d : Detection) : bool := negb (bool_decide (d = empty)).

End Det.
Import (hints) Det.
Abbreviation Detection := Det.Detection.

(* ===================================================================== *)
(** * response/responder.py *)
(* ===================================================================== *)

Module Responder.

(** The three collaborators of the engine and the Qt signal, over a state
    [World] of everything outside the engine (files, mail, the firewall).
    Each call may change the world and may raise. *)
Class Collaborators (World : Type) := {
  firewall_block_ip : World -> str -> str -> bool -> outcome bool * World;
  ip_blocked_emit : World -> outcome unit * World;
  alerter_send_alert : World -> Detection -> outcome unit * World;
  reporter_generate : World -> Detection -> outcome unit * World
}.

(** The calls the engine makes, recorded in call order. *)
Inductive Event :=
| BlockIp (ip reason : list N) (ioc_confirmed : bool)
| IpBlocked
| SendAlert (d : Detection)
| Generate (d : Detection).

Abbreviation incident_key := (list N * list N * list N)%type (only parsing).

(** The engine: the dedup table (key to the [utcnow()] reading, in
    microseconds, at which it was handled), the one-report latch, the
    outside world and the calls made so far. *)
Record Engine (World : Type) := {
  _handled_incidents : gmap (list N * list N * list N) Z;
  _pdf_generated_for_run : bool;
  world : World;
  calls : list Event
}.
Arguments _handled_incidents {World} e.
Arguments _pdf_generated_for_run {World} e.
Arguments world {World} e.
Arguments calls {World} e.

(** [timedelta(minutes=10)] in microseconds. *)
Definition _dedup_ttl : Z := 10 * 60 * 1000000.

(** [_cleanup_old_incidents]: the entries with [now - ts > ttl] go. *)
Definition _cleanup_old_incidents (now : Z)
    (handled : gmap (list N * list N * list N) Z)
  : gmap (list N * list N * list N) Z :=
  filter (λ kv, ¬ (now - kv.2 > _dedup_ttl)%Z) handled.

Section Engine.
Context {World : Type} `{Collaborators World}.

Definition with_handled (e : Engine World)
    (handled : gmap (list N * list N * list N) Z) : Engine World :=
  {| _handled_incidents := handled;
     _pdf_generated_for_run := _pdf_generated_for_run e;
     world := world e;
     calls := calls e |}.

(** The engine after a collaborator call [ev] that left the world [w]. *)
Definition after_call (e : Engine World) (ev : Event) (w : World)
  : Engine World :=
  {| _handled_incidents := _handled_incidents e;
     _pdf_generated_for_run := _pdf_generated_for_run e;
     world := w;
     calls := calls e ++ [ev] |}.

Definition set_pdf_generated (e : Engine World) : Engine World :=
  {| _handled_incidents := _handled_incidents e;
     _pdf_generated_for_run := true;
     world := world e;
     calls := calls e |}.

(** [_handle_firewall] *)
Definition _handle_firewall (policy : AutoBlock) (e : Engine World)
    (severity ip rule : str) (ioc_hit : bool)
  : outcome bool * Engine World :=
  if negb (default false (ENABLED policy)) then (Returned false, e)
  else
    let should_block :=
      if default true (REQUIRE_IOC policy)
      then eqb severity (lit "Critical") && ioc_hit
      else eqb severity (lit "Critical") in
    if should_block && truthy ip && negb (eqb ip (lit "UNKNOWN")) then
      match firewall_block_ip (world e) ip rule ioc_hit with
      | (Returned _, w) => (Returned true, after_call e (BlockIp ip rule ioc_hit) w)
      | (Raised, w) => (Raised, after_call e (BlockIp ip rule ioc_hit) w)
      end
    else (Returned false, e).

(** Step 1 of [handle_detection]: the firewall response with its
    [try]/[except]. *)
Definition firewall_step (policy : AutoBlock) (e : Engine World)
    (severity ip rule : str) (ioc_hit : bool) : Engine World :=
  match _handle_firewall policy e severity ip rule ioc_hit with
  | (Returned true, e1) =>
      let '(_, w) := ip_blocked_emit (world e1) in
      after_call e1 IpBlocked w
  | (Returned false, e1) => e1
  | (Raised, e1) => e1
  end.

(** [_handle_email] inside its [try]/[except]: an exception is logged and
    dropped, so only the state matters. *)
Definition _handle_email (features : Features) (e : Engine World)
    (severity : str) (detection : Detection) : Engine World :=
  if negb (default false (EMAIL_ALERTS features)) then e
  else if default false (EMAIL_ALL_DETECTIONS features) then
    let '(_, w) := alerter_send_alert (world e) detection in
    after_call e (SendAlert detection) w
  else if eqb severity (lit "High") || eqb severity (lit "Critical") then
    let '(_, w) := alerter_send_alert (world e) detection in
    after_call e (SendAlert detection) w
  else e.

(** Step 3: one report per run; the latch is set only when [generate]
    returned. *)
Definition report_step (e : Engine World) (detection : Detection)
  : Engine World :=
  if _pdf_generated_for_run e then e
  else
    match reporter_generate (world e) detection with
    | (Returned _, w) => set_pdf_generated (after_call e (Generate detection) w)
    | (Raised, w) => after_call e (Generate detection) w
    end.

(** The three response steps, in the order of the source. *)
Definition response_steps (policy : AutoBlock) (features : Features)
    (e : Engine World) (detection : Detection)
    (severity ip rule : str) (ioc_hit : bool) : Engine World :=
  let e1 := firewall_step policy e severity ip rule ioc_hit in
  let e2 := _handle_email features e1 severity detection in
  report_step e2 detection.

(** The dedup key of a detection. *)
Definition key_of (detection : Detection) : incident_key :=
  (default (lit "UNKNOWN") (Det.ip detection),
   default (lit "Unknown Threat") (Det.rule detection),
   default (lit "Low") (Det.severity detection)).

(** [handle_detection], with [now] the reading of [datetime.utcnow()]. *)
Definition handle_detection (policy : AutoBlock) (features : Features)
    (now : Z) (e : Engine World) (detection : Detection) : Engine World :=
  if negb (Det.truthy detection) then e
  else
    let severity := default (lit "Low") (Det.severity detection) in
    let ip := default (lit "UNKNOWN") (Det.ip detection) in
    let rule := default (lit "Unknown Threat") (Det.rule detection) in
    let ioc_hit := default false (Det.ioc_hit detection) in
    let incident_key := (ip, rule, severity) in
    let handled := _cleanup_old_incidents now (_handled_incidents e) in
    if bool_decide (is_Some (handled !! incident_key)) then
      with_handled e handled
    else
      response_steps policy features
        (with_handled e (<[ incident_key := now ]> handled))
        detection severity ip rule ioc_hit.

End Engine.

(** A concrete world for the engine: the firewall controller of
    response/firewall.py with its policy and clock, and a mailer and a
    report generator that either work or raise. *)
Record SocWorld := {
  fw : Firewall.FwState;
  fw_policy : AutoBlock;
  fw_clock : Z;
  mailer_up : bool;
  reporter_up : bool;
  mailed : list Detection;
  reported : list Detection
}.

#[export] Instance soc_collaborators `{Firewall.Subprocess}
  : Collaborators SocWorld := {
  firewall_block_ip w ip reason ioc :=
    let '(r, st) := Firewall.block_ip (fw_policy w) (fw_clock w) (fw w)
                                      ip reason ioc in
    (Returned r,
     {| fw := st; fw_policy := fw_policy w; fw_clock := fw_clock w;
        mailer_up := mailer_up w; reporter_up := reporter_up w;
        mailed := mailed w; reported := reported w |});
  ip_blocked_emit w := (Returned tt, w);
  alerter_send_alert w d :=
    if mailer_up w then
      (Returned tt,
       {| fw := fw w; fw_policy := fw_policy w; fw_clock := fw_clock w;
          mailer_up := mailer_up w; reporter_up := reporter_up w;
          mailed := mailed w ++ [d]; reported := reported w |})
    else (Raised, w);
  reporter_generate w d :=
    if reporter_up w then
      (Returned tt,
       {| fw := fw w; fw_policy := fw_policy w; fw_clock := fw_clock w;
          mailer_up := mailer_up w; reporter_up := reporter_up w;
          mailed := mailed w; reported := reported w ++ [d] |})
    else (Raised, w)
}.

(** Collaborators that all raise, over a world with nothing in it. *)
Definition all_raise : Collaborators unit :=
  {| firewall_block_ip := λ w _ _ _, (Raised, w);
     ip_blocked_emit := λ w, (Raised, w);
     alerter_send_alert := λ w _, (Raised, w);
     reporter_generate := λ w _, (Raised, w) |}.

End Responder.

(* ===================================================================== *)
(** * intelligence/ioc_loader.py *)
(* ===================================================================== *)

Module IOC.

Definition IOC_FEEDS : list (list N * list N) :=
  [ (lit "firehol_level1",
     lit "https://raw.githubusercontent.com/firehol/blocklist-ipsets/master/firehol_level1.netset") ].

(** The outside of the engine.  [requests_get log url] is the body of the
    response to fetching [url] after the fetches in [log], or [None] when
    [requests.get] or [raise_for_status] raises.  [save_raises] tells
    whether writing the cache artifact raises. *)
Class Environment := {
  requests_get : list (list N) -> list N -> option (list N);
  save_raises : gset (list N) -> Qc -> bool
}.

(** The engine: the in-memory set, [last_updated] (seconds, a reading of
    [time.time()], taken with exact arithmetic), the URLs fetched so far
    (oldest first) and the content of the cache artifact, if written. *)
Record Engine := {
  iocs : gset (list N);
  last_updated : Qc;
  fetched : list (list N);
  cache_file : option (gset (list N) * Qc)
}.

(** [is_malicious] *)
Definition is_malicious (e : Engine) (ip : str) : bool :=
  if negb (truthy ip) || eqb ip (lit "UNKNOWN") then false
  else bool_decide (ip ∈ iocs e).

(** The inner loop over [resp.text.splitlines()]. *)
Fixpoint collect_lines (lines : list str) (collected : gset (list N))
  : gset (list N) :=
  match lines with
  | [] => collected
  | line :: rest =>
      let line := strip line in
      if truthy line && negb (startswith line (lit "#"))
      then collect_lines rest ({[ line ]} ∪ collected)
      else collect_lines rest collected
  end.

(** The loop over [IOC_FEEDS]: every feed is requested; one that raises
    is logged and skipped. *)
Fixpoint fetch_feeds `{Environment} (feeds : list (list N * list N))
    (collected : gset (list N)) (log : list (list N))
  : gset (list N) * list (list N) :=
  match feeds with
  | [] => (collected, log)
  | (name, url) :: rest =>
      match requests_get log url with
      | Some text =>
          fetch_feeds rest (collect_lines (splitlines text) collected)
                      (log ++ [url])
      | None => fetch_feeds rest collected (log ++ [url])
      end
  end.

(** [_save_cache]: the artifact is replaced in one step, or the call
    raises and leaves it as it was. *)
Definition _save_cache `{Environment} (e : Engine) : outcome unit * Engine :=
  if save_raises (iocs e) (last_updated e) then (Raised, e)
  else (Returned tt,
        {| iocs := iocs e; last_updated := last_updated e;
           fetched := fetched e;
           cache_file := Some (iocs e, last_updated e) |}).

(** [update_iocs], with [now] the reading of [time.time()]. *)
Definition update_iocs `{Environment} (now : Qc) (e : Engine)
  : outcome unit * Engine :=
  if bool_decide (now - last_updated e < Qc_of_Z 3600)%Qc then (Returned tt, e)
  else
    let '(collected, log) := fetch_feeds IOC_FEEDS ∅ (fetched e) in
    if bool_decide (collected ≠ ∅) then
      _save_cache {| iocs := collected; last_updated := now;
                     fetched := log; cache_file := cache_file e |}
    else
      (Returned tt,
       {| iocs := iocs e; last_updated := last_updated e;
          fetched := log; cache_file := cache_file e |}).

(** A feed that is down at the first request and serves one address
    from the second request on; the cache artifact can be written. *)
Definition down_then_up : Environment :=
  {| requests_get := λ log url,
       match log with
       | [] => None
       | _ => Some (lit "# blocklist" ++ [10%N] ++ lit "203.0.113.9" ++ [10%N])
       end;
     save_raises := λ _ _, false |}.

(** An engine as built on a machine without a cache artifact and without
    network: nothing loaded, [last_updated] still [0.0]. *)
Definition never_updated : Engine :=
  {| iocs := ∅; last_updated := Qc_of_Z 0; fetched := []; cache_file := None |}.

End IOC.

(* ===================================================================== *)
(** * core/normalizer.py *)
(* ===================================================================== *)

Module Normalizer.

Definition MAX_LEN : nat := 2000.
Definition HALF_LEN : nat := MAX_LEN / 2.

(** What the Python library does beyond ASCII, which the sources only
    pass through: whether a code point from 128 on is printable, what
    lower-casing puts for the non-ASCII character at a position of a
    string, how a percent-decoded byte string with a byte from 128 on
    decodes as UTF-8 with replacement, and what [html.unescape] makes of
    a string holding an ampersand.  The last two may raise ([None]). *)
Class Unicode := {
  uni_isprintable : N -> bool;
  uni_lower_at : list N -> nat -> list N;
  utf8_decode_replace : list N -> option (list N);
  html_charref_sub : list N -> option (list N)
}.

Section WithUnicode.
Context `{Unicode}.

(** [ch.isprintable()] *)
Definition isprintable (c : char) : bool :=
  if (c <? 128)%N then (32 <=? c)%N && (c <=? 126)%N
  else uni_isprintable c.

(** [_strip_control_chars] *)
Definition _strip_control_chars (text : str) : str :=
  List.filter isprintable text.

(** [text.lower()]: character by character; an ASCII capital moves to
    its small letter, other ASCII characters stay. *)
Definition lower_char (s : str) (i : nat) (c : char) : str :=
  if (c <? 128)%N
  then [if (65 <=? c)%N && (c <=? 90)%N then (c + 32)%N else c]
  else uni_lower_at s i.

Definition lower (s : str) : str := concat (imap (lower_char s) s).

(** The value of a hexadecimal digit. *)
Definition hexval (c : char) : option N :=
  if (48 <=? c)%N && (c <=? 57)%N then Some (c - 48)%N
  else if (65 <=? c)%N && (c <=? 70)%N then Some (c - 55)%N
  else if (97 <=? c)%N && (c <=? 102)%N then Some (c - 87)%N
  else None.

(** [urllib.parse.unquote_to_bytes] on an ASCII string: a percent sign
    followed by two hexadecimal digits becomes that byte; any other
    percent sign stays. *)
Fixpoint unquote_to_bytes (s : str) : list N :=
  match s with
  | [] => []
  | c :: s' =>
      if (c =? 37)%N then
        match s' with
        | h1 :: h2 :: s'' =>
            match hexval h1, hexval h2 with
            | Some a, Some b => (16 * a + b)%N :: unquote_to_bytes s''
            | _, _ => c :: unquote_to_bytes s'
            end
        | _ => c :: unquote_to_bytes s'
        end
      else c :: unquote_to_bytes s'
  end.

(** [bytes.decode("utf-8", "replace")]: ASCII bytes are themselves. *)
Definition decode_utf8 (bytes : list N) : option str :=
  if forallb (λ b, b <? 128)%N bytes then Some bytes
  else utf8_decode_replace bytes.

(** The body of [urllib.parse.unquote]: each maximal ASCII run is
    percent-decoded and read as UTF-8, the characters between the runs
    are kept.  [run] is the current ASCII run in reverse. *)
Fixpoint unquote_parts (run : str) (s : str) : option str :=
  match s with
  | [] => decode_utf8 (unquote_to_bytes (rev run))
  | c :: s' =>
      if (c <? 128)%N then unquote_parts (c :: run) s'
      else
        head ← decode_utf8 (unquote_to_bytes (rev run));
        tail ← unquote_parts [] s';
        Some (head ++ c :: tail)
  end.

(** [urllib.parse.unquote] *)
Definition unquote (s : str) : option str :=
  if negb (has_char 37 s) then Some s else unquote_parts [] s.

(** [urllib.parse.unquote_plus] *)
Definition unquote_plus (s : str) : option str :=
  unquote (map (λ c, if (c =? 43)%N then 32%N else c) s).

(** [html.unescape] *)
Definition html_unescape (s : str) : option str :=
  if negb (has_char 38 s) then Some s else html_charref_sub s.

(** One pass of the loop body of [recursive_decode]; [None] when a
    library call raises. *)
Definition decode_once (current : str) : option str :=
  decoded ← unquote_plus current;
  html_unescape decoded.

(** The [for _ in range(max_depth)] loop. *)
Fixpoint decode_loop (max_depth : nat) (current : str) : str :=
  match max_depth with
  | O => current
  | S depth =>
      match decode_once current with
      | None => current
      | Some decoded =>
          if eqb decoded current then current
          else decode_loop depth decoded
      end
  end.

(** [recursive_decode] *)
Definition recursive_decode (text : str) (max_depth : nat) : str :=
  if negb (truthy text) then []
  else decode_loop max_depth text.

(** The length guard: [text[:HALF_LEN] + "..." + text[-HALF_LEN:]]. *)
Definition length_guard (text : str) : str :=
  if MAX_LEN <? length text
  then take HALF_LEN text ++ lit "..." ++ drop (length text - HALF_LEN) text
  else text.

(** What [normalize_log_entry] does to one field: decode, strip, lower,
    guard the length. *)
Definition normalize_field (text : str) : str :=
  let decoded := recursive_decode text 3 in
  let decoded := _strip_control_chars decoded in
  let decoded := lower decoded in
  length_guard decoded.

(** [normalize_log_entry] on a dict of strings. *)
Definition normalize_log_entry (entry : gmap string (list N))
  : gmap string (list N) :=
  let normalized := entry in
  let request := or_else (default [] (entry !! "request"%string)) [] in
  let raw := or_else (default [] (entry !! "raw"%string)) [] in
  <[ "normalized_raw"%string := normalize_field raw ]>
    (<[ "normalized_request"%string := normalize_field request ]>
       normalized).

End WithUnicode.

(** An instance for text that stays in ASCII, where the four fields are
    never consulted: non-ASCII characters count as printable and stay as
    they are, and the two decoders raise. *)
Definition ascii_only : Unicode :=
  {| uni_isprintable := λ _, true;
     uni_lower_at := λ s i, match s !! i with Some c => [c] | None => [] end;
     utf8_decode_replace := λ _, None;
     html_charref_sub := λ _, None |}.

End Normalizer.

(* ===================================================================== *)
(** * core/correlation.py *)
(* ===================================================================== *)

Module Correlation.

(** An incident record. *)
Record Incident := {
  ip : list N;
  type : list N;
  severity : list N;
  count : nat;
  ioc_confirmed : bool;
  evidence : list Detection
}.

(** A [datetime]: microseconds on the time line, naive or aware of its
    zone.  Comparing a naive with an aware one raises [TypeError]. *)
Inductive datetime :=
| Naive (us : Z)
| Aware (us : Z).

(** The two library parsers ([None] when they raise) and the clock:
    [utcnow n] is the reading of the [n]-th call of [datetime.utcnow()]
    made during one correlation. *)
Class TimeLib := {
  fromisoformat : list N -> option datetime;
  strptime_apache : list N -> option datetime;
  utcnow : nat -> Z
}.

(** [latest_time - self.time_window] *)
Definition minus_delta (t : datetime) (delta : Z) : datetime :=
  match t with
  | Naive us => Naive (us - delta)
  | Aware us => Aware (us - delta)
  end.

(** [a >= b], which raises on a naive and an aware operand. *)
Definition datetime_ge (a b : datetime) : outcome bool :=
  match a, b with
  | Naive x, Naive y => Returned (y <=? x)%Z
  | Aware x, Aware y => Returned (y <=? x)%Z
  | _, _ => Raised
  end.

(** [time_str.split(" ")[0]] *)
Fixpoint first_field (s : str) : str :=
  match s with
  | [] => []
  | c :: s' => if (c =? 32)%N then [] else c :: first_field s'
  end.

Section Engine.
Context `{TimeLib}.

(** [timedelta(minutes=time_window_minutes)], in microseconds. *)
Variable time_window_minutes : Z.
Definition time_window : Z := time_window_minutes * 60 * 1000000.

(** [_parse_time]; [n] counts the clock readings made so far. *)
Definition _parse_time (time_str : option str) (n : nat) : datetime * nat :=
  match time_str with
  | None => (Naive (utcnow n), S n)
  | Some s =>
      if negb (truthy s) || eqb s (lit "UNKNOWN") then (Naive (utcnow n), S n)
      else
        match fromisoformat s with
        | Some t => (t, n)
        | None =>
            match strptime_apache (first_field s) with
            | Some t => (t, n)
            | None => (Naive (utcnow n), S n)
            end
        end
  end.

(** The loop of [_filter_time_window]: an event stays when it is not
    older than the cutoff, or when the comparison raises. *)
Fixpoint filter_loop (cutoff : datetime) (events : list Detection) (n : nat)
  : list Detection * nat :=
  match events with
  | [] => ([], n)
  | e :: rest =>
      let '(event_time, n1) := _parse_time (Det.time e) n in
      let keep :=
        match datetime_ge event_time cutoff with
        | Returned b => b
        | Raised => true
        end in
      let '(filtered, n2) := filter_loop cutoff rest n1 in
      (if keep then e :: filtered else filtered, n2)
  end.

(** [_filter_time_window].  [_parse_time] never raises, so the fallback
    of the first [try] is never taken. *)
Definition _filter_time_window (events : list Detection) (n : nat)
  : list Detection * nat :=
  match last events with
  | None => ([], n)
  | Some latest =>
      let '(latest_time, n1) := _parse_time (Det.time latest) n in
      let cutoff := minus_delta latest_time time_window in
      filter_loop cutoff events n1
  end.

(** [any(e.get("ioc_hit") for e in events)] *)
Definition any_ioc_hit (events : list Detection) : bool :=
  existsb (λ e, default false (Det.ioc_hit e)) events.

Definition is_failed_login (e : Detection) : bool :=
  contains (lit "Failed Login") (default [] (Det.rule e)).

Definition is_scanner (e : Detection) : bool :=
  contains (lit "Scanner") (default [] (Det.rule e)).

Definition is_critical (e : Detection) : bool :=
  bool_decide (Det.severity e = Some (lit "Critical")).

(** [_analyze_ip] *)
Definition _analyze_ip (ip : str) (events : list Detection) : list Incident :=
  match events with
  | [] => []
  | _ =>
      let failed_logins := List.filter is_failed_login events in
      let scanner_hits := List.filter is_scanner events in
      let exploit_hits := List.filter is_critical events in
      (if 5 <=? length failed_logins then
         [ {| ip := ip;
              type := lit "Brute Force Login Attack";
              severity := lit "High";
              count := length failed_logins;
              ioc_confirmed := any_ioc_hit failed_logins;
              evidence := failed_logins |} ]
       else [])
      ++
      (if nonempty scanner_hits && nonempty exploit_hits then
         [ {| ip := ip;
              type := lit "Reconnaissance Followed by Exploitation";
              severity := lit "Critical";
              count := length scanner_hits + length exploit_hits;
              ioc_confirmed := any_ioc_hit exploit_hits;
              evidence := scanner_hits ++ exploit_hits |} ]
       else [])
      ++
      (if 3 <=? length exploit_hits then
         [ {| ip := ip;
              type := lit "Repeated Critical Attack Attempts";
              severity := lit "Critical";
              count := length exploit_hits;
              ioc_confirmed := any_ioc_hit exploit_hits;
              evidence := exploit_hits |} ]
       else [])
      ++
      (if 10 <=? length events then
         [ {| ip := ip;
              type := lit "High Volume Suspicious Activity";
              severity := lit "Medium";
              count := length events;
              ioc_confirmed := any_ioc_hit events;
              evidence := events |} ]
       else [])
  end.

(** [grouped_by_ip[key].append(d)] on a dict that keeps its keys in the
    order of their first insertion. *)
Fixpoint group_append (groups : list (list N * list Detection))
    (key : str) (d : Detection) : list (list N * list Detection) :=
  match groups with
  | [] => [(key, [d])]
  | (k, ds) :: rest =>
      if eqb k key then (k, ds ++ [d]) :: rest
      else (k, ds) :: group_append rest key d
  end.

Definition group_by_ip (detections : list Detection)
  : list (list N * list Detection) :=
  fold_left
    (λ groups d, group_append groups (default (lit "UNKNOWN") (Det.ip d)) d)
    detections [].

(** [events.sort(key=lambda x: x.get("time", ""))]: a stable sort on the
    time strings. *)
Definition time_key (d : Detection) : str := default [] (Det.time d).

Fixpoint insert_by_time (d : Detection) (sorted : list Detection)
  : list Detection :=
  match sorted with
  | [] => [d]
  | e :: rest =>
      if ltb (time_key e) (time_key d) then e :: insert_by_time d rest
      else d :: e :: rest
  end.

Definition sort_by_time (events : list Detection) : list Detection :=
  foldr insert_by_time [] events.

(** The loop of [correlate] over the groups. *)
Fixpoint correlate_groups (groups : list (list N * list Detection)) (n : nat)
  : list Incident :=
  match groups with
  | [] => []
  | (ip, events) :: rest =>
      let events := sort_by_time events in
      let '(recent_events, n1) := _filter_time_window events n in
      _analyze_ip ip recent_events ++ correlate_groups rest n1
  end.

(** [correlate] *)
Definition correlate (detections : list Detection) : list Incident :=
  match detections with
  | [] => []
  | _ => correlate_groups (group_by_ip detections) 0
  end.

End Engine.




(** The incidents of one type among the incidents of a correlation. *)
Definition of_type (name : str) (incidents : list Incident) : list Incident :=
  List.filter (λ i, eqb (type i) name) incidents.

End Correlation.

(* ===================================================================== *)
(** * Python's [re], for the constructs the detection rules use *)
(* ===================================================================== *)

Module PyRe.

(** One character of a pattern: a literal, the dot, [\s], [\d], or a
    bracketed set of literal characters, possibly negated. *)
Inductive atom :=
| ALit (c : N)
| AAny
| ASpace
| ADigit
| ASet (negated : bool) (members : list N).

(** A pattern: the empty pattern, one character, a sequence, a choice, a
    repetition with its least and greatest count ([None]: unbounded), and
    the word boundary [\b]. *)
Inductive regex :=
| Eps
| Atom (a : atom)
| Cat (r1 r2 : regex)
| Alt (r1 r2 : regex)
| Rep (r : regex) (min : nat) (max : option nat)
| WordB.

(** The Unicode tables behind [\w] and [\d] from code point 128 on. *)
Class Tables := {
  uni_isalnum : N -> bool;
  uni_isdecimal : N -> bool
}.

Definition is_digit (c : char) : bool := (48 <=? c)%N && (c <=? 57)%N.
Definition is_upper (c : char) : bool := (65 <=? c)%N && (c <=? 90)%N.
Definition is_lower (c : char) : bool := (97 <=? c)%N && (c <=? 122)%N.

Definition ascii_lower (c : char) : char :=
  if is_upper c then (c + 32)%N else c.

(** Equality under [re.IGNORECASE] of an ASCII pattern character [c] and
    a character [t] of the text.  Beyond ASCII, [i] also matches U+0130
    and U+0131, [k] the Kelvin sign U+212A and [s] the long s U+017F. *)
Definition ci_eq (c t : char) : bool :=
  if (t <? 128)%N then (ascii_lower c =? ascii_lower t)%N
  else
    let l := ascii_lower c in
    ((l =? 105) && ((t =? 304) || (t =? 305))
     || (l =? 107) && (t =? 8490)
     || (l =? 115) && (t =? 383))%N.

Section Matching.
Context `{Tables}.

(** [\w]: alphanumeric or the underscore. *)
Definition is_word (c : char) : bool :=
  if (c <? 128)%N
  then is_digit c || is_upper c || is_lower c || (c =? 95)%N
  else uni_isalnum c.

Definition atom_matches (a : atom) (t : char) : bool :=
  match a with
  | ALit c => ci_eq c t
  | AAny => negb (t =? 10)%N
  | ASpace => isspace t
  | ADigit => if (t <? 128)%N then is_digit t else uni_isdecimal t
  | ASet negated members =>
      xorb negated (existsb (λ c, ci_eq c t) members)
  end.

(** Whether a position is a word boundary: exactly one of the characters
    before and after it is a word character. *)
Definition at_boundary (prev : option N) (s : str) : bool :=
  xorb (from_option is_word false prev) (from_option is_word false (head s)).

(** The repetition loop.  [step] matches the repeated pattern once and
    hands over what is left; once the least count is reached, a round
    that consumes nothing is not taken again. *)
Fixpoint rep_loop
    (step : option N → str → (option N → str → bool) → bool)
    (fuel min : nat) (max : option nat)
    (prev : option N) (s : str) (k : option N → str → bool) : bool :=
  match fuel with
  | O => false
  | S fuel' =>
      match min with
      | S min' =>
          match max with
          | Some O => false
          | _ =>
              step prev s
                (λ prev' s',
                   rep_loop step fuel' min' (pred <$> max) prev' s' k)
          end
      | O =>
          if k prev s then true
          else
            match max with
            | Some O => false
            | _ =>
                step prev s
                  (λ prev' s',
                     if length s' <? length s
                     then rep_loop step fuel' O (pred <$> max) prev' s' k
                     else false)
            end
      end
  end.

(** [matches r prev s k]: [r] matches a prefix of [s], which follows the
    character [prev], and [k] accepts what comes after it. *)
Fixpoint matches (r : regex) (prev : option N) (s : str)
    (k : option N → str → bool) : bool :=
  match r with
  | Eps => k prev s
  | Atom a =>
      match s with
      | t :: s' => if atom_matches a t then k (Some t) s' else false
      | [] => false
      end
  | Cat r1 r2 => matches r1 prev s (λ prev' s', matches r2 prev' s' k)
  | Alt r1 r2 => if matches r1 prev s k then true else matches r2 prev s k
  | Rep r' min max =>
      rep_loop (matches r') (min + length s + 1) min max prev s k
  | WordB => if at_boundary prev s then k prev s else false
  end.

(** [search]: a match starting at some position of the text. *)
Fixpoint search_from (r : regex) (prev : option N) (s : str) : bool :=
  if matches r prev s (λ _ _, true) then true
  else
    match s with
    | t :: s' => search_from r (Some t) s'
    | [] => false
    end.

Definition search (r : regex) (text : str) : bool :=
  search_from r None text.

End Matching.

(** ** Reading a pattern *)

(** A decimal number at the head of the pattern. *)
Fixpoint read_number (acc : nat) (seen : bool) (p : str)
  : option (nat * str) :=
  match p with
  | c :: p' =>
      if is_digit c
      then read_number (10 * acc + N.to_nat (c - 48)) true p'
      else if seen then Some (acc, p) else None
  | [] => if seen then Some (acc, p) else None
  end.

(** The members of a bracketed set of literal characters, up to the
    closing bracket.  A hyphen counts as a member only where it cannot
    make a range: first or last in the set. *)
Fixpoint read_set (members : list N) (p : str) : option (list N * str) :=
  match p with
  | [] => None
  | c :: p' =>
      if (c =? 93)%N then Some (rev members, p')
      else if (c =? 92)%N then None
      else if (c =? 45)%N && nonempty members
              && negb (startswith p' (lit "]")) then None
      else read_set (c :: members) p'
  end.

(** The quantifier after an item, with its lazy mark. *)
Definition skip_lazy (p : str) : str :=
  match p with
  | c :: p' => if (c =? 63)%N then p' else p
  | [] => []
  end.

Definition read_quantifier (r : regex) (p : str) : option (regex * str) :=
  match p with
  | c :: p' =>
      if (c =? 42)%N then Some (Rep r 0 None, skip_lazy p')
      else if (c =? 43)%N then Some (Rep r 1 None, skip_lazy p')
      else if (c =? 63)%N then Some (Rep r 0 (Some 1), skip_lazy p')
      else if (c =? 123)%N then
        '(lo, p1) ← read_number 0 false p';
        match p1 with
        | d :: p2 =>
            if (d =? 125)%N then Some (Rep r lo (Some lo), skip_lazy p2)
            else if (d =? 44)%N then
              match p2 with
              | e :: p3 =>
                  if (e =? 125)%N then Some (Rep r lo None, skip_lazy p3)
                  else
                    '(hi, p4) ← read_number 0 false p2;
                    match p4 with
                    | f :: p5 =>
                        if (f =? 125)%N
                        then Some (Rep r lo (Some hi), skip_lazy p5)
                        else None
                    | [] => None
                    end
              | [] => None
              end
            else None
        | [] => None
        end
      else Some (r, p)
  | [] => Some (r, p)
  end.

(** An escape: [\b], [\s], [\d], or an escaped punctuation character. *)
Definition read_escape (c : char) : option regex :=
  if (c =? 98)%N then Some WordB
  else if (c =? 115)%N then Some (Atom ASpace)
  else if (c =? 100)%N then Some (Atom ADigit)
  else if is_digit c || is_upper c || is_lower c then None
  else Some (Atom (ALit c)).

(** A choice of sequences of quantified items; [fuel] bounds the nesting
    and the length.  Anchors and group extensions are not read. *)
Fixpoint read_alt (fuel : nat) (p : str) : option (regex * str) :=
  match fuel with
  | O => None
  | S fuel' =>
      '(r1, p1) ← read_seq fuel' p;
      match p1 with
      | c :: p2 =>
          if (c =? 124)%N then
            '(r2, p3) ← read_alt fuel' p2;
            Some (Alt r1 r2, p3)
          else Some (r1, p1)
      | [] => Some (r1, p1)
      end
  end
with read_seq (fuel : nat) (p : str) : option (regex * str) :=
  match fuel with
  | O => None
  | S fuel' =>
      match p with
      | [] => Some (Eps, p)
      | c :: p' =>
          if (c =? 124)%N || (c =? 41)%N then Some (Eps, p)
          else
            '(item, p1) ←
              (if (c =? 40)%N then
                 '(r, p2) ← read_alt fuel' p';
                 match p2 with
                 | d :: p3 => if (d =? 41)%N then Some (r, p3) else None
                 | [] => None
                 end
               else if (c =? 91)%N then
                 match p' with
                 | d :: p2 =>
                     if (d =? 94)%N then
                       '(members, p3) ← read_set [] p2;
                       Some (Atom (ASet true members), p3)
                     else
                       '(members, p3) ← read_set [] p';
                       Some (Atom (ASet false members), p3)
                 | [] => None
                 end
               else if (c =? 92)%N then
                 match p' with
                 | d :: p2 => r ← read_escape d; Some (r, p2)
                 | [] => None
                 end
               else if (c =? 46)%N then Some (Atom AAny, p')
               else if (c =? 42)%N || (c =? 43)%N || (c =? 63)%N
                       || (c =? 94)%N || (c =? 36)%N then None
               else Some (Atom (ALit c), p'));
            '(item, p2) ← read_quantifier item p1;
            '(rest, p3) ← read_seq fuel' p2;
            Some (Cat item rest, p3)
      end
  end.

(** [re.compile(pattern, re.IGNORECASE)]; [None] stands for [re.error]
    and for a construct outside the ones above. *)
Definition compile (pattern : string) : option regex :=
  let p := lit pattern in
  match read_alt (2 * length p + 2) p with
  | Some (r, []) => Some r
  | _ => None
  end.

(** Tables for text that stays in ASCII. *)
Definition ascii_tables : Tables :=
  {| uni_isalnum := λ _, false; uni_isdecimal := λ _, false |}.

End PyRe.

(* ===================================================================== *)
(** * core/rules.py and core/detector.py *)
(* ===================================================================== *)

Module Detector.
Import SeverityMap.

(** [DETECTION_RULES]: rule names and the source text of their patterns,
    in the order of the [OrderedDict]. *)
Definition DETECTION_RULES : list (list N * string) :=
  [ (lit "SQL Injection",
     "(\bunion\s+select\b|\bselect\s+\*\b|\bdrop\s+table\b|\binsert\s+into\b|--|\bor\b\s+.+?=.+?)"%string);
    (lit "SQLi - Tautology / OR 1=1",
     "(\bor\b\s*1\s*=\s*1|'?\s*or\s*'?\s*1'\s*=\s*'1|\bunion\b.*\bselect\b)"%string);
    (lit "Command Injection / Shell",
     "(\|\||&&|`|\$\(|\b(cmd|exec|system)\s*=|\bwget\b|\bcurl\b)"%string);
    (lit "XSS",
     "(<script\b|javascript:|onerror\s*=|onload\s*=)"%string);
    (lit "XSS - Advanced Payloads",
     "(<svg\b|<iframe\b|document\.cookie|window\.location)"%string);
    (lit "IDOR / Object Access Violation",
     "(/api/[^ ]*/\d+|\b(id|user|account)\s*=\s*\d+)"%string);
    (lit "Unauthorized Admin Access",
     "(/admin\b|/wp-admin\b|/manager/html)"%string);
    (lit "Failed Login",
     "(failed\s+login|invalid\s+password|authentication\s+failure|\b401\b)"%string);
    (lit "Credential Stuffing Probe",
     "(\b(username|login|user)\b.{1,80}\b(password|pass|pwd)\b)"%string);
    (lit "Brute Force Attempt",
     "(login).*?\b(401|403)\b"%string);
    (lit "Sensitive File Access",
     "(/etc/passwd|/etc/shadow|\.env\b|\.git/|config\.php|web\.config)"%string);
    (lit "Debug / Error Exposure",
     "(stack\s+trace|exception|traceback|fatal\s+error)"%string);
    (lit "Plaintext Credential Exposure",
     "(password\s*=|passwd\s*=|secret\s*=|api[_-]?key\s*=)"%string);
    (lit "Weak Crypto Indicator",
     "\b(md5|sha1|des|rc4)\b"%string);
    (lit "Sensitive Data Over HTTP",
     "(http://).*?(token|password|session)"%string);
    (lit "Serialized Object Detected (Java)",
     "(rO0AB|java\.io\.ObjectInputStream)"%string);
    (lit "Serialized Object Detected (Python)",
     "(pickle\.loads|__reduce__)"%string);
    (lit "Serialized Object Detected (.NET)",
     "(BinaryFormatter|ObjectStateFormatter)"%string);
    (lit "SSRF / Internal Resource Access",
     "(http://(127\.0\.0\.1|localhost|169\.254\.169\.254|0\.0\.0\.0))"%string);
    (lit "Malicious Package Download",
     "(pip\s+install|npm\s+install|curl|wget).*?(github\.com|raw\.githubusercontent\.com)"%string);
    (lit "CI/CD Script Execution",
     "(bash\s+-c|powershell\s+-enc|sh\s+-c)"%string);
    (lit "Unexpected Build Dependency Fetch",
     "(package\.json|requirements\.txt).*?(http|https)"%string);
    (lit "API Rate Abuse / Resource Exhaustion",
     "(/api/).*?\b(429|too\s+many\s+requests)\b"%string);
    (lit "Excessive Data Exposure",
     "\?.{300,}"%string);
    (lit "Repeated Error Without Alerting",
     "\b(500|502|503|504)\b"%string);
    (lit "Unhandled Exception Exposure",
     "\b(NullPointerException|IndexError|KeyError|ValueError)\b"%string) ].

(** Python's [re]: [re_search pattern text] tells whether
    [re.compile(pattern, re.IGNORECASE).search(text)] finds a match. *)
Class Regex := {
  re_search : string -> list N -> bool
}.

(** The injected reputation engine: absent, or an object whose
    [is_malicious] returns a truth value or raises. *)
Abbreviation ioc_engine_t := (option (list N -> outcome bool)) (only parsing).

(** The reputation engine of intelligence/ioc_loader.py, as injected. *)
Definition ioc_engine_of (e : IOC.Engine) : list N -> outcome bool :=
  λ ip, Returned (IOC.is_malicious e ip).

(** The [escalation] dict of [_escalate_severity]. *)
Definition escalation : list (list N * list N) :=
  [ (lit "Low", lit "Medium");
    (lit "Medium", lit "High");
    (lit "High", lit "Critical");
    (lit "Critical", lit "Critical") ].

(** [d.get(key, default)] on a dict given by its items. *)
Fixpoint dict_get (d : list (list N * list N)) (key default : str) : str :=
  match d with
  | [] => default
  | (k, v) :: rest => if eqb k key then v else dict_get rest key default
  end.

(** [_escalate_severity] *)
Definition _escalate_severity (severity : str) (ioc_hit : bool) : str :=
  if negb ioc_hit || negb (bool_decide (severity ∈ SEVERITY_LEVELS))
  then severity
  else dict_get escalation severity severity.

(** [a or b] where [a] may be missing ([None]) or empty. *)
Definition or_opt (a : option str) (b : option str) : option str :=
  match a with
  | Some s => if truthy s then a else b
  | None => b
  end.

Section Engine.
Context `{Regex}.

(** The text the rules see:
    [entry.get("normalized_request") or entry.get("message") or ""]. *)
Definition payload_of (entry : gmap string (list N)) : str :=
  default []
    (or_opt (or_opt (entry !! "normalized_request"%string)
                    (entry !! "message"%string))
            (Some [])).

(** [entry.get("raw") or entry.get("original") or entry.get("message", "")] *)
Definition raw_of (entry : gmap string (list N)) : str :=
  default []
    (or_opt (or_opt (entry !! "raw"%string) (entry !! "original"%string))
            (Some (default [] (entry !! "message"%string)))).

(** The reputation check with its guard and its [try]/[except]. *)
Definition ioc_check (ioc_engine : ioc_engine_t) (ip : str) : bool :=
  match ioc_engine with
  | Some is_malicious =>
      if truthy ip && negb (eqb ip (lit "UNKNOWN")) then
        match is_malicious ip with
        | Returned b => b
        | Raised => false
        end
      else false
  | None => false
  end.

(** The detection appended for a rule that matched. *)
Definition rule_detection (rule_name payload ip timestamp raw : str)
    (ioc_hit : bool) : Detection :=
  let base_severity := get_severity rule_name in
  let severity := _escalate_severity base_severity ioc_hit in
  {| Det.rule := Some rule_name;
     Det.severity := Some severity;
     Det.ip := Some ip;
     Det.time := Some timestamp;
     Det.payload := Some payload;
     Det.raw := Some raw;
     Det.ioc_hit := Some ioc_hit |}.

(** The rule loop of [analyze_entry]: [seen_rules] holds the names that
    matched so far. *)
Fixpoint match_rules (rules : list (list N * string)) (seen_rules : list str)
    (payload ip timestamp raw : str) (ioc_hit : bool) : list Detection :=
  match rules with
  | [] => []
  | (rule_name, pattern) :: rest =>
      if bool_decide (rule_name ∈ seen_rules) then
        match_rules rest seen_rules payload ip timestamp raw ioc_hit
      else if re_search pattern payload then
        rule_detection rule_name payload ip timestamp raw ioc_hit
        :: match_rules rest (rule_name :: seen_rules)
                       payload ip timestamp raw ioc_hit
      else match_rules rest seen_rules payload ip timestamp raw ioc_hit
  end.

(** The synthetic detection of a reputation hit without a rule match. *)
Definition ioc_only (ip timestamp raw : str) : Detection :=
  {| Det.rule := Some (lit "Threat Intelligence Match");
     Det.severity := Some (lit "Critical");
     Det.ip := Some ip;
     Det.time := Some timestamp;
     Det.payload := Some (lit "N/A (IP Reputation Match)");
     Det.raw := Some raw;
     Det.ioc_hit := Some true |}.

(** [analyze_entry] *)
Definition analyze_entry (ioc_engine : ioc_engine_t)
    (entry : gmap string (list N)) : list Detection :=
  let payload := payload_of entry in
  let ip := default (lit "UNKNOWN") (entry !! "ip"%string) in
  let timestamp := default (lit "UNKNOWN") (entry !! "time"%string) in
  let raw := raw_of entry in
  let ioc_hit := ioc_check ioc_engine ip in
  let detections :=
    match_rules DETECTION_RULES [] payload ip timestamp raw ioc_hit in
  if ioc_hit && negb (nonempty detections)
  then detections ++ [ioc_only ip timestamp raw]
  else detections.

(** [analyze_batch] *)
Definition analyze_batch (ioc_engine : ioc_engine_t)
    (entries : list (gmap string (list N))) : list Detection :=
  flat_map (analyze_entry ioc_engine) entries.

End Engine.

(** Python's [re] as the engine: a pattern that does not compile
    matches nothing here (in Python the engine is not even built). *)
Definition py_re `{PyRe.Tables} : Regex :=
  {| re_search := λ pattern text,
       match PyRe.compile pattern with
       | Some r => PyRe.search r text
       | None => false
       end |}.

(** A reputation engine that knows one address. *)
Definition one_bad_address : IOC.Engine :=
  {| IOC.iocs := {[ lit "203.0.113.9" ]}; IOC.last_updated := Qc_of_Z 0;
     IOC.fetched := []; IOC.cache_file := None |}.

(** A normalized entry with the given address and request. *)
Definition entry_of (ip request : str) : gmap string (list N) :=
  <[ "ip"%string := ip ]>
    (<[ "time"%string := lit "10/Oct/2000:13:55:36 -0700" ]>
       (<[ "normalized_request"%string := request ]>
          (<[ "raw"%string := request ]> ∅))).

End Detector.

(* ===================================================================== *)
(** * response/alerting.py *)
(* ===================================================================== *)

Module Alerting.

(** What delivering a message does: [smtp_raises now detections] tells
    whether building or sending the message for the batch raises. *)
Class Smtp := {
  smtp_raises : Z -> list Detection -> bool
}.

(** The alert manager: the master switch, whether [EMAIL_CONFIG] is
    complete, the reading of [utcnow()] (microseconds) at which the rate
    limit last let a batch through, the batches it let through with those
    readings, and the batches delivered (both oldest first). *)
Record AlertManager := {
  enabled : bool;
  _config_valid : bool;
  _last_sent : option Z;
  passed : list (Z * list Detection);
  delivered : list (list Detection)
}.

(** [timedelta(seconds=30)] in microseconds. *)
Definition _cooldown : Z := 30 * 1000000.

(** [__init__], given [FEATURES] and whether the four entries of
    [EMAIL_CONFIG] are all set. *)
Definition new (features : Features) (config_valid : bool) : AlertManager :=
  {| enabled := default false (EMAIL_ALERTS features);
     _config_valid := config_valid;
     _last_sent := None;
     passed := [];
     delivered := [] |}.

(** [priority.get(s, 1)] *)
Definition priority (s : str) : Z :=
  if eqb s (lit "Critical") then 4
  else if eqb s (lit "High") then 3
  else if eqb s (lit "Medium") then 2
  else 1.

(** [_highest_severity]: [max] with a key keeps the first of the largest
    items, and answers the default on an empty sequence. *)
Definition _highest_severity (detections : list Detection) : str :=
  match map (λ d, default (lit "Low") (Det.severity d)) detections with
  | [] => lit "Low"
  | first :: rest =>
      fold_left (λ best s, if (priority best <? priority s)%Z then s else best)
                rest first
  end.

(** [_send_batch_safe], the body of the thread: the rate limit under the
    lock, then the message; an exception is logged and dropped.  [now] is
    the reading of [utcnow()] under the lock. *)
Definition _send_batch_safe `{Smtp} (now : Z) (m : AlertManager)
    (detections : list Detection) : AlertManager :=
  let go :=
    {| enabled := enabled m;
       _config_valid := _config_valid m;
       _last_sent := Some now;
       passed := passed m ++ [(now, detections)];
       delivered :=
         if smtp_raises now detections then delivered m
         else delivered m ++ [detections] |} in
  match _last_sent m with
  | Some last => if (now - last <? _cooldown)%Z then m else go
  | None => go
  end.

(** [send_batch_alerts]; the thread it starts runs [_send_batch_safe],
    whose locked section reads the clock as [now]. *)
Definition send_batch_alerts `{Smtp} (now : Z) (m : AlertManager)
    (detections : list Detection) : AlertManager :=
  if negb (enabled m) then m
  else if negb (_config_valid m) then m
  else if negb (nonempty detections) then m
  else _send_batch_safe now m detections.

(** [send_alert] *)
Definition send_alert `{Smtp} (now : Z) (m : AlertManager) (d : Detection)
  : AlertManager :=
  if Det.truthy d then send_batch_alerts now m [d] else m.

(** A sequence of [send_batch_alerts] calls, each with the clock reading
    of its thread. *)
Definition send_all `{Smtp} (batches : list (Z * list Detection))
    (m : AlertManager) : AlertManager :=
  fold_left (λ m b, send_batch_alerts b.1 m b.2) batches m.

(** The batches let through are spaced by the cool-down, and the last
    of them is the one [_last_sent] remembers. *)
Definition spaced (m : AlertManager) : Prop :=
  StronglySorted (λ a b : Z * list Detection, (_cooldown ≤ b.1 - a.1)%Z)
                 (passed m)
  ∧ match _last_sent m with
    | None => passed m = []
    | Some last => ∃ earlier b, passed m = earlier ++ [(last, b)]
    end.

End Alerting.

(* ===================================================================== *)
(** * core/parser.py *)
(* ===================================================================== *)

Module Parser.

(** The named groups of a match of [APACHE_COMBINED_PATTERN]. *)
Record ApacheMatch := {
  group_time : str;
  group_ip : str;
  group_request : str;
  group_status : str
}.

(** The three compiled patterns: [search] on a line gives the groups of
    the first match, [group(0)] for the two generic patterns, or
    nothing. *)
Class Patterns := {
  APACHE_COMBINED_PATTERN : list N -> option ApacheMatch;
  IP_PATTERN : list N -> option (list N);
  TIME_PATTERN : list N -> option (list N)
}.

(** [parse_log_line] on a string. *)
Definition parse_log_line `{Patterns} (line : str) : gmap string (list N) :=
  if negb (truthy line) then ∅
  else
    let line := strip line in
    match APACHE_COMBINED_PATTERN line with
    | Some m =>
        <[ "time"%string := group_time m ]>
          (<[ "ip"%string := group_ip m ]>
             (<[ "request"%string := group_request m ]>
                (<[ "status"%string := group_status m ]>
                   (<[ "raw"%string := line ]> ∅))))
    | None =>
        let ip_match := IP_PATTERN line in
        let time_match := TIME_PATTERN line in
        <[ "time"%string := default (lit "UNKNOWN") time_match ]>
          (<[ "ip"%string := default (lit "UNKNOWN") ip_match ]>
             (<[ "request"%string := take 200 line ]>
                (<[ "status"%string := lit "UNKNOWN" ]>
                   (<[ "raw"%string := line ]> ∅))))
    end.

(** Patterns that find nothing, as on a line without digits. *)
Definition no_match : Patterns :=
  {| APACHE_COMBINED_PATTERN := λ _, None;
     IP_PATTERN := λ _, None;
     TIME_PATTERN := λ _, None |}.

End Parser.

(* ===================================================================== *)
(** * intelligence/ioc_loader.py: building the engine *)
(* ===================================================================== *)

Module IOCStartup.
Import IOC.

(** The cache artifact as [_load_from_cache] finds it: missing; holding
    a JSON object whose ["iocs"], when present, is a list of strings and
    whose ["last_updated"], when present, is a number; or anything on
    which the [try] block raises. *)
Inductive CacheArtifact :=
| Missing
| Parsed (cached_iocs : option (list (list N))) (cached_stamp : option Qc)
| Invalid.

(** [_load_from_cache] *)
Definition _load_from_cache (artifact : CacheArtifact) (e : Engine) : Engine :=
  match artifact with
  | Missing => e
  | Parsed cached_iocs cached_stamp =>
      {| iocs := list_to_set (default [] cached_iocs);
         last_updated := default (Qc_of_Z 0) cached_stamp;
         fetched := fetched e;
         cache_file := cache_file e |}
  | Invalid =>
      {| iocs := ∅;
         last_updated := Qc_of_Z 0;
         fetched := fetched e;
         cache_file := cache_file e |}
  end.

(** [_safe_update_once]: an exception of [update_iocs] is logged and
    dropped. *)
Definition _safe_update_once `{Environment} (now : Qc) (e : Engine) : Engine :=
  (update_iocs now e).2.

(** [IOCEngine.__init__]; [now] is the reading of [time.time()] an
    update would take. *)
Definition init `{Environment} (artifact : CacheArtifact) (now : Qc) : Engine :=
  let e := _load_from_cache artifact
             {| iocs := ∅; last_updated := Qc_of_Z 0;
                fetched := []; cache_file := None |} in
  if bool_decide (iocs e = ∅) then _safe_update_once now e else e.

(** A feed that serves two addresses, with a cache that cannot be
    written. *)
Definition feed_up_disk_full : Environment :=
  {| requests_get := λ _ _,
       Some (lit "203.0.113.9" ++ [10%N] ++ lit "198.51.100.4" ++ [10%N]);
     save_raises := λ _ _, true |}.

(** A member of the reputation set as a feed line gives it: stripped,
    not empty, not a comment. *)
Definition clean (x : str) : Prop :=
  x ≠ [] ∧ startswith x (lit "#") = false ∧ strip x = x.

End IOCStartup.

(* ===================================================================== *)
(** * response/responder.py: the calls a detection leads to *)
(* ===================================================================== *)

Module ResponderTrace.
Import Responder.

(** The calls of the firewall step of [handle_detection] in the world
    [w]: [block_ip] when the policy asks for it, then the signal when
    [block_ip] returned. *)
Definition block_calls `{Collaborators World} (policy : AutoBlock) (w : World)
    (severity ip rule : str) (ioc_hit : bool) : list Event :=
  if default false (ENABLED policy)
     && (if default true (REQUIRE_IOC policy)
         then eqb severity (lit "Critical") && ioc_hit
         else eqb severity (lit "Critical"))
     && truthy ip && negb (eqb ip (lit "UNKNOWN"))
  then BlockIp ip rule ioc_hit
       :: match (firewall_block_ip w ip rule ioc_hit).1 with
          | Returned _ => [IpBlocked]
          | Raised => []
          end
  else [].

(** The calls of the email step. *)
Definition email_calls (features : Features) (severity : str)
    (d : Detection) : list Event :=
  if default false (EMAIL_ALERTS features)
     && (default false (EMAIL_ALL_DETECTIONS features)
         || eqb severity (lit "High") || eqb severity (lit "Critical"))
  then [SendAlert d] else [].

(** Whether a call is [reporter.generate]. *)
Definition is_generate (ev : Event) : bool :=
  match ev with Generate _ => true | _ => false end.

(** Whether a call is [alerter.send_alert]. *)
Definition is_send_alert (ev : Event) : bool :=
  match ev with SendAlert _ => true | _ => false end.

(** Whether a call returned. *)
Definition returned {A} (o : outcome A) : bool :=
  match o with Returned _ => true | Raised => false end.

(** Collaborators that all return, over a world with nothing in it;
    the firewall answers [False]. *)
Definition all_return : Collaborators unit :=
  {| firewall_block_ip := λ w _ _ _, (Returned false, w);
     ip_blocked_emit := λ w, (Returned tt, w);
     alerter_send_alert := λ w _, (Returned tt, w);
     reporter_generate := λ w _, (Returned tt, w) |}.

End ResponderTrace.

(* ===================================================================== *)
(** * core/correlation.py: what the statements below speak of *)
(* ===================================================================== *)

Module CorrelationSpec.
Import Correlation.

(** The key [correlate] groups by: [d.get("ip", "UNKNOWN")]. *)
Definition ip_key (d : Detection) : str :=
  default (lit "UNKNOWN") (Det.ip d).

(** The groups are those of [ds]: their keys differ, each group holds, in
    order, the detections of [ds] with its key, and is not empty; every
    detection has its group. *)
Definition grouped (groups : list (list N * list Detection))
    (ds : list Detection) : Prop :=
  NoDup (groups.*1)
  ∧ (∀ k g, (k, g) ∈ groups →
       g ≠ [] ∧ g = List.filter (λ d, eqb (ip_key d) k) ds)
  ∧ (∀ d, d ∈ ds → ip_key d ∈ groups.*1).

(** [a] does not come after [b] in the order of the time strings. *)
Definition time_le (a b : Detection) : Prop :=
  ltb (time_key b) (time_key a) = false.

End CorrelationSpec.

(* ===================================================================== *)
(** * core/normalizer.py: what the statements below speak of *)
(* ===================================================================== *)

Module NormalizerSpec.

(** A printable ASCII character that is not a capital letter. *)
Definition small_printable (c : char) : bool :=
  ((32 <=? c) && (c <=? 126) && negb ((65 <=? c) && (c <=? 90)))%N.

(** Such a character that is none of "%", "+" and "&", the characters
    the decoders act on. *)
Definition plain (c : char) : bool :=
  (small_printable c && negb (c =? 37) && negb (c =? 43) && negb (c =? 38))%N.

(** The library never lower-cases a character from 128 on to an ASCII
    control character or capital letter. *)
Definition lower_stays_small `{Normalizer.Unicode} : Prop :=
  ∀ s i c0, s !! i = Some c0 → (128 <= c0)%N →
    Forall (λ c, (c < 128)%N → small_printable c = true)
           (Normalizer.uni_lower_at s i).

End NormalizerSpec.

(* ===================================================================== *)
(** * analytics/stats.py *)
(* ===================================================================== *)

Module Stats.

(** What [str.capitalize] and [str.upper] give on a string that holds a
    character from 128 on. *)
Class Casing := {
  uni_capitalize : list N -> list N;
  uni_upper : list N -> list N
}.

Definition is_ascii (s : str) : bool := forallb (λ c, c <? 128)%N s.

Definition ascii_upper (c : char) : char :=
  if (97 <=? c)%N && (c <=? 122)%N then (c - 32)%N else c.

Definition ascii_lower (c : char) : char :=
  if (65 <=? c)%N && (c <=? 90)%N then (c + 32)%N else c.

(** [s.capitalize()]: the first character in upper case, the others in
    lower case. *)
Definition capitalize `{Casing} (s : str) : str :=
  if is_ascii s then
    match s with
    | [] => []
    | c :: rest => ascii_upper c :: map ascii_lower rest
    end
  else uni_capitalize s.

(** [s.upper()] *)
Definition upper `{Casing} (s : str) : str :=
  if is_ascii s then map ascii_upper s else uni_upper s.

Definition VALID_SEVERITIES : list str :=
  [lit "Critical"; lit "High"; lit "Medium"; lit "Low"].

(** A [Counter]: its items in the order of first insertion. *)
Abbreviation counter := (list (list N * nat)) (only parsing).

(** [counter[key] += 1] *)
Fixpoint incr (c : counter) (key : str) : counter :=
  match c with
  | [] => [(key, 1)]
  | (k, n) :: rest =>
      if eqb k key then (k, S n) :: rest else (k, n) :: incr rest key
  end.

(** The body of the loop of [severity_counts]. *)
Definition severity_step `{Casing} (c : counter) (d : Detection) : counter :=
  match Det.severity d with
  | None => c
  | Some severity =>
      let severity := capitalize (strip severity) in
      if bool_decide (severity ∈ VALID_SEVERITIES)
      then incr c severity
      else c
  end.

(** [severity_counts] on a list of detections; the result is the dict
    by its items. *)
Definition severity_counts `{Casing} (detections : list Detection) : counter :=
  fold_left severity_step detections [].

(** [sorted(items, key=itemgetter(1), reverse=True)]: stable, the larger
    counts first. *)
Fixpoint insert_by_count (x : list N * nat) (sorted : counter) : counter :=
  match sorted with
  | [] => [x]
  | y :: rest =>
      if x.2 <? y.2 then y :: insert_by_count x rest
      else x :: y :: rest
  end.

Definition sort_by_count (items : counter) : counter :=
  foldr insert_by_count [] items.

(** [Counter.most_common(n)] for an integer [n]: the first [n] items of
    the sorted list, none when [n] is not positive. *)
Definition most_common (c : counter) (n : Z) : counter :=
  take (Z.to_nat n) (sort_by_count c).

(** Whether [top_offender_ips] passes over a stripped address: it is
    empty or reads "UNKNOWN" in upper case. *)
Definition skipped `{Casing} (ip : str) : bool :=
  negb (truthy ip) || eqb (upper ip) (lit "UNKNOWN").

(** The body of the loop of [top_offender_ips]. *)
Definition offender_step `{Casing} (c : counter) (d : Detection) : counter :=
  match Det.ip d with
  | None => c
  | Some ip =>
      let ip := strip ip in
      if skipped ip then c else incr c ip
  end.

(** [top_offender_ips]; each item of the result is the pair of the
    ["ip"] and the ["count"] of one dict. *)
Definition top_offender_ips `{Casing} (detections : list Detection) (limit : Z)
  : counter :=
  most_common (fold_left offender_step detections []) limit.

(** The body of the loop of [incident_summary]. *)
Definition summary_step (c : counter) (i : Correlation.Incident) : counter :=
  let incident_type := strip (Correlation.type i) in
  if truthy incident_type then incr c incident_type else c.

(** [incident_summary] on the incidents of the correlation engine. *)
Definition incident_summary (incidents : list Correlation.Incident) : counter :=
  fold_left summary_step incidents [].

(** How many detections of [ds] carry the address [ip], surrounding
    white space aside. *)
Definition offences (ip : str) (ds : list Detection) : nat :=
  length (List.filter (λ d, bool_decide (strip <$> Det.ip d = Some ip)) ds).

(** The counter of [top_offender_ips] after the detections [ds]: one
    item for each address that is not passed over and occurs in [ds],
    with the number of its occurrences. *)
Definition tally `{Casing} (c : counter) (ds : list Detection) : Prop :=
  NoDup (c.*1)
  ∧ ∀ ip n, (ip, n) ∈ c
            ↔ skipped ip = false ∧ n = offences ip ds ∧ 1 ≤ n.

(** The sum of the counts of a counter. *)
Definition total (c : counter) : nat := sum_list (c.*2).

(** A counter of severities after [seen] detections: its keys are
    pairwise different severities of the valid set, each count is at
    least one, and the counts add up to at most [seen]. *)
Definition counts_ok (c : counter) (seen : nat) : Prop :=
  NoDup (c.*1)
  ∧ Forall (λ k, k ∈ VALID_SEVERITIES) (c.*1)
  ∧ Forall (λ kn : list N * nat, 1 ≤ kn.2) c
  ∧ total c ≤ seen.

End Stats.

(* ===================================================================== *)
(** * frontend/views/log_viewer_view.py: the two workers *)
(* ===================================================================== *)

Module LogViewer.

(** [LogLoaderWorker.run]: each line of the file is parsed, then
    normalized. *)
Definition load_entries `{Parser.Patterns} `{Normalizer.Unicode}
    (lines : list str) : list (gmap string (list N)) :=
  map (λ line, Normalizer.normalize_log_entry (Parser.parse_log_line line))
      lines.

Abbreviation seen_key := (list N * list N * list N)%type (only parsing).

(** The detection worker with the response engine it drives: the keys
    seen, the detections kept (oldest first), the engine, and the number
    of clock readings the engine made. *)
Record Worker (World : Type) := {
  _seen : gset (list N * list N * list N);
  detections : list Detection;
  responder : Responder.Engine World;
  readings : nat
}.
Arguments _seen {World} w.
Arguments detections {World} w.
Arguments responder {World} w.
Arguments readings {World} w.

(** [self.responder._pdf_generated_for_run = False] *)
Definition reset_latch {World : Type} (e : Responder.Engine World)
  : Responder.Engine World :=
  {| Responder._handled_incidents := Responder._handled_incidents e;
     Responder._pdf_generated_for_run := false;
     Responder.world := Responder.world e;
     Responder.calls := Responder.calls e |}.

Section DetectionWorker.
Context {World : Type} `{Responder.Collaborators World} `{Detector.Regex}.
Variable policy : AutoBlock.
Variable features : Features.
(** [utcnow n] is the reading of the [n]-th call of [datetime.utcnow()]
    the response engine makes. *)
Variable utcnow : nat -> Z.
Variable ioc_engine : option (list N -> outcome bool).

(** The body of the inner loop of [DetectionWorker.run]; [None] is the
    [KeyError] of [d["severity"]], [d["rule"]] or [d["ip"]]. *)
Definition handle_one (w : Worker World) (d : Detection)
  : option (Worker World) :=
  match Det.severity d, Det.rule d, Det.ip d with
  | Some severity, Some rule, Some ip =>
      let key := (severity, rule, ip) in
      if bool_decide (key ∈ _seen w) then Some w
      else
        Some {| _seen := {[ key ]} ∪ _seen w;
                detections := detections w ++ [d];
                responder :=
                  Responder.handle_detection policy features
                    (utcnow (readings w)) (responder w) d;
                readings := S (readings w) |}
  | _, _, _ => None
  end.

(** The inner loop, over the detections of one entry. *)
Fixpoint handle_each (w : Worker World) (ds : list Detection)
  : option (Worker World) :=
  match ds with
  | [] => Some w
  | d :: rest =>
      match handle_one w d with
      | Some w' => handle_each w' rest
      | None => None
      end
  end.

(** [DetectionWorker.run]: the outer loop over the entries. *)
Fixpoint run (w : Worker World) (entries : list (gmap string (list N)))
  : option (Worker World) :=
  match entries with
  | [] => Some w
  | entry :: rest =>
      match handle_each w (Detector.analyze_entry ioc_engine entry) with
      | Some w' => run w' rest
      | None => None
      end
  end.

(** [LogViewer.run_detection] up to the end of the worker it starts:
    without parsed logs nothing happens; otherwise the report latch is
    reset and a worker with nothing seen runs over the entries.  [n]
    counts the clock readings of the engine so far. *)
Definition run_detection (e : Responder.Engine World)
    (parsed_logs : list (gmap string (list N))) (n : nat)
  : option (Worker World) :=
  match parsed_logs with
  | [] => Some {| _seen := ∅; detections := []; responder := e; readings := n |}
  | _ =>
      run {| _seen := ∅;
             detections := [];
             responder := reset_latch e;
             readings := n |}
          parsed_logs
  end.

End DetectionWorker.

(** The key of a detection that has the three fields. *)
Definition worker_key (d : Detection) : list N * list N * list N :=
  (default [] (Det.severity d), default [] (Det.rule d), default [] (Det.ip d)).

(** The first detection of each key of [ds] that is not in [seen]. *)
Fixpoint kept (seen : gset (list N * list N * list N)) (ds : list Detection)
  : list Detection :=
  match ds with
  | [] => []
  | d :: rest =>
      if bool_decide (worker_key d ∈ seen) then kept seen rest
      else d :: kept ({[ worker_key d ]} ∪ seen) rest
  end.

(** [handle_detection] called for the detections of [ds] in turn, the
    first call reading the clock as [utcnow n], the next as
    [utcnow (n + 1)], and so on. *)
Fixpoint respond_all {World : Type} `{Responder.Collaborators World}
    (policy : AutoBlock) (features : Features) (utcnow : nat -> Z)
    (n : nat) (e : Responder.Engine World) (ds : list Detection)
  : Responder.Engine World :=
  match ds with
  | [] => e
  | d :: rest =>
      respond_all policy features utcnow (S n)
        (Responder.handle_detection policy features (utcnow n) e d) rest
  end.

(** Any two readings of the clock lie within the lifetime of a dedup
    entry. *)
Definition within_ttl (utcnow : nat -> Z) : Prop :=
  ∀ i j, (utcnow j - utcnow i ≤ Responder._dedup_ttl)%Z.

(** Every entry of the dedup table was stamped with a reading of the
    clock. *)
Definition stamped {World : Type} (utcnow : nat -> Z)
    (e : Responder.Engine World) : Prop :=
  ∀ k ts, Responder._handled_incidents e !! k = Some ts → ∃ i, ts = utcnow i.

(** A detection with the three fields of the key. *)
Definition keyed (d : Detection) : Prop :=
  is_Some (Det.severity d) ∧ is_Some (Det.rule d) ∧ is_Some (Det.ip d).

End LogViewer.

(* ===================================================================== *)
(** * Part II: properties *)
(* ===================================================================== *)

(** A decidable closed statement, settled by evaluation. *)
Ltac by_compute := apply (bool_decide_unpack _); vm_compute; exact I.

(** ** Strings *)

Lemma startswith_app (p s : list N) : startswith (p ++ s) p = true.
Proof.
  induction p as [|c p IH]; simpl; [done|].
  by rewrite N.eqb_refl, IH.
Qed.

Lemma startswith_prefix (s p : list N) :
  startswith s p = true ↔ ∃ t, s = p ++ t.
Proof.
  split.
  - revert s. induction p as [|c p IH]; intros s Hs; simpl in *.
    + by exists s.
    + destruct s as [|d s]; [done|].
      apply andb_true_iff in Hs as [Hc Hs]. apply N.eqb_eq in Hc as ->.
      destruct (IH _ Hs) as [t ->]. by exists t.
  - intros [t ->]. apply startswith_app.
Qed.

Lemma eqb_true (a b : list N) : eqb a b = true ↔ a = b.
Proof. unfold eqb. apply bool_decide_eq_true. Qed.

Lemma eqb_false (a b : list N) : eqb a b = false ↔ a ≠ b.
Proof. unfold eqb. apply bool_decide_eq_false. Qed.

(** ** config/severity_map.py *)

Section SeverityFacts.
Import SeverityMap.

Lemma table_values_are_levels :
  Forall (λ kv : list N * list N, kv.2 ∈ SEVERITY_LEVELS) THREAT_SEVERITY_ITEMS.
Proof.
  by_compute.
Qed.

(** [get_severity] always answers with one of the four levels. *)
Lemma get_severity_level (threat_name : list N) :
  get_severity threat_name ∈ SEVERITY_LEVELS.
Proof.
  unfold get_severity, THREAT_SEVERITY_MAP.
  destruct (list_to_map THREAT_SEVERITY_ITEMS !! strip threat_name)
    as [v|] eqn:E; simpl.
  - apply elem_of_list_to_map_2 in E.
    pose proof table_values_are_levels as HF.
    rewrite Forall_forall in HF. apply (HF _ E).
  - by_compute.
Qed.

End SeverityFacts.

(** ** response/firewall.py *)

Section FirewallFacts.
Import Firewall.
Context `{Subprocess}.

(** Spawning commands touches neither the audit file nor the OS name. *)
Lemma spawn_all_frame (cmds : list (list (list N))) (st : FwState) :
  ledger_file (spawn_all cmds st).2 = ledger_file st
  ∧ os_type (spawn_all cmds st).2 = os_type st.
Proof.
  revert st. induction cmds as [|cmd rest IH]; intros st; simpl; [done|].
  destruct (popen_raises (spawned st) cmd); [done|].
  destruct (IH {| os_type := os_type st; ledger_file := ledger_file st;
                  spawned := spawned st ++ [cmd] |}) as [-> ->]. done.
Qed.

Lemma spawn_all_history (cmds : list (list (list N))) (st : FwState) :
  _load_history (spawn_all cmds st).2 = _load_history st.
Proof.
  unfold _load_history. by destruct (spawn_all_frame cmds st) as [-> _].
Qed.

(** The guard on private addresses: nothing happens behind it. *)
Lemma block_ip_private policy now st ip reason ioc :
  _is_private_ip ip = true →
  block_ip policy now st ip reason ioc = (false, st).
Proof.
  intros Hp. unfold block_ip. rewrite Hp.
  repeat (case_match; try done).
Qed.

(** The guard on the ledger: a known address changes nothing. *)
Lemma block_ip_known policy now st ip reason ioc :
  is_Some (_load_history st !! ip) →
  block_ip policy now st ip reason ioc = (false, st).
Proof.
  intros Hk. unfold block_ip.
  rewrite (bool_decide_eq_true_2 _ Hk).
  repeat (case_match; try done).
Qed.

(** What a call can do to the ledger: leave it, or add the address of
    the call, which was not there, and answer [True]. *)
Lemma block_ip_ledger policy now st ip reason ioc :
  let '(r, st') := block_ip policy now st ip reason ioc in
  (r = false ∧ _load_history st' = _load_history st)
  ∨ (r = true ∧ _load_history st !! ip = None
     ∧ ∃ rec, _load_history st' = <[ ip := rec ]> (_load_history st)).
Proof.
  unfold block_ip.
  destruct (negb (default false (ENABLED policy))); [by left|].
  destruct (default true (REQUIRE_IOC policy) && negb ioc); [by left|].
  destruct (negb (truthy ip) || eqb ip (lit "UNKNOWN")); [by left|].
  destruct (_is_private_ip ip); [by left|].
  case_bool_decide as Hk; [by left|].
  assert (_load_history st !! ip = None) as Hnone.
  { destruct (_load_history st !! ip) eqn:E; [|done].
    exfalso. apply Hk. by eexists. }
  destruct (eqb (os_type st) (lit "Windows")).
  - unfold _block_windows.
    pose proof (spawn_all_history (windows_cmds ip (lit "SOC_BLOCK_" ++ ip)) st)
      as Hh.
    destruct (spawn_all _ st) as [[|] st'] eqn:E; simpl in Hh.
    + right. split; [done|]. split; [done|].
      eexists. unfold audit_log, _save_history, _load_history at 1. simpl.
      by rewrite Hh.
    + left. by rewrite Hh.
  - right. split; [done|]. split; [done|]. eexists. reflexivity.
Qed.

(** An entry of the ledger survives every call. *)
Lemma block_ip_keeps policy now st ip reason ioc ip0 r :
  _load_history st !! ip0 = Some r →
  _load_history (block_ip policy now st ip reason ioc).2 !! ip0 = Some r.
Proof.
  intros Hr.
  pose proof (block_ip_ledger policy now st ip reason ioc) as Hl.
  destruct (block_ip policy now st ip reason ioc) as [res st']. simpl.
  destruct Hl as [[_ ->]|(_ & Hnone & rec & ->)]; [done|].
  rewrite lookup_insert_ne; [done|]. congruence.
Qed.

(** After a call that answered [True], the address is in the ledger. *)
Lemma block_ip_true_recorded policy now st ip reason ioc :
  (block_ip policy now st ip reason ioc).1 = true →
  is_Some (_load_history (block_ip policy now st ip reason ioc).2 !! ip).
Proof.
  pose proof (block_ip_ledger policy now st ip reason ioc) as Hl.
  destruct (block_ip policy now st ip reason ioc) as [res st']. simpl.
  intros ->. destruct Hl as [[? _]|(_ & _ & rec & ->)]; [done|].
  rewrite lookup_insert_eq. by eexists.
Qed.

Lemma run_cons (c : Call) (rest : list Call) (st : FwState) :
  run (c :: rest) st =
  ((do_call st c).1 :: (run rest (do_call st c).2).1,
   (run rest (do_call st c).2).2).
Proof.
  simpl. destruct (do_call st c) as [r st1]. simpl.
  by destruct (run rest st1) as [rs st2].
Qed.

Lemma run_keeps calls st ip0 r :
  _load_history st !! ip0 = Some r →
  _load_history (run calls st).2 !! ip0 = Some r.
Proof.
  revert st. induction calls as [|c rest IH]; intros st Hr; [done|].
  rewrite run_cons. simpl. apply IH. unfold do_call. by apply block_ip_keeps.
Qed.

Lemma times_blocked_cons ip c rest r rs :
  times_blocked ip (c :: rest) (r :: rs) =
  (if r && eqb (call_ip c) ip then 1 else 0) + times_blocked ip rest rs.
Proof.
  unfold times_blocked. simpl. by destruct (r && eqb (call_ip c) ip).
Qed.

(** Once in the ledger, an address is never blocked again. *)
Lemma known_never_blocked calls st ip :
  is_Some (_load_history st !! ip) →
  times_blocked ip calls (run calls st).1 = 0.
Proof.
  revert st. induction calls as [|c rest IH]; intros st [r Hr]; [done|].
  rewrite run_cons. simpl. rewrite times_blocked_cons.
  rewrite IH.
  2:{ exists r. unfold do_call. by apply block_ip_keeps. }
  destruct (eqb (call_ip c) ip) eqn:E; [|by rewrite andb_false_r].
  apply eqb_true in E. unfold do_call. rewrite E.
  rewrite block_ip_known; [done|by exists r].
Qed.

Lemma blocked_at_most_once calls st ip :
  times_blocked ip calls (run calls st).1 ≤ 1.
Proof.
  revert st. induction calls as [|c rest IH]; intros st.
  - unfold times_blocked. simpl. lia.
  - rewrite run_cons. simpl. rewrite times_blocked_cons.
    destruct ((do_call st c).1 && eqb (call_ip c) ip) eqn:E.
    + apply andb_true_iff in E as [Hres Hip]. apply eqb_true in Hip.
      rewrite known_never_blocked; [lia|].
      rewrite <- Hip. by apply block_ip_true_recorded.
    + specialize (IH (do_call st c).2). lia.
Qed.

End FirewallFacts.

Section PrivateRanges.
Import Firewall.

(** The guard sees the first two octets and the dot after them. *)
Ltac first_octets :=
  unfold dotted;
  match goal with
  | |- context [octet ?c ++ lit "." ++ octet ?d] =>
      generalize (octet c ++ lit "." ++ octet d); intros tail
  end;
  vm_compute; reflexivity.

(** Where the prefix guard agrees with the ranges of the specification:
    everywhere but on 172.30.x.x and 172.31.x.x. *)
Lemma private_range_guarded (a b c d : N) :
  in_private_range a b = true →
  (a = 172%N → (b <= 29)%N) →
  _is_private_ip (dotted a b c d) = true.
Proof.
  intros Hin H172. unfold in_private_range in Hin.
  repeat (rewrite ?orb_true_iff, ?andb_true_iff in Hin).
  rewrite !N.eqb_eq, !N.leb_le in Hin.
  destruct Hin as [[[Ha|Ha]|[Ha Hb']]|[[Ha Hlo] Hhi]]; subst.
  - unfold dotted. generalize (octet b ++ lit "." ++ octet c ++ lit "." ++ octet d).
    intros tail. vm_compute. reflexivity.
  - unfold dotted. generalize (octet b ++ lit "." ++ octet c ++ lit "." ++ octet d).
    intros tail. vm_compute. reflexivity.
  - first_octets.
  - specialize (H172 eq_refl).
    assert (b = 16 ∨ b = 17 ∨ b = 18 ∨ b = 19 ∨ b = 20 ∨ b = 21 ∨ b = 22
            ∨ b = 23 ∨ b = 24 ∨ b = 25 ∨ b = 26 ∨ b = 27 ∨ b = 28 ∨ b = 29)%N
      as Hcases by lia.
    repeat (destruct Hcases as [->|Hcases]; [first_octets|]).
    subst. first_octets.
Qed.

Lemma private_172_30_31_unguarded (b c d : N) :
  b = 30%N ∨ b = 31%N →
  in_private_range 172 b = true ∧ _is_private_ip (dotted 172 b c d) = false.
Proof.
  intros [->| ->]; (split; [reflexivity|first_octets]).
Qed.

End PrivateRanges.

(** C1 (the code departs from the claim).  The claim: for every private
    or loopback address, [block_ip] enforces nothing and writes no ledger
    entry, whatever the policy.  The guard [_is_private_ip] misses
    172.30.0.0/16 and 172.31.0.0/16 of the range 172.16.0.0/12: with
    blocking enabled and a confirmed reputation hit, [block_ip] on
    "172.30.0.1" spawns both netsh commands on Windows, and on Windows
    as on Linux it writes the ledger entry and answers [True]. *)
Theorem C1_block_ip_misses_172_30 :
  let ip := lit "172.30.0.1" in
  let rule := lit "SOC_BLOCK_172.30.0.1" in
  let policy := {| ENABLED := Some true; REQUIRE_IOC := Some true |} in
  let fresh name :=
    {| Firewall.os_type := name;
       Firewall.ledger_file := Firewall.Readable ∅;
       Firewall.spawned := [] |} in
  Firewall.in_private_range 172 30 = true
  ∧ Firewall.dotted 172 30 0 1 = ip
  ∧ Firewall._is_private_ip ip = false
  ∧ (∀ now reason,
       @Firewall.block_ip Firewall.popen_works policy now
         (fresh (lit "Windows")) ip reason true
       = (true,
          {| Firewall.os_type := lit "Windows";
             Firewall.ledger_file :=
               Firewall.Readable
                 (<[ ip := {| Firewall.blocked_at := now;
                              Firewall.reason := reason;
                              Firewall.ioc_confirmed := true;
                              Firewall.os := lit "Windows";
                              Firewall.method := lit "netsh";
                              Firewall.rule_name := rule |} ]> ∅);
             Firewall.spawned := Firewall.windows_cmds ip rule |}))
  ∧ (∀ (env : Firewall.Subprocess) now reason,
       Firewall.block_ip policy now (fresh (lit "Linux")) ip reason true
       = (true,
          {| Firewall.os_type := lit "Linux";
             Firewall.ledger_file :=
               Firewall.Readable
                 (<[ ip := {| Firewall.blocked_at := now;
                              Firewall.reason := reason;
                              Firewall.ioc_confirmed := true;
                              Firewall.os := lit "Linux";
                              Firewall.method := lit "audit-only";
                              Firewall.rule_name := rule |} ]> ∅);
             Firewall.spawned := [] |})).
Proof.
  repeat split; vm_compute; reflexivity.
Qed.

(** C3.  For an address that is a key of the audit ledger, [block_ip]
    answers [False], spawns nothing and leaves the audit file as it is;
    in every sequential run of calls an entry of the ledger stays what it
    is, and no address is blocked (given a ledger entry) more than
    once. *)
Theorem C3_block_ip_at_most_once (env : Firewall.Subprocess) :
  (∀ policy now st ip reason ioc,
     is_Some (Firewall._load_history st !! ip) →
     Firewall.block_ip policy now st ip reason ioc = (false, st))
  ∧ (∀ calls st ip r,
       Firewall._load_history st !! ip = Some r →
       Firewall._load_history (Firewall.run calls st).2 !! ip = Some r)
  ∧ (∀ calls st ip,
       Firewall.times_blocked ip calls (Firewall.run calls st).1 ≤ 1)
  ∧ (∀ policy now st ip reason ioc,
       (Firewall.block_ip policy now st ip reason ioc).1 = true →
       Firewall._load_history st !! ip = None
       ∧ is_Some (Firewall._load_history
                    (Firewall.block_ip policy now st ip reason ioc).2 !! ip)).
Proof.
  split; [|split; [|split]].
  - intros. by apply block_ip_known.
  - intros. by apply run_keeps.
  - intros. apply blocked_at_most_once.
  - intros policy now st ip reason ioc Ht.
    split; [|by apply block_ip_true_recorded].
    pose proof (block_ip_ledger policy now st ip reason ioc) as Hl.
    destruct (Firewall.block_ip policy now st ip reason ioc) as [res st'].
    simpl in Ht. subst res. by destruct Hl as [[? _]|(_ & ? & _)].
Qed.

Lemma C3_block_ip_at_most_once_witness :
  let ip := lit "203.0.113.9" in
  let other := lit "198.51.100.4" in
  let rec0 :=
    {| Firewall.blocked_at := 0; Firewall.reason := lit "XSS";
       Firewall.ioc_confirmed := true; Firewall.os := lit "Windows";
       Firewall.method := lit "netsh";
       Firewall.rule_name := lit "SOC_BLOCK_203.0.113.9" |} in
  let st :=
    {| Firewall.os_type := lit "Windows";
       Firewall.ledger_file := Firewall.Readable (<[ ip := rec0 ]> ∅);
       Firewall.spawned := [] |} in
  let policy := {| ENABLED := Some true; REQUIRE_IOC := Some false |} in
  let call a :=
    {| Firewall.call_policy := policy; Firewall.call_now := 7;
       Firewall.call_ip := a; Firewall.call_reason := lit "SQL Injection";
       Firewall.call_ioc := false |} in
  (is_Some (Firewall._load_history st !! ip)
   ∧ @Firewall.block_ip Firewall.popen_works policy 7 st ip
       (lit "SQL Injection") false = (false, st))
  ∧ (Firewall._load_history st !! ip = Some rec0
     ∧ Firewall._load_history
         (@Firewall.run Firewall.popen_works [call other; call ip; call other]
            st).2 !! ip = Some rec0)
  ∧ ((@Firewall.block_ip Firewall.popen_works policy 7 st other
        (lit "SQL Injection") false).1 = true
     ∧ Firewall._load_history st !! other = None
     ∧ is_Some (Firewall._load_history
                  (@Firewall.block_ip Firewall.popen_works policy 7 st other
                     (lit "SQL Injection") false).2 !! other)).
Proof.
  intros ip other rec0 st policy call.
  pose proof (C3_block_ip_at_most_once Firewall.popen_works)
    as (Hknown & Hkeeps & _ & Hfresh).
  assert (Firewall._load_history st !! ip = Some rec0) as Hk
    by (vm_compute; reflexivity).
  assert ((@Firewall.block_ip Firewall.popen_works policy 7 st other
             (lit "SQL Injection") false).1 = true) as Ht
    by (vm_compute; reflexivity).
  split; [|split].
  - split; [by exists rec0|]. apply Hknown. by exists rec0.
  - split; [exact Hk|]. by apply Hkeeps.
  - split; [exact Ht|]. by apply Hfresh.
Defined.

(** ** response/responder.py *)

Section ResponderFacts.
Import Responder.
Context {World : Type} `{Collaborators World}.

Lemma cleanup_lookup_Some now handled (k : list N * list N * list N) ts :
  _cleanup_old_incidents now handled !! k = Some ts
  ↔ handled !! k = Some ts ∧ (now - ts ≤ _dedup_ttl)%Z.
Proof.
  unfold _cleanup_old_incidents. rewrite map_lookup_filter_Some. simpl.
  split; intros [? ?]; (split; [done|lia]).
Qed.

(** The response steps never touch the dedup table. *)
Lemma firewall_step_handled policy (e : Engine World) severity ip rule ioc_hit :
  _handled_incidents (firewall_step policy e severity ip rule ioc_hit)
  = _handled_incidents e.
Proof.
  unfold firewall_step, _handle_firewall.
  repeat (case_match; simplify_eq; simpl; try done).
Qed.

Lemma handle_email_handled features (e : Engine World) severity d :
  _handled_incidents (_handle_email features e severity d)
  = _handled_incidents e.
Proof.
  unfold _handle_email. repeat (case_match; simplify_eq; simpl; try done).
Qed.

Lemma report_step_handled (e : Engine World) d :
  _handled_incidents (report_step e d) = _handled_incidents e.
Proof.
  unfold report_step. repeat (case_match; simplify_eq; simpl; try done).
Qed.

Lemma response_steps_handled policy features (e : Engine World) d
    severity ip rule ioc_hit :
  _handled_incidents
    (response_steps policy features e d severity ip rule ioc_hit)
  = _handled_incidents e.
Proof.
  unfold response_steps.
  by rewrite report_step_handled, handle_email_handled, firewall_step_handled.
Qed.

(** A detection whose key is alive in the table is suppressed: only the
    eviction of old entries happens. *)
Lemma handle_detection_suppressed policy features now (e : Engine World) d ts :
  _handled_incidents e !! key_of d = Some ts →
  (now - ts ≤ _dedup_ttl)%Z →
  calls (handle_detection policy features now e d) = calls e
  ∧ world (handle_detection policy features now e d) = world e
  ∧ _pdf_generated_for_run (handle_detection policy features now e d)
    = _pdf_generated_for_run e
  ∧ _handled_incidents (handle_detection policy features now e d) !! key_of d
    = Some ts.
Proof.
  intros Hk Hage. unfold handle_detection.
  destruct (negb (Det.truthy d)); [done|].
  fold (key_of d).
  assert (_cleanup_old_incidents now (_handled_incidents e) !! key_of d
          = Some ts) as Hc by (by apply cleanup_lookup_Some).
  rewrite bool_decide_eq_true_2 by (by exists ts). done.
Qed.

(** A detection whose key is not alive in the table is recorded first and
    then taken through the response steps. *)
Lemma handle_detection_fresh policy features now (e : Engine World) d :
  Det.truthy d = true →
  _cleanup_old_incidents now (_handled_incidents e) !! key_of d = None →
  handle_detection policy features now e d
  = response_steps policy features
      (with_handled e
         (<[ key_of d := now ]>
            (_cleanup_old_incidents now (_handled_incidents e))))
      d (default (lit "Low") (Det.severity d))
      (default (lit "UNKNOWN") (Det.ip d))
      (default (lit "Unknown Threat") (Det.rule d))
      (default false (Det.ioc_hit d)).
Proof.
  intros Ht Hfresh. unfold handle_detection. rewrite Ht. simpl.
  fold (key_of d). rewrite Hfresh.
  rewrite bool_decide_eq_false_2; [done|]. by intros [? ?].
Qed.

(** After a non-empty detection was handled, its key is in the table. *)
Lemma handle_detection_records policy features now (e : Engine World) d :
  Det.truthy d = true →
  ∃ ts, _handled_incidents (handle_detection policy features now e d)
          !! key_of d = Some ts
        ∧ (now - ts ≤ _dedup_ttl)%Z.
Proof.
  intros Ht.
  destruct (_cleanup_old_incidents now (_handled_incidents e) !! key_of d)
    as [ts|] eqn:E.
  - exists ts. apply cleanup_lookup_Some in E as [Hk Hage].
    split; [|done].
    by apply (handle_detection_suppressed policy features now e d ts).
  - exists now. rewrite handle_detection_fresh by done.
    rewrite response_steps_handled. simpl. rewrite lookup_insert_eq.
    split; [done|]. unfold _dedup_ttl. lia.
Qed.

End ResponderFacts.

(** C2.  Take a non-empty detection [d1] whose key is not alive in the
    dedup table, so that handling it at [now1] records the key, and a
    detection [d2] with the same (ip, rule, severity) key handled at
    [now2], at most ten minutes after [now1].  The first call is one pass
    through the three response steps, started with the key recorded; the
    second call makes no collaborator call, leaves the world and the
    report latch as they are and only evicts old entries: across the two
    calls the steps run exactly once. *)
Theorem C2_duplicate_within_ttl_is_suppressed
    {World : Type} (collab : Responder.Collaborators World)
    policy1 features1 policy2 features2
    (now1 now2 : Z) (e : Responder.Engine World) (d1 d2 : Detection) :
  Det.truthy d1 = true →
  Responder.key_of d2 = Responder.key_of d1 →
  Responder._cleanup_old_incidents now1 (Responder._handled_incidents e)
    !! Responder.key_of d1 = None →
  (now2 - now1 ≤ Responder._dedup_ttl)%Z →
  let e1 := Responder.handle_detection policy1 features1 now1 e d1 in
  let e2 := Responder.handle_detection policy2 features2 now2 e1 d2 in
  e1 = Responder.response_steps policy1 features1
         (Responder.with_handled e
            (<[ Responder.key_of d1 := now1 ]>
               (Responder._cleanup_old_incidents now1
                  (Responder._handled_incidents e))))
         d1 (default (lit "Low") (Det.severity d1))
         (default (lit "UNKNOWN") (Det.ip d1))
         (default (lit "Unknown Threat") (Det.rule d1))
         (default false (Det.ioc_hit d1))
  ∧ Responder._handled_incidents e1 !! Responder.key_of d1 = Some now1
  ∧ Responder.calls e2 = Responder.calls e1
  ∧ Responder.world e2 = Responder.world e1
  ∧ Responder._pdf_generated_for_run e2 = Responder._pdf_generated_for_run e1.
Proof.
  intros Ht Hkey Hfresh Hage e1 e2.
  assert (Responder._handled_incidents e1 !! Responder.key_of d1 = Some now1)
    as Hrec.
  { unfold e1. rewrite handle_detection_fresh by done.
    rewrite response_steps_handled. simpl. by rewrite lookup_insert_eq. }
  split; [by apply handle_detection_fresh|]. split; [done|].
  rewrite <- Hkey in Hrec.
  destruct (handle_detection_suppressed policy2 features2 now2 e1 d2 now1
              Hrec Hage) as (Hc & Hw & Hp & _).
  done.
Qed.

Lemma C2_duplicate_within_ttl_is_suppressed_witness :
  let d :=
    {| Det.rule := Some (lit "Sensitive File Access");
       Det.severity := Some (lit "Critical");
       Det.ip := Some (lit "203.0.113.9");
       Det.time := Some (lit "UNKNOWN");
       Det.payload := Some (lit "get /etc/passwd http/1.1");
       Det.raw := Some (lit "GET /etc/passwd HTTP/1.1");
       Det.ioc_hit := Some true |} in
  let policy := {| ENABLED := Some true; REQUIRE_IOC := Some true |} in
  let w :=
    {| Responder.fw :=
         {| Firewall.os_type := lit "Linux";
            Firewall.ledger_file := Firewall.Readable ∅;
            Firewall.spawned := [] |};
       Responder.fw_policy := policy; Responder.fw_clock := 1000;
       Responder.mailer_up := true; Responder.reporter_up := true;
       Responder.mailed := []; Responder.reported := [] |} in
  let e :=
    {| Responder._handled_incidents := ∅;
       Responder._pdf_generated_for_run := false;
       Responder.world := w; Responder.calls := [] |} in
  let e1 := @Responder.handle_detection _
              (@Responder.soc_collaborators Firewall.popen_works)
              policy FEATURES 1000 e d in
  let e2 := @Responder.handle_detection _
              (@Responder.soc_collaborators Firewall.popen_works)
              policy FEATURES 600001000 e1 d in
  Responder.calls e1
    = [Responder.BlockIp (lit "203.0.113.9") (lit "Sensitive File Access") true;
       Responder.IpBlocked; Responder.SendAlert d; Responder.Generate d]
  ∧ Responder.calls e2 = Responder.calls e1
  ∧ Responder.world e2 = Responder.world e1.
Proof.
  intros d policy w e e1 e2.
  split; [vm_compute; reflexivity|].
  pose proof (C2_duplicate_within_ttl_is_suppressed
                (@Responder.soc_collaborators Firewall.popen_works)
                policy FEATURES policy FEATURES 1000 600001000 e d d
                eq_refl eq_refl eq_refl) as Hthm.
  assert ((600001000 - 1000 ≤ Responder._dedup_ttl)%Z) as Hage
    by (vm_compute; discriminate).
  destruct (Hthm Hage) as (_ & _ & Hc & Hw & _).
  split; [exact Hc|exact Hw].
Defined.

(** C10.  The dedup key is recorded before the response steps start, and
    the steps never touch the table.  So for every non-empty detection
    and whatever the collaborators do, in particular when the firewall,
    the mailer and the report generator all raise, the key is in the
    table after the call; when the call recorded it (at [now1]), the
    steps ran on a table already holding the key, and an identical
    detection handled at most ten minutes later makes no collaborator
    call at all: nothing is retried. *)
Theorem C10_key_recorded_before_steps
    {World : Type} (collab : Responder.Collaborators World)
    policy features (now1 : Z) (e : Responder.Engine World) (d : Detection) :
  Det.truthy d = true →
  let e1 := Responder.handle_detection policy features now1 e d in
  is_Some (Responder._handled_incidents e1 !! Responder.key_of d)
  ∧ (Responder._cleanup_old_incidents now1 (Responder._handled_incidents e)
       !! Responder.key_of d = None →
     Responder._handled_incidents e1 !! Responder.key_of d = Some now1
     ∧ (∃ e0,
          Responder._handled_incidents e0 !! Responder.key_of d = Some now1
          ∧ Responder.calls e0 = Responder.calls e
          ∧ Responder.world e0 = Responder.world e
          ∧ e1 = Responder.response_steps policy features e0 d
                   (default (lit "Low") (Det.severity d))
                   (default (lit "UNKNOWN") (Det.ip d))
                   (default (lit "Unknown Threat") (Det.rule d))
                   (default false (Det.ioc_hit d)))
     ∧ ∀ policy2 features2 now2 d2,
         Responder.key_of d2 = Responder.key_of d →
         (now2 - now1 ≤ Responder._dedup_ttl)%Z →
         let e2 := Responder.handle_detection policy2 features2 now2 e1 d2 in
         Responder.calls e2 = Responder.calls e1
         ∧ Responder.world e2 = Responder.world e1
         ∧ Responder._pdf_generated_for_run e2
           = Responder._pdf_generated_for_run e1).
Proof.
  intros Ht e1. split.
  - destruct (handle_detection_records policy features now1 e d Ht)
      as (ts & Hts & _). by exists ts.
  - intros Hfresh.
    assert (Responder._handled_incidents e1 !! Responder.key_of d = Some now1)
      as Hrec.
    { unfold e1. rewrite handle_detection_fresh by done.
      rewrite response_steps_handled. simpl. by rewrite lookup_insert_eq. }
    split; [done|]. split.
    + eexists. split; [|split; [|split; [|by apply handle_detection_fresh]]].
      * simpl. by rewrite lookup_insert_eq.
      * done.
      * done.
    + intros policy2 features2 now2 d2 Hkey Hage e2.
      rewrite <- Hkey in Hrec.
      destruct (handle_detection_suppressed policy2 features2 now2 e1 d2 now1
                  Hrec Hage) as (Hc & Hw & Hp & _).
      done.
Qed.

Lemma C10_key_recorded_before_steps_witness :
  let d :=
    {| Det.rule := Some (lit "SQL Injection");
       Det.severity := Some (lit "Critical");
       Det.ip := Some (lit "198.51.100.4");
       Det.time := Some (lit "UNKNOWN");
       Det.payload := Some (lit "union select");
       Det.raw := Some (lit "UNION SELECT");
       Det.ioc_hit := Some true |} in
  let policy := {| ENABLED := Some true; REQUIRE_IOC := Some true |} in
  let features :=
    {| EMAIL_ALERTS := Some true; EMAIL_ALL_DETECTIONS := Some true |} in
  let e :=
    {| Responder._handled_incidents := ∅;
       Responder._pdf_generated_for_run := false;
       Responder.world := tt; Responder.calls := [] |} in
  let e1 := @Responder.handle_detection _ Responder.all_raise
              policy features 0 e d in
  let e2 := @Responder.handle_detection _ Responder.all_raise
              policy features 600000000 e1 d in
  Det.truthy d = true
  ∧ Responder.calls e1
    = [Responder.BlockIp (lit "198.51.100.4") (lit "SQL Injection") true;
       Responder.SendAlert d; Responder.Generate d]
  ∧ Responder._pdf_generated_for_run e1 = false
  ∧ is_Some (Responder._handled_incidents e1 !! Responder.key_of d)
  ∧ Responder._cleanup_old_incidents 0 (Responder._handled_incidents e)
      !! Responder.key_of d = None
  ∧ Responder._handled_incidents e1 !! Responder.key_of d = Some 0%Z
  ∧ (600000000 - 0 ≤ Responder._dedup_ttl)%Z
  ∧ Responder.calls e2 = Responder.calls e1.
Proof.
  intros d policy features e e1 e2.
  pose proof (C10_key_recorded_before_steps Responder.all_raise
                policy features 0%Z e d eq_refl) as [Hin Hfresh].
  assert (Responder._cleanup_old_incidents 0 (Responder._handled_incidents e)
            !! Responder.key_of d = None) as Hnone by reflexivity.
  assert ((600000000 - 0 ≤ Responder._dedup_ttl)%Z) as Hage
    by (vm_compute; discriminate).
  destruct (Hfresh Hnone) as (Hrec & _ & Hrepeat).
  destruct (Hrepeat policy features 600000000%Z d eq_refl Hage)
    as (Hcalls & _ & _).
  split; [reflexivity|]. split; [vm_compute; reflexivity|].
  split; [vm_compute; reflexivity|]. split; [exact Hin|].
  split; [exact Hnone|]. split; [exact Hrec|]. split; [exact Hage|].
  exact Hcalls.
Defined.

(** ** intelligence/ioc_loader.py *)

Section IOCFacts.
Import IOC.
Context `{Environment}.

(** Every feed is requested once, whatever it answers. *)
Lemma fetch_feeds_log feeds collected log :
  length (fetch_feeds feeds collected log).2 = length log + length feeds.
Proof.
  revert collected log.
  induction feeds as [|[name url] rest IH]; intros collected log; simpl.
  - lia.
  - destruct (requests_get log url); rewrite IH, length_app; simpl; lia.
Qed.

(** The throttle: within an hour of [last_updated] nothing happens. *)
Lemma update_iocs_throttled now e :
  (now - last_updated e < Qc_of_Z 3600)%Qc →
  update_iocs now e = (Returned tt, e).
Proof.
  intros Hlt. unfold update_iocs. by rewrite bool_decide_eq_true_2.
Qed.

(** A refresh that collects nothing keeps the set, the stamp and the
    cache artifact. *)
Lemma update_iocs_nothing_loaded now e :
  ¬ (now - last_updated e < Qc_of_Z 3600)%Qc →
  (fetch_feeds IOC_FEEDS ∅ (fetched e)).1 = ∅ →
  update_iocs now e
  = (Returned tt,
     {| iocs := iocs e; last_updated := last_updated e;
        fetched := (fetch_feeds IOC_FEEDS ∅ (fetched e)).2;
        cache_file := cache_file e |}).
Proof.
  intros Hge Hempty. unfold update_iocs.
  rewrite bool_decide_eq_false_2 by done.
  destruct (fetch_feeds IOC_FEEDS ∅ (fetched e)) as [collected log].
  simpl in *. subst collected.
  rewrite bool_decide_eq_false_2; [done|]. by intros ?.
Qed.

(** A refresh that collects something installs it and stamps it with
    [now], whether or not the cache artifact can be written. *)
Lemma update_iocs_loaded now e :
  ¬ (now - last_updated e < Qc_of_Z 3600)%Qc →
  (fetch_feeds IOC_FEEDS ∅ (fetched e)).1 ≠ ∅ →
  iocs (update_iocs now e).2 = (fetch_feeds IOC_FEEDS ∅ (fetched e)).1
  ∧ last_updated (update_iocs now e).2 = now
  ∧ fetched (update_iocs now e).2 = (fetch_feeds IOC_FEEDS ∅ (fetched e)).2.
Proof.
  intros Hge Hne. unfold update_iocs.
  rewrite bool_decide_eq_false_2 by done.
  destruct (fetch_feeds IOC_FEEDS ∅ (fetched e)) as [collected log].
  simpl in *. rewrite bool_decide_eq_true_2 by done.
  unfold _save_cache. simpl. by destruct (save_raises collected now).
Qed.

End IOCFacts.

(** C9 (as the code has it).  A call of [update_iocs] less than an hour
    after [last_updated], the time of the last refresh that loaded data,
    returns without a fetch and without touching the engine.  So when a
    call at [now1] loaded data, a second call less than an hour later
    fetches nothing and leaves everything as the first call left it: one
    fetch per feed in all.  A refresh in which no feed gives data keeps
    the in-memory set, [last_updated] and the cache artifact; it does not
    start the throttle. *)
Theorem C9_update_throttled_after_success (env : IOC.Environment)
    (now1 now2 : Qc) (e : IOC.Engine) :
  ((now1 - IOC.last_updated e < Qc_of_Z 3600)%Qc →
   IOC.update_iocs now1 e = (Returned tt, e))
  ∧ (¬ (now1 - IOC.last_updated e < Qc_of_Z 3600)%Qc →
     (IOC.fetch_feeds IOC.IOC_FEEDS ∅ (IOC.fetched e)).1 ≠ ∅ →
     (now2 - now1 < Qc_of_Z 3600)%Qc →
     let e1 := (IOC.update_iocs now1 e).2 in
     IOC.last_updated e1 = now1
     ∧ length (IOC.fetched e1)
       = length (IOC.fetched e) + length IOC.IOC_FEEDS
     ∧ IOC.update_iocs now2 e1 = (Returned tt, e1))
  ∧ (¬ (now1 - IOC.last_updated e < Qc_of_Z 3600)%Qc →
     (IOC.fetch_feeds IOC.IOC_FEEDS ∅ (IOC.fetched e)).1 = ∅ →
     let r := IOC.update_iocs now1 e in
     r.1 = Returned tt
     ∧ IOC.iocs r.2 = IOC.iocs e
     ∧ IOC.last_updated r.2 = IOC.last_updated e
     ∧ IOC.cache_file r.2 = IOC.cache_file e).
Proof.
  split; [|split].
  - apply update_iocs_throttled.
  - intros Hge Hne Hlt e1.
    destruct (update_iocs_loaded now1 e Hge Hne) as (Hi & Hl & Hf).
    split; [done|]. split.
    + unfold e1. rewrite Hf. apply fetch_feeds_log.
    + apply update_iocs_throttled. unfold e1. by rewrite Hl.
  - intros Hge Hempty r. unfold r.
    by rewrite update_iocs_nothing_loaded.
Qed.

Lemma C9_update_throttled_after_success_witness :
  let e :=
    {| IOC.iocs := ∅; IOC.last_updated := Qc_of_Z 0;
       IOC.fetched := [lit "https://example.invalid/earlier"];
       IOC.cache_file := None |} in
  let e1 := (@IOC.update_iocs IOC.down_then_up (Qc_of_Z 10000) e).2 in
  let r := @IOC.update_iocs IOC.down_then_up (Qc_of_Z 10000)
             IOC.never_updated in
  (¬ (Qc_of_Z 10000 - IOC.last_updated e < Qc_of_Z 3600)%Qc
   ∧ (Qc_of_Z 13599 - Qc_of_Z 10000 < Qc_of_Z 3600)%Qc
   ∧ IOC.iocs e1 = {[ lit "203.0.113.9" ]}
   ∧ @IOC.update_iocs IOC.down_then_up (Qc_of_Z 13599) e1
     = (Returned tt, e1))
  ∧ ((Qc_of_Z 3599 - IOC.last_updated e < Qc_of_Z 3600)%Qc
     ∧ @IOC.update_iocs IOC.down_then_up (Qc_of_Z 3599) e = (Returned tt, e))
  ∧ ((@IOC.fetch_feeds IOC.down_then_up IOC.IOC_FEEDS ∅
        (IOC.fetched IOC.never_updated)).1 = ∅
     ∧ length (IOC.fetched r.2) = 1
     ∧ IOC.iocs r.2 = IOC.iocs IOC.never_updated
     ∧ IOC.last_updated r.2 = IOC.last_updated IOC.never_updated).
Proof.
  intros e e1 r.
  assert (¬ (Qc_of_Z 10000 - IOC.last_updated e < Qc_of_Z 3600)%Qc) as Hge
    by by_compute.
  assert ((Qc_of_Z 13599 - Qc_of_Z 10000 < Qc_of_Z 3600)%Qc) as Hlt
    by by_compute.
  assert ((@IOC.fetch_feeds IOC.down_then_up IOC.IOC_FEEDS ∅ (IOC.fetched e)).1
          ≠ ∅) as Hne by by_compute.
  assert ((Qc_of_Z 3599 - IOC.last_updated e < Qc_of_Z 3600)%Qc) as Hsoon
    by by_compute.
  assert (¬ (Qc_of_Z 10000 - IOC.last_updated IOC.never_updated
             < Qc_of_Z 3600)%Qc) as Hge0 by by_compute.
  assert ((@IOC.fetch_feeds IOC.down_then_up IOC.IOC_FEEDS ∅
             (IOC.fetched IOC.never_updated)).1 = ∅) as Hnothing
    by by_compute.
  split; [|split].
  - split; [exact Hge|]. split; [exact Hlt|]. split; [by_compute|].
    exact (proj2 (proj2 (proj1 (proj2
             (C9_update_throttled_after_success IOC.down_then_up
                (Qc_of_Z 10000) (Qc_of_Z 13599) e)) Hge Hne Hlt))).
  - split; [exact Hsoon|].
    exact (proj1 (C9_update_throttled_after_success IOC.down_then_up
                    (Qc_of_Z 3599) (Qc_of_Z 0) e) Hsoon).
  - split; [exact Hnothing|]. split; [by_compute|].
    destruct (proj2 (proj2 (C9_update_throttled_after_success
                IOC.down_then_up (Qc_of_Z 10000) (Qc_of_Z 0)
                IOC.never_updated)) Hge0 Hnothing) as (_ & Hi & Hl & _).
    split; [exact Hi|exact Hl].
Defined.

(** C9, the claim as stated fails: two calls one second apart, the first
    with the feed down, the second with the feed up.  Each call requests
    the feed, and the set after the second call is not the set before
    it. *)
Lemma C9_two_calls_within_an_hour_fetch_twice :
  let e1 := (@IOC.update_iocs IOC.down_then_up (Qc_of_Z 10000)
               IOC.never_updated).2 in
  let e2 := (@IOC.update_iocs IOC.down_then_up (Qc_of_Z 10001) e1).2 in
  (Qc_of_Z 10001 - Qc_of_Z 10000 < Qc_of_Z 3600)%Qc
  ∧ length (IOC.fetched IOC.never_updated) = 0
  ∧ length (IOC.fetched e1) = 1
  ∧ length (IOC.fetched e2) = 2
  ∧ IOC.iocs e1 = ∅
  ∧ IOC.iocs e2 = {[ lit "203.0.113.9" ]}
  ∧ IOC.iocs e2 ≠ IOC.iocs e1.
Proof.
  repeat split; by_compute.
Qed.

(** ** core/detector.py *)

Section DetectorFacts.
Import SeverityMap Detector.

(** The escalation table, level by level. *)
Lemma escalate_levels :
  _escalate_severity (lit "Low") true = lit "Medium"
  ∧ _escalate_severity (lit "Medium") true = lit "High"
  ∧ _escalate_severity (lit "High") true = lit "Critical"
  ∧ _escalate_severity (lit "Critical") true = lit "Critical".
Proof. repeat split; vm_compute; reflexivity. Qed.

Lemma escalate_no_hit (severity : list N) :
  _escalate_severity severity false = severity.
Proof. reflexivity. Qed.

Lemma levels_cases (s : list N) :
  s ∈ SEVERITY_LEVELS →
  s = lit "Critical" ∨ s = lit "High" ∨ s = lit "Medium" ∨ s = lit "Low".
Proof.
  unfold SEVERITY_LEVELS. rewrite !elem_of_cons, elem_of_nil. tauto.
Qed.

(** One level up from each of the four levels, and no move without a
    hit. *)
Lemma escalate_cases (s : list N) :
  s ∈ SEVERITY_LEVELS →
  _escalate_severity s false = s
  ∧ ((s = lit "Low" ∧ _escalate_severity s true = lit "Medium")
     ∨ (s = lit "Medium" ∧ _escalate_severity s true = lit "High")
     ∨ (s = lit "High" ∧ _escalate_severity s true = lit "Critical")
     ∨ (s = lit "Critical" ∧ _escalate_severity s true = lit "Critical")).
Proof.
  intros Hs. split; [reflexivity|].
  destruct (levels_cases s Hs) as [-> | [-> | [-> | ->]]].
  - right; right; right. split; [reflexivity|vm_compute; reflexivity].
  - right; right; left. split; [reflexivity|vm_compute; reflexivity].
  - right; left. split; [reflexivity|vm_compute; reflexivity].
  - left. split; [reflexivity|vm_compute; reflexivity].
Qed.

Lemma rule_names_distinct : NoDup (DETECTION_RULES.*1).
Proof. by_compute. Qed.

Context `{Regex}.

(** The rule loop, when no rule name repeats and none was seen before:
    one detection for each rule whose pattern fits the text, in rule
    order. *)
Lemma match_rules_filter rules seen payload ip timestamp raw ioc_hit :
  NoDup (rules.*1) →
  (∀ name, name ∈ rules.*1 → name ∉ seen) →
  match_rules rules seen payload ip timestamp raw ioc_hit
  = map (λ np : list N * string,
           rule_detection np.1 payload ip timestamp raw ioc_hit)
        (List.filter (λ np : list N * string, re_search np.2 payload) rules).
Proof.
  revert seen. induction rules as [|[name pattern] rest IH];
    intros seen Hnd Hseen; [done|].
  simpl in *. apply NoDup_cons in Hnd as [Hnotin Hnd].
  rewrite bool_decide_eq_false_2 by (apply Hseen; left).
  destruct (re_search pattern payload); simpl.
  - f_equal. apply IH; [done|].
    intros n Hn. rewrite elem_of_cons. intros [->|Hs]; [done|].
    by apply (Hseen n); [right|].
  - apply IH; [done|]. intros n Hn. apply Hseen. by right.
Qed.

Lemma match_rules_shipped payload ip timestamp raw ioc_hit :
  match_rules DETECTION_RULES [] payload ip timestamp raw ioc_hit
  = map (λ np : list N * string,
           rule_detection np.1 payload ip timestamp raw ioc_hit)
        (List.filter (λ np : list N * string, re_search np.2 payload)
                     DETECTION_RULES).
Proof.
  apply match_rules_filter; [apply rule_names_distinct|].
  intros name _. apply not_elem_of_nil.
Qed.

(** What the result of [analyze_entry] is made of. *)
Lemma analyze_entry_unfold ioc_engine (entry : gmap string (list N)) :
  analyze_entry ioc_engine entry
  = let ip := default (lit "UNKNOWN") (entry !! "ip"%string) in
    let timestamp := default (lit "UNKNOWN") (entry !! "time"%string) in
    let detections :=
      map (λ np : list N * string,
             rule_detection np.1 (payload_of entry) ip timestamp
               (raw_of entry) (ioc_check ioc_engine ip))
          (List.filter (λ np : list N * string,
                          re_search np.2 (payload_of entry))
                       DETECTION_RULES) in
    if ioc_check ioc_engine ip && negb (nonempty detections)
    then detections ++ [ioc_only ip timestamp (raw_of entry)]
    else detections.
Proof.
  unfold analyze_entry. rewrite match_rules_shipped. reflexivity.
Qed.

(** Each detection made for a rule names a rule of the list and carries
    its escalated severity. *)
Lemma rule_detections_shape (rules : list (list N * string))
    (keep : list N * string → bool) payload ip timestamp raw h :
  Forall
    (λ d : Detection,
       ∃ rule_name,
         rule_name ∈ rules.*1
         ∧ Det.rule d = Some rule_name
         ∧ Det.ioc_hit d = Some h
         ∧ Det.severity d
           = Some (_escalate_severity (get_severity rule_name) h))
    (map (λ np : list N * string,
            rule_detection np.1 payload ip timestamp raw h)
         (List.filter keep rules)).
Proof.
  apply Forall_forall. intros d Hd.
  apply list_elem_of_fmap in Hd as ([name pattern] & -> & Hin).
  apply list_elem_of_In, filter_In in Hin as [Hin _].
  exists name. split; [|done].
  apply list_elem_of_fmap. exists (name, pattern).
  split; [done|]. by apply list_elem_of_In.
Qed.

End DetectorFacts.


(** The escalation seen through [analyze_entry]: a Low rule with a
    reputation hit gives Medium, the same without a hit gives Low, and a
    Critical rule stays Critical under a hit. *)
Lemma low_rule_with_hit_is_medium :
  Det.severity
    <$> @Detector.analyze_entry (@Detector.py_re PyRe.ascii_tables)
          (Some (Detector.ioc_engine_of Detector.one_bad_address))
          (Detector.entry_of (lit "203.0.113.9") (lit "md5"))
  = [Some (lit "Medium")]
  ∧ Det.severity
      <$> @Detector.analyze_entry (@Detector.py_re PyRe.ascii_tables)
            (Some (Detector.ioc_engine_of Detector.one_bad_address))
            (Detector.entry_of (lit "198.51.100.4") (lit "md5"))
    = [Some (lit "Low")]
  ∧ Det.severity
      <$> @Detector.analyze_entry (@Detector.py_re PyRe.ascii_tables)
            (Some (Detector.ioc_engine_of Detector.one_bad_address))
            (Detector.entry_of (lit "203.0.113.9")
               (lit "get /etc/passwd http/1.1"))
    = [Some (lit "Critical")].
Proof. repeat split; vm_compute; reflexivity. Qed.

Lemma filter_all_false {A} (f : A → bool) (l : list A) :
  (∀ x, x ∈ l → f x = false) → List.filter f l = [].
Proof.
  induction l as [|x l IH]; intros Hf; [done|].
  simpl. rewrite (Hf x) by left. apply IH. intros y Hy. apply Hf. by right.
Qed.

(** Every shipped pattern compiles, and none of them matches the empty
    text, whatever the Unicode tables. *)
Lemma shipped_patterns_compile :
  Forall (λ np : list N * string, is_Some (PyRe.compile np.2))
         Detector.DETECTION_RULES.
Proof. by_compute. Qed.





(** ** core/normalizer.py *)

Section NormalizerFacts.
Import Normalizer.
Context `{Unicode}.

Lemma HALF_LEN_twice : MAX_LEN = HALF_LEN + HALF_LEN.
Proof. vm_compute. reflexivity. Qed.

Lemma marker_length : length (lit "...") = 3.
Proof. reflexivity. Qed.

(** The guard leaves short text alone and cuts long text to the first
    and the last [HALF_LEN] characters around the marker. *)
Lemma length_guard_short (text : list N) :
  length text ≤ MAX_LEN → length_guard text = text.
Proof.
  intros Hle. unfold length_guard.
  destruct (Nat.ltb_spec MAX_LEN (length text)); [lia|done].
Qed.

Lemma length_guard_long (text : list N) :
  MAX_LEN < length text →
  length_guard text
  = take HALF_LEN text ++ lit "..." ++ drop (length text - HALF_LEN) text.
Proof.
  intros Hlt. unfold length_guard.
  destruct (Nat.ltb_spec MAX_LEN (length text)); [done|lia].
Qed.

Lemma length_guard_long_length (text : list N) :
  MAX_LEN < length text →
  length (length_guard text) = MAX_LEN + 3.
Proof.
  intros Hlt. rewrite length_guard_long by done.
  pose proof HALF_LEN_twice as Hh.
  rewrite !length_app, length_take, length_drop, marker_length. lia.
Qed.

Lemma length_guard_bound (text : list N) :
  length (length_guard text) ≤ MAX_LEN + 3.
Proof.
  destruct (Nat.le_gt_cases (length text) MAX_LEN) as [Hle|Hgt].
  - rewrite length_guard_short by done. lia.
  - rewrite length_guard_long_length by done. lia.
Qed.

(** Guarding twice is guarding once: a cut text is cut again at the same
    two places. *)
Lemma length_guard_idempotent (text : list N) :
  length_guard (length_guard text) = length_guard text.
Proof.
  destruct (Nat.le_gt_cases (length text) MAX_LEN) as [Hle|Hgt].
  - rewrite (length_guard_short text) by done. by apply length_guard_short.
  - pose proof HALF_LEN_twice as Hh.
    pose proof (length_guard_long_length text Hgt) as Hlen.
    rewrite (length_guard_long (length_guard text)) by (rewrite Hlen; lia).
    rewrite Hlen. rewrite (length_guard_long text) by done.
    assert (length (take HALF_LEN text) = HALF_LEN) as Htake
      by (rewrite length_take; lia).
    f_equal.
    + by rewrite take_app_length'.
    + f_equal. rewrite app_assoc. apply drop_app_length'.
      rewrite length_app, Htake, marker_length. lia.
Qed.

(** Text that one decoding pass leaves alone is left alone by
    [recursive_decode]. *)
Lemma recursive_decode_stable (text : list N) (max_depth : nat) :
  decode_once text = Some text ∨ decode_once text = None →
  recursive_decode text max_depth = text.
Proof.
  intros Hd. unfold recursive_decode.
  destruct text as [|c text]; [done|]. simpl truthy. simpl negb. cbv iota.
  destruct max_depth as [|depth]; [done|]. simpl.
  destruct Hd as [-> | ->]; [|done].
  unfold eqb. by rewrite bool_decide_eq_true_2.
Qed.

(** The two fields [normalize_log_entry] adds. *)
Lemma normalize_log_entry_fields (entry : gmap string (list N)) :
  normalize_log_entry entry !! "normalized_request"%string
  = Some (normalize_field (default [] (entry !! "request"%string)))
  ∧ normalize_log_entry entry !! "normalized_raw"%string
    = Some (normalize_field (default [] (entry !! "raw"%string))).
Proof.
  unfold normalize_log_entry, or_else.
  split.
  - rewrite lookup_insert_ne by done. rewrite lookup_insert_eq.
    by destruct (default [] (entry !! "request"%string)).
  - rewrite lookup_insert_eq.
    by destruct (default [] (entry !! "raw"%string)).
Qed.

(** The fields read by [normalize_log_entry] are not the ones it writes. *)
Lemma normalize_log_entry_keeps (entry : gmap string (list N)) (key : string) :
  key ≠ "normalized_request"%string → key ≠ "normalized_raw"%string →
  normalize_log_entry entry !! key = entry !! key.
Proof.
  intros H1 H2. unfold normalize_log_entry.
  by rewrite !lookup_insert_ne.
Qed.

Lemma normalize_log_entry_idempotent (entry : gmap string (list N)) :
  normalize_log_entry (normalize_log_entry entry) = normalize_log_entry entry.
Proof.
  unfold normalize_log_entry at 1.
  rewrite !normalize_log_entry_keeps by done.
  unfold normalize_log_entry.
  apply map_eq. intros key.
  destruct (decide (key = "normalized_raw"%string)) as [->|Hraw].
  { by rewrite !lookup_insert_eq. }
  rewrite !(lookup_insert_ne _ "normalized_raw"%string) by done.
  destruct (decide (key = "normalized_request"%string)) as [->|Hreq].
  { by rewrite !lookup_insert_eq. }
  rewrite !(lookup_insert_ne _ "normalized_request"%string) by done.
  by rewrite !lookup_insert_ne by done.
Qed.

End NormalizerFacts.

(** Two examples that never leave ASCII: every library instance gives
    the same result on them. *)
Lemma four_levels_deep (U : Normalizer.Unicode) :
  Normalizer.normalize_field (lit "GET /?q=%25252527") = lit "get /?q=%27"
  ∧ Normalizer.normalize_field (lit "get /?q=%27") = lit "get /?q='".
Proof. split; vm_compute; reflexivity. Qed.

Lemma long_text_length (U : Normalizer.Unicode) :
  length (Normalizer.normalize_field (repeat 97%N 2001)) = 2003.
Proof. vm_compute. reflexivity. Qed.

(** C5 (as the code has it).  Both normalized fields are the length
    guard applied to the decoded, stripped, lower-cased text.  Text of at
    most 2000 characters is kept; longer text becomes its first 1000
    characters, the marker "..." and its last 1000 characters, which is
    2003 characters: the bound on the output is 2003, not 2000. *)
Theorem C5_length_guard_keeps_head_and_tail (U : Normalizer.Unicode)
    (entry : gmap string (list N)) (text : list N) :
  Normalizer.MAX_LEN = 2000 ∧ Normalizer.HALF_LEN = 1000
  ∧ Normalizer.normalize_log_entry entry !! "normalized_request"%string
    = Some (Normalizer.normalize_field
              (default [] (entry !! "request"%string)))
  ∧ Normalizer.normalize_log_entry entry !! "normalized_raw"%string
    = Some (Normalizer.normalize_field (default [] (entry !! "raw"%string)))
  ∧ length (Normalizer.normalize_field text) ≤ 2003
  ∧ (length (Normalizer.lower
               (Normalizer._strip_control_chars
                  (Normalizer.recursive_decode text 3))) ≤ 2000 →
     Normalizer.normalize_field text
     = Normalizer.lower
         (Normalizer._strip_control_chars
            (Normalizer.recursive_decode text 3)))
  ∧ (2000 < length (Normalizer.lower
                      (Normalizer._strip_control_chars
                         (Normalizer.recursive_decode text 3))) →
     ∃ head tail,
       Normalizer.normalize_field text = head ++ lit "..." ++ tail
       ∧ head = take 1000 (Normalizer.lower
                             (Normalizer._strip_control_chars
                                (Normalizer.recursive_decode text 3)))
       ∧ length head = 1000
       ∧ (∃ front, Normalizer.lower
                     (Normalizer._strip_control_chars
                        (Normalizer.recursive_decode text 3))
                   = front ++ tail)
       ∧ length tail = 1000
       ∧ length (Normalizer.normalize_field text) = 2003).
Proof.
  assert (Normalizer.MAX_LEN = 2000) as HM by (vm_compute; reflexivity).
  assert (Normalizer.HALF_LEN = 1000) as HH by (vm_compute; reflexivity).
  split; [exact HM|]. split; [exact HH|].
  split; [apply normalize_log_entry_fields|].
  split; [apply normalize_log_entry_fields|].
  unfold Normalizer.normalize_field.
  generalize (Normalizer.lower
                (Normalizer._strip_control_chars
                   (Normalizer.recursive_decode text 3))).
  intros cleaned. split; [|split].
  - pose proof (length_guard_bound cleaned) as Hb. rewrite HM in Hb. lia.
  - intros Hle. apply length_guard_short. rewrite HM. lia.
  - intros Hgt.
    assert (Normalizer.MAX_LEN < length cleaned) as Hgt'
      by (rewrite HM; lia).
    exists (take 1000 cleaned), (drop (length cleaned - 1000) cleaned).
    split; [by rewrite length_guard_long, HH|].
    split; [done|].
    split; [rewrite length_take; lia|].
    split; [exists (take (length cleaned - 1000) cleaned);
            by rewrite take_drop|].
    split; [rewrite length_drop; lia|].
    rewrite length_guard_long_length by done. rewrite HM. lia.
Qed.

Lemma C5_length_guard_keeps_head_and_tail_witness :
  let text := repeat 65%N 1500 ++ repeat 66%N 1500 in
  let short := lit "GET /Index.HTML" in
  (2000 < length (@Normalizer.lower Normalizer.ascii_only
                    (@Normalizer._strip_control_chars Normalizer.ascii_only
                       (@Normalizer.recursive_decode Normalizer.ascii_only
                          text 3)))
   ∧ ∃ head tail,
       @Normalizer.normalize_field Normalizer.ascii_only text
       = head ++ lit "..." ++ tail
       ∧ length head = 1000 ∧ length tail = 1000)
  ∧ (length (@Normalizer.lower Normalizer.ascii_only
               (@Normalizer._strip_control_chars Normalizer.ascii_only
                  (@Normalizer.recursive_decode Normalizer.ascii_only
                     short 3))) ≤ 2000
     ∧ @Normalizer.normalize_field Normalizer.ascii_only short
       = lit "get /index.html").
Proof.
  intros text short.
  assert (2000 < length (@Normalizer.lower Normalizer.ascii_only
                   (@Normalizer._strip_control_chars Normalizer.ascii_only
                      (@Normalizer.recursive_decode Normalizer.ascii_only
                         text 3)))) as Hlong.
  { apply Nat.ltb_lt. vm_compute. reflexivity. }
  assert (length (@Normalizer.lower Normalizer.ascii_only
               (@Normalizer._strip_control_chars Normalizer.ascii_only
                  (@Normalizer.recursive_decode Normalizer.ascii_only
                     short 3))) ≤ 2000) as Hshort.
  { apply Nat.leb_le. vm_compute. reflexivity. }
  split.
  - split; [exact Hlong|].
    destruct (proj2 (proj2 (proj2 (proj2 (proj2 (proj2
                (C5_length_guard_keeps_head_and_tail Normalizer.ascii_only
                   ∅ text)))))) Hlong)
      as (head & tail & Heq & _ & Hhead & _ & Htail & _).
    exists head, tail. split; [exact Heq|]. split; [exact Hhead|exact Htail].
  - split; [exact Hshort|].
    rewrite (proj1 (proj2 (proj2 (proj2 (proj2 (proj2
               (C5_length_guard_keeps_head_and_tail Normalizer.ascii_only
                  ∅ short)))))) Hshort).
    vm_compute. reflexivity.
Defined.

(** C5, the claim as stated fails: a request of 2001 letters gives a
    normalized request of 2003 characters. *)
Lemma C5_normalized_request_of_2003_characters :
  let entry : gmap string (list N) :=
    <[ "request"%string := repeat 97%N 2001 ]>
      (<[ "raw"%string := repeat 97%N 2001 ]> ∅) in
  length <$> (@Normalizer.normalize_log_entry Normalizer.ascii_only entry
                !! "normalized_request"%string) = Some 2003
  ∧ length <$> (@Normalizer.normalize_log_entry Normalizer.ascii_only entry
                  !! "normalized_raw"%string) = Some 2003
  ∧ ¬ (2003 ≤ 2000).
Proof.
  intros entry.
  destruct (@normalize_log_entry_fields Normalizer.ascii_only entry)
    as [-> ->].
  split; [vm_compute; reflexivity|]. split; [vm_compute; reflexivity|]. lia.
Qed.

(** C4 (as the code has it).  Normalizing a normalized entry gives the
    same entry: the request and raw fields are left alone and the two
    normalized fields are computed from them again.  Normalizing a
    normalized payload gives the payload back when one more decoding
    pass, the stripping of control characters and lower-casing each
    leave it alone; the length guard never changes its own output. *)
Theorem C4_normalizing_twice (U : Normalizer.Unicode)
    (entry : gmap string (list N)) (text : list N) :
  Normalizer.normalize_log_entry (Normalizer.normalize_log_entry entry)
  = Normalizer.normalize_log_entry entry
  ∧ Normalizer.length_guard (Normalizer.length_guard text)
    = Normalizer.length_guard text
  ∧ ((Normalizer.decode_once (Normalizer.normalize_field text)
      = Some (Normalizer.normalize_field text)
      ∨ Normalizer.decode_once (Normalizer.normalize_field text) = None) →
     Normalizer._strip_control_chars (Normalizer.normalize_field text)
     = Normalizer.normalize_field text →
     Normalizer.lower (Normalizer.normalize_field text)
     = Normalizer.normalize_field text →
     Normalizer.normalize_field (Normalizer.normalize_field text)
     = Normalizer.normalize_field text).
Proof.
  split; [apply normalize_log_entry_idempotent|].
  split; [apply length_guard_idempotent|].
  intros Hdec Hstrip Hlower.
  unfold Normalizer.normalize_field at 1.
  rewrite (recursive_decode_stable _ 3 Hdec), Hstrip, Hlower.
  unfold Normalizer.normalize_field. apply length_guard_idempotent.
Qed.

Lemma C4_normalizing_twice_witness :
  let text := lit "GET /Index.HTML?a=%2527+b" in
  let p := @Normalizer.normalize_field Normalizer.ascii_only text in
  p = lit "get /index.html?a=' b"
  ∧ @Normalizer.decode_once Normalizer.ascii_only p = Some p
  ∧ @Normalizer.normalize_field Normalizer.ascii_only p = p.
Proof.
  intros text p.
  assert (@Normalizer.decode_once Normalizer.ascii_only p = Some p) as Hdec
    by (vm_compute; reflexivity).
  split; [vm_compute; reflexivity|]. split; [exact Hdec|].
  apply (proj2 (proj2 (C4_normalizing_twice Normalizer.ascii_only ∅ text))).
  - left. exact Hdec.
  - vm_compute. reflexivity.
  - vm_compute. reflexivity.
Defined.

(** C4, the claim as stated fails: a quote encoded four levels deep is
    decoded three levels by the first normalization and one more level
    by the second, so normalizing the normalized payload changes it. *)
Lemma C4_four_levels_deep_is_not_stable :
  let entry : gmap string (list N) :=
    <[ "request"%string := lit "GET /?q=%25252527" ]>
      (<[ "raw"%string := lit "GET /?q=%25252527" ]> ∅) in
  let once := @Normalizer.normalize_log_entry Normalizer.ascii_only entry in
  let fed_back : gmap string (list N) :=
    <[ "request"%string :=
         default [] (once !! "normalized_request"%string) ]>
      (<[ "raw"%string := default [] (once !! "normalized_raw"%string) ]> ∅) in
  let again := @Normalizer.normalize_log_entry Normalizer.ascii_only fed_back in
  once !! "normalized_request"%string = Some (lit "get /?q=%27")
  ∧ again !! "normalized_request"%string = Some (lit "get /?q='")
  ∧ once !! "normalized_raw"%string = Some (lit "get /?q=%27")
  ∧ again !! "normalized_raw"%string = Some (lit "get /?q='")
  ∧ @Normalizer.normalize_field Normalizer.ascii_only
      (@Normalizer.normalize_field Normalizer.ascii_only
         (lit "GET /?q=%25252527"))
    ≠ @Normalizer.normalize_field Normalizer.ascii_only
        (lit "GET /?q=%25252527").
Proof.
  repeat split; try (vm_compute; reflexivity).
  vm_compute. discriminate.
Qed.

(** ** core/correlation.py *)

Section CorrelationFacts.
Import Correlation.
Context `{TimeLib}.
Variable minutes : Z.

(** The sort only reorders. *)
Lemma insert_by_time_perm (d : Detection) (sorted : list Detection) :
  insert_by_time d sorted ≡ₚ d :: sorted.
Proof.
  induction sorted as [|e rest IH]; simpl; [done|].
  destruct (ltb (time_key e) (time_key d)); [|done].
  rewrite IH. apply Permutation_swap.
Qed.

Lemma sort_by_time_perm (events : list Detection) :
  sort_by_time events ≡ₚ events.
Proof.
  induction events as [|d rest IH]; simpl; [done|].
  by rewrite insert_by_time_perm, IH.
Qed.





Lemma of_type_app name (l k : list Incident) :
  of_type name (l ++ k) = of_type name l ++ of_type name k.
Proof. unfold of_type. apply List.filter_app. Qed.

Lemma of_type_other name (c : bool) (i : Incident) :
  eqb (type i) name = false →
  of_type name (if c then [i] else []) = [].
Proof.
  intros Hne. destruct c; [|done]. unfold of_type. simpl. by rewrite Hne.
Qed.



(** When the time stamps parse as ISO times without zone, the window
    filter keeps exactly the events not older than the window, counted
    back from the last event: a batch inside the window is kept whole. *)
Lemma parse_time_iso (s : list N) (t : datetime) (n : nat) :
  truthy s = true → s ≠ lit "UNKNOWN" → fromisoformat s = Some t →
  _parse_time (Some s) n = (t, n).
Proof.
  intros Ht Hu Hp. unfold _parse_time. rewrite Ht, Hp. simpl.
  apply eqb_false in Hu. by rewrite Hu.
Qed.

Lemma filter_loop_keeps (cutoff : Z) (events : list Detection) (n : nat)
    (stamp : Detection → Z) :
  (∀ e, e ∈ events →
        ∃ s, Det.time e = Some s ∧ truthy s = true ∧ s ≠ lit "UNKNOWN"
             ∧ fromisoformat s = Some (Naive (stamp e))
             ∧ (cutoff ≤ stamp e)%Z) →
  filter_loop (Naive cutoff) events n = (events, n).
Proof.
  induction events as [|e rest IH]; intros Hall; [done|].
  cbn [filter_loop].
  destruct (Hall e) as (s & -> & Ht & Hu & Hp & Hle); [by left|].
  rewrite (parse_time_iso s _ n Ht Hu Hp). cbn [datetime_ge].
  rewrite IH by (intros e' He'; apply Hall; by right).
  by rewrite (proj2 (Z.leb_le _ _) Hle).
Qed.

Lemma window_keeps_recent (events : list Detection) (latest : Detection)
    (n : nat) (stamp : Detection → Z) :
  last events = Some latest →
  (∀ e, e ∈ events →
        ∃ s, Det.time e = Some s ∧ truthy s = true ∧ s ≠ lit "UNKNOWN"
             ∧ fromisoformat s = Some (Naive (stamp e))
             ∧ (stamp latest - time_window minutes ≤ stamp e)%Z) →
  _filter_time_window minutes events n = (events, n).
Proof.
  intros Hlast Hall. unfold _filter_time_window. rewrite Hlast.
  destruct (Hall latest) as (s & Hs & Ht & Hu & Hp & _).
  { apply list_elem_of_lookup. exists (pred (length events)).
    by rewrite <- last_lookup. }
  rewrite Hs, (parse_time_iso s _ n Ht Hu Hp). cbn [minus_delta].
  by apply (filter_loop_keeps _ _ _ stamp).
Qed.

End CorrelationFacts.




(* ===================================================================== *)
(** * Part III: further properties *)
(* ===================================================================== *)

Section FirewallMore.
Import Firewall.
Context `{Subprocess}.

Lemma spawn_two (c1 c2 : list (list N)) (st : FwState) :
  spawn_all [c1; c2] st =
  if popen_raises (spawned st) c1 then (false, st)
  else if popen_raises (spawned st ++ [c1]) c2
       then (false, {| os_type := os_type st; ledger_file := ledger_file st;
                       spawned := spawned st ++ [c1] |})
       else (true, {| os_type := os_type st; ledger_file := ledger_file st;
                      spawned := spawned st ++ [c1; c2] |}).
Proof.
  cbn [spawn_all spawned os_type ledger_file].
  destruct (popen_raises (spawned st) c1); [done|].
  destruct (popen_raises (spawned st ++ [c1]) c2); [done|].
  by rewrite <- app_assoc.
Qed.

Ltac refute_guards :=
  rewrite bool_decide_eq_false_2;
  [done | intros (?&Hq&?&?&?&?); try specialize (Hq eq_refl); congruence].

Lemma block_ip_guards policy now st ip reason ioc :
  block_ip policy now st ip reason ioc =
  if bool_decide (default false (ENABLED policy) = true
                  ∧ (default true (REQUIRE_IOC policy) = true → ioc = true)
                  ∧ ip ≠ [] ∧ ip ≠ lit "UNKNOWN"
                  ∧ _is_private_ip ip = false
                  ∧ _load_history st !! ip = None)
  then
    let rule_name := lit "SOC_BLOCK_" ++ ip in
    if eqb (os_type st) (lit "Windows") then
      match spawn_all (windows_cmds ip rule_name) st with
      | (true, st') => (true, audit_log now st' ip reason ioc (lit "netsh") rule_name)
      | (false, st') => (false, st')
      end
    else (true, audit_log now st ip reason ioc (lit "audit-only") rule_name)
  else (false, st).
Proof.
  unfold block_ip, _block_windows.
  destruct (default false (ENABLED policy)) eqn:He; cbn [negb];
    [|refute_guards].
  destruct (default true (REQUIRE_IOC policy)) eqn:Hr, ioc; cbn [negb andb];
    try refute_guards.
  all: destruct ip as [|c ip]; cbn [truthy negb orb]; try refute_guards.
  all: destruct (eqb (c :: ip) (lit "UNKNOWN")) eqn:Hu;
    [apply eqb_true in Hu; refute_guards|].
  all: apply eqb_false in Hu.
  all: destruct (_is_private_ip (c :: ip)) eqn:Hp; [refute_guards|].
  all: destruct (_load_history st !! (c :: ip)) eqn:Hl;
    [rewrite bool_decide_eq_true_2 by eauto; refute_guards|].
  all: rewrite (bool_decide_eq_false_2 (is_Some None)) by (intros [? ?]; done).
  all: rewrite bool_decide_eq_true_2; [done|repeat split; done].
Qed.

Lemma block_ip_os policy now st ip reason ioc :
  os_type (block_ip policy now st ip reason ioc).2 = os_type st.
Proof.
  rewrite block_ip_guards. case_bool_decide; [|done].
  cbv zeta. destruct (eqb (os_type st) (lit "Windows")); [|done].
  pose proof (spawn_all_frame (windows_cmds ip (lit "SOC_BLOCK_" ++ ip)) st) as [_ Ho].
  destruct (spawn_all _ st) as [[] st']; done.
Qed.

Lemma run_os calls st : os_type (run calls st).2 = os_type st.
Proof.
  revert st. induction calls as [|c rest IH]; intros st; [done|].
  rewrite run_cons. cbn [snd]. rewrite IH. apply block_ip_os.
Qed.

Lemma block_ip_off_windows policy now st ip reason ioc :
  os_type st ≠ lit "Windows" →
  spawned (block_ip policy now st ip reason ioc).2 = spawned st.
Proof.
  intros Hos. apply eqb_false in Hos.
  rewrite block_ip_guards. cbv zeta. rewrite Hos.
  by case_bool_decide.
Qed.

Lemma run_off_windows calls st :
  os_type st ≠ lit "Windows" →
  spawned (run calls st).2 = spawned st.
Proof.
  revert st. induction calls as [|c rest IH]; intros st Hos; [done|].
  rewrite run_cons. cbn [snd]. rewrite IH.
  - by apply block_ip_off_windows.
  - unfold do_call. by rewrite block_ip_os.
Qed.

End FirewallMore.

Section FirewallLedger.
Import Firewall.
Context `{Subprocess}.

Lemma block_ip_record policy now st ip reason ioc :
  (block_ip policy now st ip reason ioc).1 = true →
  _load_history (block_ip policy now st ip reason ioc).2
  = <[ ip := {| blocked_at := now; reason := reason; ioc_confirmed := ioc;
                os := os_type st;
                method := if eqb (os_type st) (lit "Windows")
                          then lit "netsh" else lit "audit-only";
                rule_name := lit "SOC_BLOCK_" ++ ip |} ]> (_load_history st).
Proof.
  rewrite block_ip_guards. case_bool_decide; [|done].
  cbv zeta. destruct (eqb (os_type st) (lit "Windows")); [|done].
  pose proof (spawn_all_frame (windows_cmds ip (lit "SOC_BLOCK_" ++ ip)) st)
    as [Hl Ho].
  pose proof (spawn_all_history (windows_cmds ip (lit "SOC_BLOCK_" ++ ip)) st)
    as Hh.
  destruct (spawn_all _ st) as [[] st']; [|done].
  intros _. cbn [snd fst] in *. unfold audit_log.
  cbn [_load_history _save_history ledger_file]. by rewrite Hh, Ho.
Qed.

Lemma ledger_after_run calls st ip :
  is_Some (_load_history (run calls st).2 !! ip)
  ↔ is_Some (_load_history st !! ip)
    ∨ times_blocked ip calls (run calls st).1 = 1.
Proof.
  revert st. induction calls as [|c rest IH]; intros st.
  - cbn. split; [by left|]. by intros [?|?].
  - rewrite run_cons. cbn [fst snd]. rewrite times_blocked_cons, IH.
    unfold do_call.
    pose proof (block_ip_ledger (call_policy c) (call_now c) st (call_ip c)
                  (call_reason c) (call_ioc c)) as Hl.
    destruct (block_ip (call_policy c) (call_now c) st (call_ip c)
                (call_reason c) (call_ioc c)) as [r st1] eqn:Hb.
    cbn [fst snd].
    destruct Hl as [[-> Hh]|(-> & Hnone & rec & Hh)]; rewrite Hh.
    + done.
    + cbn [andb]. destruct (eqb (call_ip c) ip) eqn:Hip.
      * apply eqb_true in Hip. subst ip.
        rewrite lookup_insert_eq.
        assert (Hk : is_Some (_load_history st1 !! call_ip c)).
        { rewrite Hh, lookup_insert_eq. eauto. }
        rewrite (known_never_blocked rest st1 _ Hk).
        split; [intros _; by right|intros _; left; eauto].
      * apply eqb_false in Hip. rewrite lookup_insert_ne by done. done.
Qed.

End FirewallLedger.

Section OverGuard.
Import Firewall.

Lemma octet_starts_with_2 (b : N) :
  (b = 2 ∨ 20 <= b <= 29 ∨ 200 <= b <= 255)%N →
  ∃ rest, octet b = 50%N :: rest.
Proof.
  intros Hb. unfold octet, digit.
  destruct (b <? 10)%N eqn:H10.
  - apply N.ltb_lt in H10. assert (b = 2%N) as -> by lia. by eexists.
  - apply N.ltb_ge in H10. destruct (b <? 100)%N eqn:H100.
    + apply N.ltb_lt in H100. assert (b / 10 = 2)%N as ->.
      { assert (20 <= b <= 29)%N as Hr by lia.
        symmetry. apply (N.div_unique b 10 2 (b - 20)); lia. }
      by eexists.
    + apply N.ltb_ge in H100. assert (b / 100 = 2)%N as ->.
      { assert (200 <= b <= 255)%N as Hr by lia.
        symmetry. apply (N.div_unique b 100 2 (b - 200)); lia. }
      by eexists.
Qed.

Lemma guard_172_2 (b c d : N) :
  (b = 2 ∨ 20 <= b <= 29 ∨ 200 <= b <= 255)%N →
  _is_private_ip (dotted 172 b c d) = true.
Proof.
  intros Hb. destruct (octet_starts_with_2 b Hb) as [rest Hrest].
  unfold dotted. rewrite Hrest.
  replace ((50%N :: rest) ++ lit "." ++ octet c ++ lit "." ++ octet d)
    with (50%N :: (rest ++ lit "." ++ octet c ++ lit "." ++ octet d)) by done.
  generalize (rest ++ lit "." ++ octet c ++ lit "." ++ octet d). intros tail.
  vm_compute. reflexivity.
Qed.

End OverGuard.


(** X2.  Off Windows the controller never starts a command: whatever
    the calls of a run and their answers, the list of spawned commands
    and the operating system stay as they were. *)
Theorem no_command_off_windows (env : Firewall.Subprocess) calls st :
  Firewall.os_type st ≠ lit "Windows" →
  Firewall.spawned (Firewall.run calls st).2 = Firewall.spawned st
  ∧ Firewall.os_type (Firewall.run calls st).2 = Firewall.os_type st.
Proof.
  intros Hos. split; [by apply run_off_windows|apply run_os].
Qed.

Lemma no_command_off_windows_witness :
  let st :=
    {| Firewall.os_type := lit "Linux";
       Firewall.ledger_file := Firewall.Unreadable;
       Firewall.spawned := [] |} in
  let call a :=
    {| Firewall.call_policy := {| ENABLED := Some true; REQUIRE_IOC := None |};
       Firewall.call_now := 5; Firewall.call_ip := a;
       Firewall.call_reason := lit "XSS"; Firewall.call_ioc := true |} in
  let calls := [call (lit "203.0.113.9"); call (lit "198.51.100.4")] in
  (@Firewall.run Firewall.popen_works calls st).1 = [true; true]
  ∧ Firewall.spawned (@Firewall.run Firewall.popen_works calls st).2 = []
  ∧ Firewall.os_type (@Firewall.run Firewall.popen_works calls st).2
    = lit "Linux".
Proof.
  intros st call calls.
  split; [vm_compute; reflexivity|].
  apply (no_command_off_windows Firewall.popen_works calls st).
  vm_compute. discriminate.
Defined.

(** X3.  A call of [block_ip] that answers [True] writes one record
    under the address: the clock reading, the reason and the reputation
    flag of the call, the operating system, the method ("netsh" on
    Windows, "audit-only" elsewhere) and the rule name "SOC_BLOCK_"
    followed by the address.  Every other address of the ledger keeps
    what it had. *)
Theorem block_ip_true_writes_record (env : Firewall.Subprocess)
    policy now st ip reason ioc :
  (Firewall.block_ip policy now st ip reason ioc).1 = true →
  let st' := (Firewall.block_ip policy now st ip reason ioc).2 in
  Firewall._load_history st' !! ip
  = Some {| Firewall.blocked_at := now;
            Firewall.reason := reason;
            Firewall.ioc_confirmed := ioc;
            Firewall.os := Firewall.os_type st;
            Firewall.method :=
              if eqb (Firewall.os_type st) (lit "Windows")
              then lit "netsh" else lit "audit-only";
            Firewall.rule_name := lit "SOC_BLOCK_" ++ ip |}
  ∧ ∀ other, other ≠ ip →
      Firewall._load_history st' !! other = Firewall._load_history st !! other.
Proof.
  intros Ht st'. unfold st'. rewrite (block_ip_record _ _ _ _ _ _ Ht).
  split; [by rewrite lookup_insert_eq|].
  intros other Hne. by rewrite lookup_insert_ne.
Qed.

Lemma block_ip_true_writes_record_witness :
  let policy := {| ENABLED := Some true; REQUIRE_IOC := Some true |} in
  let st :=
    {| Firewall.os_type := lit "Darwin";
       Firewall.ledger_file := Firewall.Unreadable;
       Firewall.spawned := [] |} in
  let st' := (@Firewall.block_ip Firewall.popen_works policy 42 st
                (lit "203.0.113.9") (lit "SQL Injection") true).2 in
  Firewall._load_history st' !! lit "203.0.113.9"
  = Some {| Firewall.blocked_at := 42;
            Firewall.reason := lit "SQL Injection";
            Firewall.ioc_confirmed := true;
            Firewall.os := lit "Darwin";
            Firewall.method := lit "audit-only";
            Firewall.rule_name := lit "SOC_BLOCK_203.0.113.9" |}.
Proof.
  intros policy st st'.
  assert ((@Firewall.block_ip Firewall.popen_works policy 42 st
             (lit "203.0.113.9") (lit "SQL Injection") true).1 = true) as Ht
    by (vm_compute; reflexivity).
  exact (proj1 (block_ip_true_writes_record Firewall.popen_works policy 42 st
                  (lit "203.0.113.9") (lit "SQL Injection") true Ht)).
Defined.

(** X4.  After any run of calls the ledger holds an address exactly
    when it held it before the run or one call of the run answered
    [True] for it. *)
Theorem ledger_holds_exactly_the_blocked (env : Firewall.Subprocess)
    calls st ip :
  is_Some (Firewall._load_history (Firewall.run calls st).2 !! ip)
  ↔ is_Some (Firewall._load_history st !! ip)
    ∨ Firewall.times_blocked ip calls (Firewall.run calls st).1 = 1.
Proof. apply ledger_after_run. Qed.

(** X5.  On Windows, when the inbound command starts and the outbound
    one fails to start, [block_ip] answers [False] and writes nothing
    to the ledger, although the inbound command has been spawned. *)
Theorem windows_block_fails_half_way (env : Firewall.Subprocess)
    policy now st ip reason ioc :
  let rule := lit "SOC_BLOCK_" ++ ip in
  let cmd_in := Firewall.netsh_cmd rule (lit "_IN") (lit "dir=in") ip in
  let cmd_out := Firewall.netsh_cmd rule (lit "_OUT") (lit "dir=out") ip in
  default false (ENABLED policy) = true →
  (default true (REQUIRE_IOC policy) = true → ioc = true) →
  ip ≠ [] → ip ≠ lit "UNKNOWN" →
  Firewall._is_private_ip ip = false →
  Firewall._load_history st !! ip = None →
  Firewall.os_type st = lit "Windows" →
  Firewall.popen_raises (Firewall.spawned st) cmd_in = false →
  Firewall.popen_raises (Firewall.spawned st ++ [cmd_in]) cmd_out = true →
  Firewall.block_ip policy now st ip reason ioc
  = (false,
     {| Firewall.os_type := Firewall.os_type st;
        Firewall.ledger_file := Firewall.ledger_file st;
        Firewall.spawned := Firewall.spawned st ++ [cmd_in] |}).
Proof.
  intros rule cmd_in cmd_out He Hr Hn Hu Hp Hl Hos H1 H2.
  rewrite block_ip_guards. cbv zeta. fold rule.
  unfold Firewall.windows_cmds. fold cmd_in cmd_out. rewrite spawn_two.
  rewrite bool_decide_eq_true_2 by done.
  apply eqb_true in Hos. by rewrite Hos, H1, H2.
Qed.

Lemma windows_block_fails_half_way_witness :
  let env : Firewall.Subprocess :=
    {| Firewall.popen_raises := λ log _, bool_decide (length log = 1) |} in
  let policy := {| ENABLED := Some true; REQUIRE_IOC := Some false |} in
  let st :=
    {| Firewall.os_type := lit "Windows";
       Firewall.ledger_file := Firewall.Readable ∅;
       Firewall.spawned := [] |} in
  let ip := lit "203.0.113.9" in
  @Firewall.block_ip env policy 7 st ip (lit "XSS") false
  = (false,
     {| Firewall.os_type := lit "Windows";
        Firewall.ledger_file := Firewall.Readable ∅;
        Firewall.spawned :=
          [Firewall.netsh_cmd (lit "SOC_BLOCK_203.0.113.9") (lit "_IN")
             (lit "dir=in") ip] |}).
Proof.
  intros env policy st ip.
  apply (windows_block_fails_half_way env policy 7 st ip (lit "XSS") false).
  - reflexivity.
  - vm_compute. discriminate.
  - discriminate.
  - vm_compute. discriminate.
  - vm_compute. reflexivity.
  - vm_compute. reflexivity.
  - reflexivity.
  - vm_compute. reflexivity.
  - vm_compute. reflexivity.
Defined.

(** X6.  The prefix "172.2" also covers public addresses: for a second
    octet of 2 or from 200 to 255 the address lies outside the private
    range 172.16.0.0/12, yet the guard takes it for private and
    [block_ip] refuses it. *)
Theorem public_172_addresses_refused (env : Firewall.Subprocess)
    (b c d : N) policy now st reason ioc :
  (b = 2 ∨ 200 <= b <= 255)%N →
  Firewall.in_private_range 172 b = false
  ∧ Firewall._is_private_ip (Firewall.dotted 172 b c d) = true
  ∧ Firewall.block_ip policy now st (Firewall.dotted 172 b c d) reason ioc
    = (false, st).
Proof.
  intros Hb.
  assert (Firewall._is_private_ip (Firewall.dotted 172 b c d) = true) as Hg.
  { apply guard_172_2. lia. }
  split; [|split; [exact Hg|by apply block_ip_private]].
  unfold Firewall.in_private_range.
  replace (172 =? 127)%N with false by done.
  replace (172 =? 10)%N with false by done.
  replace (172 =? 192)%N with false by done.
  replace (172 =? 172)%N with true by done.
  cbn [orb andb].
  destruct Hb as [->|Hb]; [done|].
  replace (b <=? 31)%N with false; [by rewrite andb_false_r|].
  symmetry. apply N.leb_gt. lia.
Qed.

Lemma public_172_addresses_refused_witness :
  let st :=
    {| Firewall.os_type := lit "Windows";
       Firewall.ledger_file := Firewall.Readable ∅;
       Firewall.spawned := [] |} in
  Firewall.dotted 172 217 14 206 = lit "172.217.14.206"
  ∧ @Firewall.block_ip Firewall.popen_works
      {| ENABLED := Some true; REQUIRE_IOC := Some false |} 0 st
      (lit "172.217.14.206") (lit "SQL Injection") true
    = (false, st).
Proof.
  intros st. split; [vm_compute; reflexivity|].
  exact (proj2 (proj2 (public_172_addresses_refused Firewall.popen_works
                         217 14 206
                         {| ENABLED := Some true; REQUIRE_IOC := Some false |}
                         0 st (lit "SQL Injection") true
                         ltac:(right; lia)))).
Defined.

Section ResponderCalls.
Import Responder ResponderTrace.
Context {World : Type} `{Collaborators World}.

Lemma firewall_step_calls policy (e : Engine World) severity ip rule ioc_hit :
  calls (firewall_step policy e severity ip rule ioc_hit)
  = calls e ++ block_calls policy (world e) severity ip rule ioc_hit
  ∧ _pdf_generated_for_run (firewall_step policy e severity ip rule ioc_hit)
    = _pdf_generated_for_run e.
Proof.
  unfold firewall_step, _handle_firewall, block_calls.
  destruct (default false (ENABLED policy)); cbn [negb andb];
    [|by rewrite app_nil_r].
  destruct ((if default true (REQUIRE_IOC policy)
             then eqb severity (lit "Critical") && ioc_hit
             else eqb severity (lit "Critical"))
            && truthy ip && negb (eqb ip (lit "UNKNOWN")));
    [|by rewrite app_nil_r].
  destruct (firewall_block_ip (world e) ip rule ioc_hit) as [[r|] w]; cbn [fst].
  - destruct (ip_blocked_emit (world (after_call e (BlockIp ip rule ioc_hit) w)))
      as [o w']. cbn. by rewrite <- app_assoc.
  - done.
Qed.

Lemma handle_email_calls features (e : Engine World) severity d :
  calls (_handle_email features e severity d)
  = calls e ++ email_calls features severity d
  ∧ _pdf_generated_for_run (_handle_email features e severity d)
    = _pdf_generated_for_run e.
Proof.
  unfold _handle_email, email_calls.
  destruct (default false (EMAIL_ALERTS features)); cbn [negb andb];
    [|by rewrite app_nil_r].
  destruct (default false (EMAIL_ALL_DETECTIONS features)); cbn [orb].
  - by destruct (alerter_send_alert (world e) d).
  - destruct (eqb severity (lit "High") || eqb severity (lit "Critical")).
    + by destruct (alerter_send_alert (world e) d).
    + by rewrite app_nil_r.
Qed.

Lemma report_step_calls (e : Engine World) d :
  calls (report_step e d)
  = calls e ++ (if _pdf_generated_for_run e then [] else [Generate d]).
Proof.
  unfold report_step. destruct (_pdf_generated_for_run e);
    [by rewrite app_nil_r|].
  by destruct (reporter_generate (world e) d) as [[?|] w].
Qed.

Lemma response_steps_calls policy features (e : Engine World) d
    severity ip rule ioc_hit :
  calls (response_steps policy features e d severity ip rule ioc_hit)
  = calls e
    ++ block_calls policy (world e) severity ip rule ioc_hit
    ++ email_calls features severity d
    ++ (if _pdf_generated_for_run e then [] else [Generate d]).
Proof.
  unfold response_steps. cbv zeta.
  rewrite report_step_calls.
  destruct (handle_email_calls features
              (firewall_step policy e severity ip rule ioc_hit) severity d)
    as [-> ->].
  destruct (firewall_step_calls policy e severity ip rule ioc_hit) as [-> ->].
  by rewrite <- !app_assoc.
Qed.

Lemma report_step_latch (e : Engine World) d :
  _pdf_generated_for_run e = true →
  report_step e d = e.
Proof. unfold report_step. by intros ->. Qed.

Lemma response_steps_latch policy features (e : Engine World) d
    severity ip rule ioc_hit :
  _pdf_generated_for_run e = true →
  _pdf_generated_for_run
    (response_steps policy features e d severity ip rule ioc_hit) = true.
Proof.
  intros Hl. unfold response_steps. cbv zeta.
  rewrite report_step_latch; rewrite (proj2 (handle_email_calls _ _ _ _));
    by rewrite (proj2 (firewall_step_calls _ _ _ _ _ _)).
Qed.

Lemma handle_detection_cases policy features now (e : Engine World) d :
  handle_detection policy features now e d
  = if negb (Det.truthy d) then e
    else if bool_decide (is_Some (_cleanup_old_incidents now
                                    (_handled_incidents e) !! key_of d))
    then with_handled e (_cleanup_old_incidents now (_handled_incidents e))
    else response_steps policy features
           (with_handled e
              (<[ key_of d := now ]>
                 (_cleanup_old_incidents now (_handled_incidents e))))
           d (default (lit "Low") (Det.severity d))
           (default (lit "UNKNOWN") (Det.ip d))
           (default (lit "Unknown Threat") (Det.rule d))
           (default false (Det.ioc_hit d)).
Proof. reflexivity. Qed.

Lemma handle_detection_handled policy features now (e : Engine World) d :
  Det.truthy d = true →
  _handled_incidents (handle_detection policy features now e d)
  = if bool_decide (is_Some (_cleanup_old_incidents now
                               (_handled_incidents e) !! key_of d))
    then _cleanup_old_incidents now (_handled_incidents e)
    else <[ key_of d := now ]>
           (_cleanup_old_incidents now (_handled_incidents e)).
Proof.
  intros Ht. rewrite handle_detection_cases, Ht. cbn [negb].
  case_bool_decide; [done|]. by rewrite response_steps_handled.
Qed.

Lemma filter_generate_steps policy features (w : World) severity ip rule
    ioc_hit d :
  List.filter is_generate
    (block_calls policy w severity ip rule ioc_hit
     ++ email_calls features severity d) = [].
Proof.
  rewrite List.filter_app. unfold block_calls, email_calls.
  repeat case_match; reflexivity.
Qed.

Lemma filter_send_alert_steps policy features (w : World) severity ip rule
    ioc_hit d (latch : bool) :
  List.filter is_send_alert
    (block_calls policy w severity ip rule ioc_hit
     ++ email_calls features severity d
     ++ (if latch then [] else [Generate d]))
  = email_calls features severity d.
Proof.
  rewrite !List.filter_app. unfold block_calls, email_calls.
  repeat case_match; reflexivity.
Qed.

Lemma handle_detection_latched policy features now (e : Engine World) d :
  _pdf_generated_for_run e = true →
  _pdf_generated_for_run (handle_detection policy features now e d) = true
  ∧ List.filter is_generate (calls (handle_detection policy features now e d))
    = List.filter is_generate (calls e).
Proof.
  intros Hl. rewrite handle_detection_cases.
  destruct (Det.truthy d); cbn [negb]; [|done].
  case_bool_decide; [done|]. split.
  - by apply response_steps_latch.
  - rewrite response_steps_calls. cbn [with_handled
      _pdf_generated_for_run calls world].
    rewrite Hl, app_nil_r.
    rewrite (List.filter_app _ (calls e)), filter_generate_steps.
    by rewrite app_nil_r.
Qed.

Lemma with_handled_same (e : Engine World) :
  with_handled e (_handled_incidents e) = e.
Proof. by destruct e. Qed.

End ResponderCalls.

Section SocWorldFacts.
Import Responder ResponderTrace.
Context `{Firewall.Subprocess}.

Lemma soc_email_fw features (e : Engine SocWorld) severity d :
  fw (world (_handle_email features e severity d)) = fw (world e).
Proof.
  unfold _handle_email.
  destruct (default false (EMAIL_ALERTS features)); cbn [negb]; [|done].
  destruct (default false (EMAIL_ALL_DETECTIONS features));
    [|destruct (eqb severity (lit "High") || eqb severity (lit "Critical"));
      [|done]].
  all: cbn [alerter_send_alert soc_collaborators];
    by destruct (mailer_up (world e)).
Qed.

Lemma soc_report_fw (e : Engine SocWorld) d :
  fw (world (report_step e d)) = fw (world e).
Proof.
  unfold report_step. destruct (_pdf_generated_for_run e); [done|].
  cbn [reporter_generate soc_collaborators].
  by destruct (reporter_up (world e)).
Qed.

Lemma soc_firewall_fw policy (e : Engine SocWorld) severity ip rule ioc_hit :
  Firewall.block_ip (fw_policy (world e)) (fw_clock (world e)) (fw (world e))
    ip rule ioc_hit = (false, fw (world e)) →
  fw (world (firewall_step policy e severity ip rule ioc_hit)) = fw (world e).
Proof.
  intros Hb. unfold firewall_step, _handle_firewall.
  destruct (default false (ENABLED policy)); cbn [negb]; [|done].
  destruct ((if default true (REQUIRE_IOC policy)
             then eqb severity (lit "Critical") && ioc_hit
             else eqb severity (lit "Critical"))
            && truthy ip && negb (eqb ip (lit "UNKNOWN"))); [|done].
  cbn [firewall_block_ip soc_collaborators]. rewrite Hb. done.
Qed.

End SocWorldFacts.

(** X7.  What a detection that is not suppressed makes the engine call,
    in this order: the firewall (and, when [block_ip] returned, the
    signal) if the policy asks for a block; the mailer if alerts are on
    and the detection is High or Critical or all detections are mailed;
    the report generator unless a report was made in this run.  Whether
    an earlier call raised does not change the later ones. *)
Theorem handle_detection_calls
    {World : Type} (collab : Responder.Collaborators World)
    policy features (now : Z) (e : Responder.Engine World) (d : Detection) :
  Det.truthy d = true →
  Responder._cleanup_old_incidents now (Responder._handled_incidents e)
    !! Responder.key_of d = None →
  let severity := default (lit "Low") (Det.severity d) in
  let ip := default (lit "UNKNOWN") (Det.ip d) in
  let rule := default (lit "Unknown Threat") (Det.rule d) in
  let ioc_hit := default false (Det.ioc_hit d) in
  Responder.calls (Responder.handle_detection policy features now e d)
  = Responder.calls e
    ++ ResponderTrace.block_calls policy (Responder.world e)
         severity ip rule ioc_hit
    ++ ResponderTrace.email_calls features severity d
    ++ (if Responder._pdf_generated_for_run e then []
        else [Responder.Generate d]).
Proof.
  intros Ht Hfresh severity ip rule ioc_hit.
  rewrite (handle_detection_fresh _ _ _ _ _ Ht Hfresh).
  by rewrite response_steps_calls.
Qed.

Lemma handle_detection_calls_witness :
  let d :=
    {| Det.rule := Some (lit "XSS");
       Det.severity := Some (lit "High");
       Det.ip := Some (lit "203.0.113.9");
       Det.time := Some (lit "UNKNOWN");
       Det.payload := Some (lit "<script>");
       Det.raw := Some (lit "<SCRIPT>");
       Det.ioc_hit := Some false |} in
  let e :=
    {| Responder._handled_incidents := ∅;
       Responder._pdf_generated_for_run := true;
       Responder.world := tt; Responder.calls := [] |} in
  Responder.calls
    (@Responder.handle_detection _ Responder.all_raise
       {| ENABLED := Some true; REQUIRE_IOC := Some true |} FEATURES 0 e d)
  = [Responder.SendAlert d].
Proof.
  intros d e.
  exact (handle_detection_calls Responder.all_raise
           {| ENABLED := Some true; REQUIRE_IOC := Some true |} FEATURES 0 e d
           eq_refl eq_refl).
Defined.

(** X8.  With the firewall controller of response/firewall.py behind
    the engine: when a detection calls for a block and the controller
    refuses it (a guarded prefix, an address already in the ledger, a
    policy that is off), the firewall state stays as it was, yet the
    engine has called [block_ip] and emitted the [ip_blocked] signal. *)
Theorem ip_blocked_signalled_for_refused_address (env : Firewall.Subprocess)
    policy features (now : Z) (e : Responder.Engine Responder.SocWorld)
    (d : Detection) :
  let w := Responder.world e in
  let ip := default (lit "UNKNOWN") (Det.ip d) in
  let rule := default (lit "Unknown Threat") (Det.rule d) in
  let ioc_hit := default false (Det.ioc_hit d) in
  Det.truthy d = true →
  Responder._cleanup_old_incidents now (Responder._handled_incidents e)
    !! Responder.key_of d = None →
  default false (ENABLED policy) = true →
  Det.severity d = Some (lit "Critical") →
  (default true (REQUIRE_IOC policy) = true → ioc_hit = true) →
  ip ≠ [] → ip ≠ lit "UNKNOWN" →
  Firewall.block_ip (Responder.fw_policy w) (Responder.fw_clock w)
    (Responder.fw w) ip rule ioc_hit = (false, Responder.fw w) →
  let e' := @Responder.handle_detection _ (@Responder.soc_collaborators env)
              policy features now e d in
  Responder.fw (Responder.world e') = Responder.fw w
  ∧ ∃ later,
      Responder.calls e'
      = Responder.calls e
        ++ [Responder.BlockIp ip rule ioc_hit; Responder.IpBlocked] ++ later.
Proof.
  intros w ip rule ioc_hit Ht Hfresh Hen Hsev Hreq Hip Hunk Hres e'.
  split.
  - unfold e'. rewrite (handle_detection_fresh _ _ _ _ _ Ht Hfresh).
    unfold Responder.response_steps. cbv zeta.
    rewrite soc_report_fw, soc_email_fw, soc_firewall_fw; [done|exact Hres].
  - unfold e'.
    rewrite (handle_detection_calls _ policy features now e d Ht Hfresh).
    cbv zeta. fold ip rule ioc_hit. rewrite Hsev.
    change (default (lit "Low") (Some (lit "Critical"))) with (lit "Critical").
    unfold ResponderTrace.block_calls. rewrite Hen.
    assert ((if default true (REQUIRE_IOC policy)
             then eqb (lit "Critical") (lit "Critical") && ioc_hit
             else eqb (lit "Critical") (lit "Critical")) = true) as ->.
    { replace (eqb (lit "Critical") (lit "Critical")) with true
        by (symmetry; by apply eqb_true).
      destruct (default true (REQUIRE_IOC policy)); [|done].
      by rewrite Hreq. }
    assert (truthy ip = true) as -> by (by destruct ip).
    assert (eqb ip (lit "UNKNOWN") = false) as -> by (by apply eqb_false).
    cbn [andb negb].
    cbn [Responder.firewall_block_ip Responder.soc_collaborators].
    fold w. rewrite Hres. cbn [fst].
    eexists. reflexivity.
Qed.

Lemma ip_blocked_signalled_for_refused_address_witness :
  let d :=
    {| Det.rule := Some (lit "SQL Injection");
       Det.severity := Some (lit "Critical");
       Det.ip := Some (lit "10.0.0.5");
       Det.time := Some (lit "UNKNOWN");
       Det.payload := Some (lit "union select");
       Det.raw := Some (lit "UNION SELECT");
       Det.ioc_hit := Some true |} in
  let policy := {| ENABLED := Some true; REQUIRE_IOC := Some true |} in
  let st :=
    {| Firewall.os_type := lit "Windows";
       Firewall.ledger_file := Firewall.Readable ∅;
       Firewall.spawned := [] |} in
  let w :=
    {| Responder.fw := st;
       Responder.fw_policy := policy; Responder.fw_clock := 1000;
       Responder.mailer_up := true; Responder.reporter_up := true;
       Responder.mailed := []; Responder.reported := [] |} in
  let e :=
    {| Responder._handled_incidents := ∅;
       Responder._pdf_generated_for_run := false;
       Responder.world := w; Responder.calls := [] |} in
  let e' := @Responder.handle_detection _
              (@Responder.soc_collaborators Firewall.popen_works)
              policy FEATURES 1000 e d in
  Responder.fw (Responder.world e') = st
  ∧ ∃ later,
      Responder.calls e'
      = [Responder.BlockIp (lit "10.0.0.5") (lit "SQL Injection") true;
         Responder.IpBlocked] ++ later.
Proof.
  intros d policy st w e e'.
  apply (ip_blocked_signalled_for_refused_address Firewall.popen_works
           policy FEATURES 1000 e d).
  - reflexivity.
  - reflexivity.
  - reflexivity.
  - reflexivity.
  - reflexivity.
  - discriminate.
  - vm_compute. discriminate.
  - vm_compute. reflexivity.
Defined.

(** X9.  The one-report latch.  Once it is set, [handle_detection]
    never calls the report generator and never clears it.  While it is
    unset, a detection that is not suppressed calls the generator once,
    and the latch is set afterwards exactly when that call returned. *)
Theorem report_latch
    {World : Type} (collab : Responder.Collaborators World)
    policy features (now : Z) (e : Responder.Engine World) (d : Detection) :
  let e' := Responder.handle_detection policy features now e d in
  (Responder._pdf_generated_for_run e = true →
   Responder._pdf_generated_for_run e' = true
   ∧ List.filter ResponderTrace.is_generate (Responder.calls e')
     = List.filter ResponderTrace.is_generate (Responder.calls e))
  ∧ (Responder._pdf_generated_for_run e = false →
     Det.truthy d = true →
     Responder._cleanup_old_incidents now (Responder._handled_incidents e)
       !! Responder.key_of d = None →
     let severity := default (lit "Low") (Det.severity d) in
     let e2 :=
       Responder._handle_email features
         (Responder.firewall_step policy
            (Responder.with_handled e
               (<[ Responder.key_of d := now ]>
                  (Responder._cleanup_old_incidents now
                     (Responder._handled_incidents e))))
            severity (default (lit "UNKNOWN") (Det.ip d))
            (default (lit "Unknown Threat") (Det.rule d))
            (default false (Det.ioc_hit d)))
         severity d in
     List.filter ResponderTrace.is_generate (Responder.calls e')
     = List.filter ResponderTrace.is_generate (Responder.calls e)
       ++ [Responder.Generate d]
     ∧ Responder._pdf_generated_for_run e'
       = ResponderTrace.returned
           (Responder.reporter_generate (Responder.world e2) d).1).
Proof.
  intros e'. split.
  - intros Hl. unfold e'. rewrite handle_detection_cases.
    destruct (Det.truthy d); cbn [negb]; [|done].
    case_bool_decide; [done|]. split.
    + by apply response_steps_latch.
    + rewrite response_steps_calls. cbn [Responder.with_handled
        Responder._pdf_generated_for_run Responder.calls Responder.world].
      rewrite Hl, app_nil_r, !List.filter_app.
      unfold ResponderTrace.block_calls, ResponderTrace.email_calls.
      repeat case_match; cbn; by rewrite ?app_nil_r.
  - intros Hl Ht Hfresh severity e2. split.
    + unfold e'.
      rewrite (handle_detection_calls _ policy features now e d Ht Hfresh).
      cbv zeta. rewrite Hl, !List.filter_app.
      unfold ResponderTrace.block_calls, ResponderTrace.email_calls.
      repeat case_match; cbn; by rewrite ?app_nil_r.
    + unfold e'. rewrite (handle_detection_fresh _ _ _ _ _ Ht Hfresh).
      unfold Responder.response_steps. cbv zeta. fold severity. fold e2.
      assert (Responder._pdf_generated_for_run e2 = false) as Hl2.
      { unfold e2. rewrite (proj2 (handle_email_calls _ _ _ _)).
        by rewrite (proj2 (firewall_step_calls _ _ _ _ _ _)). }
      unfold Responder.report_step. rewrite Hl2.
      by destruct (Responder.reporter_generate (Responder.world e2) d)
        as [[?|] ?].
Qed.

Lemma report_latch_witness :
  let d :=
    {| Det.rule := Some (lit "XSS");
       Det.severity := Some (lit "High");
       Det.ip := Some (lit "203.0.113.9");
       Det.time := Some (lit "UNKNOWN");
       Det.payload := Some (lit "<script>");
       Det.raw := Some (lit "<SCRIPT>");
       Det.ioc_hit := Some false |} in
  let e latch :=
    {| Responder._handled_incidents := ∅;
       Responder._pdf_generated_for_run := latch;
       Responder.world := tt; Responder.calls := [] |} in
  let run latch :=
    @Responder.handle_detection _ Responder.all_raise
      AUTO_BLOCK FEATURES 0 (e latch) d in
  (Responder._pdf_generated_for_run (run true) = true
   ∧ List.filter ResponderTrace.is_generate (Responder.calls (run true)) = [])
  ∧ (List.filter ResponderTrace.is_generate (Responder.calls (run false))
     = [Responder.Generate d]
     ∧ Responder._pdf_generated_for_run (run false) = false).
Proof.
  intros d e run. split.
  - exact (proj1 (report_latch Responder.all_raise AUTO_BLOCK FEATURES 0
                    (e true) d) eq_refl).
  - exact (proj2 (report_latch Responder.all_raise AUTO_BLOCK FEATURES 0
                    (e false) d) eq_refl eq_refl eq_refl).
Defined.

(** X10.  After a detection has been handled at the reading [now], the
    dedup table holds no entry older than the ten-minute lifetime, and
    every entry is one the table held before or the entry of this
    detection.  An empty detection leaves the engine as it was. *)
Theorem dedup_table_is_pruned
    {World : Type} (collab : Responder.Collaborators World)
    policy features (now : Z) (e : Responder.Engine World) (d : Detection) :
  let e' := Responder.handle_detection policy features now e d in
  (Det.truthy d = true →
   ∀ k ts, Responder._handled_incidents e' !! k = Some ts →
     (now - ts ≤ Responder._dedup_ttl)%Z
     ∧ (Responder._handled_incidents e !! k = Some ts
        ∨ (k = Responder.key_of d ∧ ts = now)))
  ∧ (Det.truthy d = false → e' = e).
Proof.
  intros e'. split.
  - intros Ht k ts. unfold e'. rewrite (handle_detection_handled _ _ _ _ _ Ht).
    case_bool_decide as Hk.
    + intros Hs. apply cleanup_lookup_Some in Hs as [Hs Hage]. by split; [|left].
    + destruct (decide (k = Responder.key_of d)) as [->|Hne].
      * rewrite lookup_insert_eq. intros [= <-]. split; [|by right].
        unfold Responder._dedup_ttl. lia.
      * rewrite lookup_insert_ne by done. intros Hs.
        apply cleanup_lookup_Some in Hs as [Hs Hage]. by split; [|left].
  - intros Hf. unfold e'. rewrite handle_detection_cases, Hf. done.
Qed.

Lemma dedup_table_is_pruned_witness :
  let d :=
    {| Det.rule := Some (lit "XSS");
       Det.severity := Some (lit "High");
       Det.ip := Some (lit "203.0.113.9");
       Det.time := None; Det.payload := None; Det.raw := None;
       Det.ioc_hit := None |} in
  let old := (lit "198.51.100.4", lit "XSS", lit "High") in
  let e :=
    {| Responder._handled_incidents := <[ old := 0%Z ]> ∅;
       Responder._pdf_generated_for_run := true;
       Responder.world := tt; Responder.calls := [] |} in
  let e' := @Responder.handle_detection _ Responder.all_raise
              AUTO_BLOCK FEATURES 600000001 e d in
  Responder._handled_incidents e' !! old = None
  ∧ Responder._handled_incidents e' !! Responder.key_of d = Some 600000001%Z
  ∧ @Responder.handle_detection _ Responder.all_raise
      AUTO_BLOCK FEATURES 600000001 e Det.empty = e.
Proof.
  intros d old e e'.
  pose proof (dedup_table_is_pruned Responder.all_raise AUTO_BLOCK FEATURES
                600000001 e d) as [Hp Hempty].
  split; [|split].
  - destruct (Responder._handled_incidents e' !! old) as [ts|] eqn:Hold;
      [|done].
    destruct (Hp eq_refl old ts Hold) as [Hage [Hin|[Hk _]]].
    + exfalso. vm_compute in Hin. injection Hin as <-.
      vm_compute in Hage. by apply Hage.
    + exfalso. vm_compute in Hk. discriminate.
  - vm_compute. reflexivity.
  - exact (proj2 (dedup_table_is_pruned Responder.all_raise AUTO_BLOCK FEATURES
                    600000001 e Det.empty) eq_refl).
Defined.

Section DetectorMore.
Import SeverityMap Detector.
Context `{Regex}.

(** The rule names of the detections made for the rules that matched. *)
Lemma rule_detections_names (rules : list (list N * string))
    (keep : list N * string → bool) payload ip timestamp raw h :
  map Det.rule
    (map (λ np : list N * string,
            rule_detection np.1 payload ip timestamp raw h)
         (List.filter keep rules))
  = map Some ((List.filter keep rules).*1).
Proof.
  induction (List.filter keep rules) as [|[name pat] l IH]; [done|].
  cbn [map fmap list_fmap fst]. f_equal. exact IH.
Qed.

Lemma filter_fst_NoDup {A B} (keep : A * B → bool) (l : list (A * B)) :
  NoDup (l.*1) → NoDup ((List.filter keep l).*1).
Proof.
  induction l as [|[a b] l IH]; [done|].
  cbn [fmap list_fmap fst List.filter]. intros Hnd.
  apply NoDup_cons in Hnd as [Hnotin Hnd].
  destruct (keep (a, b)); [|by apply IH].
  cbn [fmap list_fmap fst]. apply NoDup_cons. split; [|by apply IH].
  intros Hin. apply Hnotin.
  apply list_elem_of_fmap in Hin as ([a' b'] & -> & Hin).
  apply list_elem_of_In, filter_In in Hin as [Hin _].
  apply list_elem_of_fmap. exists (a', b'). split; [done|].
  by apply list_elem_of_In.
Qed.

Lemma filter_length_le {A} (keep : A → bool) (l : list A) :
  length (List.filter keep l) ≤ length l.
Proof.
  induction l as [|a l IH]; [done|]. cbn [List.filter].
  destruct (keep a); cbn [length]; lia.
Qed.

Lemma analyze_entry_rules_NoDup ioc_engine (entry : gmap string (list N)) :
  NoDup (map Det.rule (analyze_entry ioc_engine entry))
  ∧ length (analyze_entry ioc_engine entry) ≤ length DETECTION_RULES.
Proof.
  rewrite analyze_entry_unfold. cbv zeta.
  generalize rule_names_distinct.
  assert (1 ≤ length DETECTION_RULES) as Hone by (vm_compute; lia).
  revert Hone.
  generalize DETECTION_RULES. intros rules Hone Hnd.
  set (keep := λ np : list N * string, re_search np.2 (payload_of entry)).
  assert (NoDup (map Det.rule
            (map (λ np : list N * string,
                    rule_detection np.1 (payload_of entry)
                      (default (lit "UNKNOWN") (entry !! "ip"%string))
                      (default (lit "UNKNOWN") (entry !! "time"%string))
                      (raw_of entry)
                      (ioc_check ioc_engine
                         (default (lit "UNKNOWN") (entry !! "ip"%string))))
                 (List.filter keep rules)))) as Hrules.
  { rewrite rule_detections_names.
    apply (NoDup_fmap_2 Some). by apply filter_fst_NoDup. }
  pose proof (filter_length_le keep rules) as Hlen.
  revert Hrules.
  generalize (ioc_check ioc_engine
                (default (lit "UNKNOWN") (entry !! "ip"%string))).
  intros h Hrules.
  destruct (List.filter keep rules) as [|np l].
  - cbn [map nonempty negb]. rewrite andb_true_r.
    destruct h; cbn [app map length].
    + split; [apply NoDup_singleton|done].
    + split; [apply NoDup_nil_2|lia].
  - cbn [nonempty negb map]. rewrite andb_false_r.
    split; [exact Hrules|]. cbn [length map] in *. rewrite length_map. exact Hlen.
Qed.

End DetectorMore.

Section DetectorFields.
Import SeverityMap Detector.
Context `{Regex}.

Lemma analyze_entry_fields ioc_engine (entry : gmap string (list N)) :
  Forall
    (λ d : Detection,
       Det.ip d = Some (default (lit "UNKNOWN") (entry !! "ip"%string))
       ∧ Det.time d = Some (default (lit "UNKNOWN") (entry !! "time"%string))
       ∧ Det.raw d = Some (raw_of entry)
       ∧ Det.ioc_hit d
         = Some (ioc_check ioc_engine
                   (default (lit "UNKNOWN") (entry !! "ip"%string))))
    (analyze_entry ioc_engine entry).
Proof.
  rewrite analyze_entry_unfold. cbv zeta.
  generalize DETECTION_RULES. intros rules.
  set (keep := λ np : list N * string, re_search np.2 (payload_of entry)).
  assert (∀ h,
    Forall
      (λ d : Detection,
         Det.ip d = Some (default (lit "UNKNOWN") (entry !! "ip"%string))
         ∧ Det.time d = Some (default (lit "UNKNOWN") (entry !! "time"%string))
         ∧ Det.raw d = Some (raw_of entry)
         ∧ Det.ioc_hit d = Some h)
      (map (λ np : list N * string,
              rule_detection np.1 (payload_of entry)
                (default (lit "UNKNOWN") (entry !! "ip"%string))
                (default (lit "UNKNOWN") (entry !! "time"%string))
                (raw_of entry) h)
           (List.filter keep rules))) as Hrules.
  { intros h. apply Forall_forall. intros d Hd.
    apply list_elem_of_fmap in Hd as (np & -> & _). done. }
  destruct (ioc_check ioc_engine
              (default (lit "UNKNOWN") (entry !! "ip"%string))) eqn:Hh;
    cbn [andb]; [|apply Hrules].
  destruct (negb (nonempty _)); [|apply Hrules].
  apply Forall_app_2; [apply Hrules|]. apply Forall_singleton. done.
Qed.

Lemma analyze_entry_hit ioc_engine (entry : gmap string (list N)) :
  ioc_check ioc_engine (default (lit "UNKNOWN") (entry !! "ip"%string)) = true →
  analyze_entry ioc_engine entry ≠ [].
Proof.
  intros Hh. rewrite analyze_entry_unfold. cbv zeta. rewrite Hh. cbn [andb].
  generalize DETECTION_RULES. intros rules.
  destruct (map _ (List.filter _ rules)); [|done].
  cbn [nonempty negb app]. done.
Qed.

Lemma analyze_entry_nothing ioc_engine (entry : gmap string (list N)) :
  ioc_check ioc_engine (default (lit "UNKNOWN") (entry !! "ip"%string))
    = false →
  (∀ np, np ∈ DETECTION_RULES → re_search np.2 (payload_of entry) = false) →
  analyze_entry ioc_engine entry = [].
Proof.
  intros Hh. rewrite analyze_entry_unfold. cbv zeta. rewrite Hh. cbn [andb].
  generalize DETECTION_RULES. intros rules Hno.
  by rewrite filter_all_false.
Qed.

Lemma analyze_entry_engine ioc_engine1 ioc_engine2
    (entry : gmap string (list N)) :
  ioc_check ioc_engine1 (default (lit "UNKNOWN") (entry !! "ip"%string))
  = ioc_check ioc_engine2 (default (lit "UNKNOWN") (entry !! "ip"%string)) →
  analyze_entry ioc_engine1 entry = analyze_entry ioc_engine2 entry.
Proof.
  intros Hh. rewrite !analyze_entry_unfold. cbv zeta. rewrite Hh. done.
Qed.

Lemma shipped_rules_no_scanner :
  Forall (λ name, contains (lit "Scanner") name = false)
         (lit "Threat Intelligence Match" :: DETECTION_RULES.*1).
Proof. by_compute. Qed.

Lemma analyze_entry_no_scanner ioc_engine (entry : gmap string (list N)) :
  Forall (λ d, Correlation.is_scanner d = false)
         (analyze_entry ioc_engine entry).
Proof.
  rewrite analyze_entry_unfold. cbv zeta.
  pose proof shipped_rules_no_scanner as Hnames.
  apply Forall_cons in Hnames as [Hti Hnames].
  revert Hnames. generalize DETECTION_RULES. intros rules Hnames.
  set (keep := λ np : list N * string, re_search np.2 (payload_of entry)).
  generalize (ioc_check ioc_engine
                (default (lit "UNKNOWN") (entry !! "ip"%string))).
  intros h.
  assert (Forall (λ d, Correlation.is_scanner d = false)
            (map (λ np : list N * string,
                    rule_detection np.1 (payload_of entry)
                      (default (lit "UNKNOWN") (entry !! "ip"%string))
                      (default (lit "UNKNOWN") (entry !! "time"%string))
                      (raw_of entry) h)
                 (List.filter keep rules))) as Hrules.
  { eapply Forall_impl; [apply rule_detections_shape|].
    intros d (name & Hin & Hrule & _).
    unfold Correlation.is_scanner. rewrite Hrule. cbn [default from_option id].
    rewrite Forall_forall in Hnames. by apply Hnames. }
  destruct (h && negb (nonempty _)); [|exact Hrules].
  apply Forall_app_2; [exact Hrules|]. apply Forall_singleton.
  exact Hti.
Qed.

Lemma analyze_batch_no_scanner ioc_engine
    (entries : list (gmap string (list N))) :
  Forall (λ d, Correlation.is_scanner d = false)
         (analyze_batch ioc_engine entries).
Proof.
  unfold analyze_batch. induction entries as [|entry rest IH]; [constructor|].
  cbn [flat_map]. apply Forall_app_2; [apply analyze_entry_no_scanner|exact IH].
Qed.

End DetectorFields.

Section CorrelationMore.
Import Correlation CorrelationSpec.
Context `{TimeLib}.
Variable minutes : Z.

Lemma filter_loop_sublist cutoff (events : list Detection) (n : nat) :
  (filter_loop cutoff events n).1 `sublist_of` events.
Proof.
  revert n. induction events as [|e rest IH]; intros n; [done|].
  cbn [filter_loop].
  destruct (_parse_time (Det.time e) n) as [event_time n1].
  specialize (IH n1).
  destruct (filter_loop cutoff rest n1) as [filtered n2]. cbn [fst] in *.
  destruct (match datetime_ge event_time cutoff with
            | Returned b => b
            | Raised => true
            end).
  - by apply sublist_skip.
  - by apply sublist_cons.
Qed.

Lemma filter_window_sublist (events : list Detection) (n : nat) :
  (_filter_time_window minutes events n).1 `sublist_of` events.
Proof.
  unfold _filter_time_window. destruct (last events) as [latest|].
  - destruct (_parse_time (Det.time latest) n) as [latest_time n1].
    apply filter_loop_sublist.
  - apply sublist_nil_l.
Qed.

Lemma filter_subseteq {A} (f : A → bool) (l : list A) :
  List.filter f l ⊆ l.
Proof.
  intros x Hx. apply list_elem_of_In, filter_In in Hx as [Hx _].
  by apply list_elem_of_In.
Qed.

(** The incidents of one address: each names the address, counts its
    evidence, and takes its evidence from the events. *)
Lemma analyze_ip_sound (ip0 : list N) (events : list Detection) :
  Forall (λ i, ip i = ip0 ∧ evidence i ⊆ events
               ∧ count i = length (evidence i))
         (_analyze_ip ip0 events).
Proof.
  destruct events as [|e rest]; [constructor|].
  unfold _analyze_ip. generalize (e :: rest). clear e rest. intros events.
  repeat apply Forall_app_2;
    (match goal with |- Forall _ (if ?c then _ else _) => destruct c end;
     [apply Forall_singleton|by apply Forall_nil_2]);
    cbn [ip evidence count type].
  - split; [done|]. split; [apply filter_subseteq|done].
  - split; [done|]. split; [|by rewrite length_app].
    intros x Hx. apply elem_of_app in Hx as [Hx|Hx];
      by apply filter_subseteq in Hx.
  - split; [done|]. split; [apply filter_subseteq|done].
  - split; [done|]. split; done.
Qed.

Lemma group_append_keys groups key d :
  (group_append groups key d).*1
  = if bool_decide (key ∈ groups.*1) then groups.*1 else groups.*1 ++ [key].
Proof.
  induction groups as [|[k0 g0] rest IH]; cbn [group_append].
  - by rewrite bool_decide_eq_false_2 by apply not_elem_of_nil.
  - destruct (eqb k0 key) eqn:Hk.
    + apply eqb_true in Hk as ->. cbn [fmap list_fmap fst].
      rewrite bool_decide_eq_true_2; [done|by left].
    + apply eqb_false in Hk. cbn [fmap list_fmap fst]. rewrite IH.
      case_bool_decide as Hin.
      * rewrite bool_decide_eq_true_2; [done|by right].
      * rewrite bool_decide_eq_false_2; [done|].
        intros Hin'. apply elem_of_cons in Hin' as [->|Hin']; done.
Qed.

Lemma group_append_lookup groups key d k :
  NoDup (groups.*1) →
  ∀ g, (k, g) ∈ group_append groups key d ↔
       (k ≠ key ∧ (k, g) ∈ groups)
       ∨ (k = key ∧ ∃ g0, g = g0 ++ [d]
                          ∧ ((key, g0) ∈ groups
                             ∨ (g0 = [] ∧ key ∉ groups.*1))).
Proof.
  induction groups as [|[k0 g0] rest IH]; intros Hnd g; cbn [group_append].
  - rewrite list_elem_of_singleton. split.
    + intros [= -> ->]. right. split; [done|]. exists []. split; [done|].
      right. split; [done|]. apply not_elem_of_nil.
    + intros [[_ Hin]|(-> & g1 & -> & [Hin|[-> _]])].
      * by apply elem_of_nil in Hin.
      * by apply elem_of_nil in Hin.
      * done.
  - cbn [fmap list_fmap fst] in Hnd. apply NoDup_cons in Hnd as [Hnotin Hnd].
    destruct (eqb k0 key) eqn:Hk.
    + apply eqb_true in Hk as ->. rewrite !elem_of_cons. split.
      * intros [[= -> ->]|Hin].
        -- right. split; [done|]. exists g0. split; [done|]. left. by left.
        -- left. split; [|by right]. intros ->. apply Hnotin.
           apply list_elem_of_fmap. by exists (key, g).
      * intros [[Hne [[= -> ->]|Hin]]|(-> & g1 & -> & [Hin|[-> Hnot]])].
        -- done.
        -- by right.
        -- apply elem_of_cons in Hin as [[= ->]|Hin]; [by left|].
           exfalso. apply Hnotin. apply list_elem_of_fmap. by exists (key, g1).
        -- exfalso. apply Hnot. cbn [fmap list_fmap fst]. by left.
    + apply eqb_false in Hk. rewrite !elem_of_cons, (IH Hnd). split.
      * intros [[= -> ->]|[[Hne Hin]|(-> & g1 & -> & [Hin|[-> Hnot]])]].
        -- left. split; [done|by left].
        -- left. split; [done|by right].
        -- right. split; [done|]. exists g1. split; [done|]. left.
           by apply elem_of_cons; right.
        -- right. split; [done|]. exists []. split; [done|]. right.
           split; [done|]. cbn [fmap list_fmap fst].
           intros Hin'. apply elem_of_cons in Hin' as [->|Hin']; done.
      * intros [[Hne [[= -> ->]|Hin]]|(-> & g1 & -> & [Hin|[-> Hnot]])].
        -- by left.
        -- right. left. done.
        -- apply elem_of_cons in Hin as [[= -> ->]|Hin]; [done|].
           right. right. split; [done|]. exists g1. split; [done|]. by left.
        -- right. right. split; [done|]. exists []. split; [done|]. right.
           split; [done|]. intros Hin'. apply Hnot. cbn [fmap list_fmap fst].
           by right.
Qed.

Lemma grouped_step groups ds d :
  grouped groups ds →
  grouped (group_append groups (ip_key d) d) (ds ++ [d]).
Proof.
  intros (Hnd & Hgroups & Hkeys). split; [|split].
  - rewrite group_append_keys. case_bool_decide as Hin; [done|].
    apply NoDup_app. split; [done|]. split; [|apply NoDup_singleton].
    intros x Hx Hx'. apply list_elem_of_singleton in Hx' as ->. done.
  - intros k g Hin. apply (group_append_lookup _ _ _ _ Hnd) in Hin.
    rewrite List.filter_app. cbn [List.filter].
    destruct Hin as [[Hne Hin]|(-> & g0 & -> & [Hin|[-> Hnot]])].
    + destruct (Hgroups _ _ Hin) as [Hne' ->]. split; [done|].
      assert (eqb (ip_key d) k = false) as -> by (apply eqb_false; congruence).
      by rewrite app_nil_r.
    + destruct (Hgroups _ _ Hin) as [Hne' ->].
      assert (eqb (ip_key d) (ip_key d) = true) as -> by (by apply eqb_true).
      split; [|done]. by destruct (List.filter _ ds).
    + assert (eqb (ip_key d) (ip_key d) = true) as -> by (by apply eqb_true).
      split; [done|].
      rewrite (filter_all_false (λ d0, eqb (ip_key d0) (ip_key d)) ds); [done|].
      intros x Hx. apply eqb_false. intros Heq. apply Hnot. rewrite <- Heq.
      by apply Hkeys.
  - intros x Hx. rewrite group_append_keys.
    apply elem_of_app in Hx as [Hx|Hx].
    + case_bool_decide; [by apply Hkeys|].
      apply elem_of_app. left. by apply Hkeys.
    + apply list_elem_of_singleton in Hx as ->.
      case_bool_decide as Hin; [done|]. apply elem_of_app. right. by left.
Qed.

Lemma group_by_ip_grouped (ds : list Detection) :
  grouped (group_by_ip ds) ds.
Proof.
  unfold group_by_ip. induction ds as [|d ds IH] using rev_ind.
  - split; [constructor|]. split; [intros k g Hin|intros d Hin];
      by apply elem_of_nil in Hin.
  - rewrite fold_left_app. cbn [fold_left]. by apply grouped_step.
Qed.

(** The order on time strings. *)
Lemma ltb_asym (a b : list N) : ltb a b = true → ltb b a = false.
Proof.
  revert b. induction a as [|x a IH]; intros [|y b]; cbn [ltb]; try done.
  intros Hab. apply orb_true_iff in Hab as [Hlt|Heq].
  - apply N.ltb_lt in Hlt.
    assert ((y <? x)%N = false) as -> by (apply N.ltb_ge; lia).
    assert ((y =? x)%N = false) as -> by (apply N.eqb_neq; lia).
    done.
  - apply andb_true_iff in Heq as [Heq Hab]. apply N.eqb_eq in Heq as ->.
    rewrite N.ltb_irrefl, N.eqb_refl. cbn [orb andb]. by apply IH.
Qed.

Lemma ltb_ge_trans (a b c : list N) :
  ltb a b = false → ltb b c = false → ltb a c = false.
Proof.
  revert b c. induction a as [|x a IH]; intros [|y b] [|z c];
    cbn [ltb]; try done.
  intros Hab Hbc.
  apply orb_false_iff in Hab as [Hxy Hab].
  apply orb_false_iff in Hbc as [Hyz Hbc].
  apply N.ltb_ge in Hxy, Hyz.
  apply orb_false_iff. split; [apply N.ltb_ge; lia|].
  destruct (x =? z)%N eqn:Hxz; [|done]. apply N.eqb_eq in Hxz as ->.
  assert (y = z) as -> by lia.
  rewrite N.eqb_refl in Hab, Hbc. cbn [andb] in *. by apply (IH b c).
Qed.

Lemma insert_by_time_sorted (d : Detection) (sorted : list Detection) :
  StronglySorted time_le sorted →
  StronglySorted time_le (insert_by_time d sorted).
Proof.
  induction sorted as [|e rest IH]; intros Hs; cbn [insert_by_time].
  - repeat constructor.
  - apply StronglySorted_inv in Hs as [Hrest Hall].
    destruct (ltb (time_key e) (time_key d)) eqn:Hlt.
    + constructor; [by apply IH|].
      apply Forall_forall. intros x Hx.
      rewrite insert_by_time_perm in Hx.
      apply elem_of_cons in Hx as [->|Hx].
      * unfold time_le. by apply ltb_asym.
      * rewrite Forall_forall in Hall. by apply Hall.
    + constructor; [by constructor|].
      constructor; [exact Hlt|].
      apply Forall_forall. intros x Hx.
      rewrite Forall_forall in Hall. specialize (Hall x Hx).
      unfold time_le in *. by apply (ltb_ge_trans _ (time_key e)).
Qed.

Lemma sort_by_time_sorted (events : list Detection) :
  StronglySorted time_le (sort_by_time events).
Proof.
  unfold sort_by_time. induction events as [|e rest IH]; cbn [foldr].
  - constructor.
  - by apply insert_by_time_sorted.
Qed.

(** The incidents of a correlation over groups. *)
Lemma correlate_groups_sound groups n :
  Forall (λ i, count i = length (evidence i)
               ∧ ∃ g, (ip i, g) ∈ groups ∧ evidence i ⊆ g)
         (correlate_groups minutes groups n).
Proof.
  revert n. induction groups as [|[k g] rest IH]; intros n;
    cbn [correlate_groups]; [constructor|].
  pose proof (filter_window_sublist (sort_by_time g) n) as Hsub.
  destruct (_filter_time_window minutes (sort_by_time g) n)
    as [recent n1]. cbn [fst] in Hsub.
  apply Forall_app_2.
  - eapply Forall_impl; [apply analyze_ip_sound|].
    intros i (Hip & Hev & Hcount). split; [done|].
    exists g. split; [rewrite Hip; by left|].
    intros x Hx. apply Hev in Hx.
    apply (sublist_subseteq _ _ Hsub) in Hx.
    by rewrite sort_by_time_perm in Hx.
  - eapply Forall_impl; [apply IH|].
    intros i (Hcount & g' & Hin & Hev). split; [done|].
    exists g'. split; [by right|done].
Qed.

Lemma correlate_sound (ds : list Detection) :
  Forall (λ i, count i = length (evidence i)
               ∧ ∀ d, d ∈ evidence i → d ∈ ds ∧ ip_key d = ip i)
         (correlate minutes ds).
Proof.
  unfold correlate. destruct ds as [|d0 ds0]; [constructor|].
  generalize (d0 :: ds0). clear d0 ds0. intros ds.
  destruct (group_by_ip_grouped ds) as (_ & Hgroups & _).
  eapply Forall_impl; [apply correlate_groups_sound|].
  intros i (Hcount & g & Hin & Hev). split; [done|].
  intros d Hd. apply Hev in Hd.
  destruct (Hgroups _ _ Hin) as [_ Hg]. rewrite Hg in Hd.
  apply list_elem_of_In, filter_In in Hd as [Hd Hk].
  apply eqb_true in Hk. split; [by apply list_elem_of_In|done].
Qed.

(** No scanner hit, no reconnaissance incident. *)
Lemma analyze_ip_no_scanner (ip0 : list N) (events : list Detection) :
  Forall (λ d, is_scanner d = false) events →
  of_type (lit "Reconnaissance Followed by Exploitation")
          (_analyze_ip ip0 events) = [].
Proof.
  intros Hno. destruct events as [|e rest]; [done|].
  unfold _analyze_ip. revert Hno. generalize (e :: rest). clear e rest.
  intros events Hno.
  rewrite (filter_all_false is_scanner events)
    by (rewrite Forall_forall in Hno; intros x Hx; by apply Hno).
  cbn [nonempty andb].
  rewrite !of_type_app.
  rewrite (of_type_other _ (5 <=? _)) by (by apply eqb_false).
  rewrite (of_type_other _ (3 <=? _)) by (by apply eqb_false).
  rewrite (of_type_other _ (10 <=? _)) by (by apply eqb_false).
  done.
Qed.

Lemma correlate_groups_no_scanner groups n :
  Forall (λ kg : list N * list Detection,
            Forall (λ d, is_scanner d = false) kg.2) groups →
  of_type (lit "Reconnaissance Followed by Exploitation")
          (correlate_groups minutes groups n) = [].
Proof.
  revert n. induction groups as [|[k g] rest IH]; intros n Hno;
    cbn [correlate_groups]; [done|].
  apply Forall_cons in Hno as [Hg Hrest]. cbn [snd] in Hg.
  pose proof (filter_window_sublist (sort_by_time g) n) as Hsub.
  destruct (_filter_time_window minutes (sort_by_time g) n)
    as [recent n1]. cbn [fst] in Hsub.
  rewrite of_type_app, IH by done. rewrite app_nil_r.
  apply analyze_ip_no_scanner.
  apply Forall_forall. intros x Hx.
  apply (sublist_subseteq _ _ Hsub) in Hx.
  rewrite sort_by_time_perm in Hx.
  rewrite Forall_forall in Hg. by apply Hg.
Qed.

Lemma correlate_no_scanner (ds : list Detection) :
  Forall (λ d, is_scanner d = false) ds →
  of_type (lit "Reconnaissance Followed by Exploitation")
          (correlate minutes ds) = [].
Proof.
  intros Hno. unfold correlate. destruct ds as [|d0 ds0]; [done|].
  revert Hno. generalize (d0 :: ds0). clear d0 ds0. intros ds Hno.
  apply correlate_groups_no_scanner.
  destruct (group_by_ip_grouped ds) as (_ & Hgroups & _).
  apply Forall_forall. intros [k g] Hin. cbn [snd].
  destruct (Hgroups _ _ Hin) as [_ ->].
  apply Forall_forall. intros x Hx.
  apply list_elem_of_In, filter_In in Hx as [Hx _].
  rewrite Forall_forall in Hno. apply Hno. by apply list_elem_of_In.
Qed.

End CorrelationMore.

(** X11.  Every detection of an entry carries the address and the time
    of the entry ("UNKNOWN" when the entry has none), its raw line, and
    the one answer of the reputation check; no two of them name the same
    rule.  A reputation hit always yields a detection; without a hit and
    without a matching rule there is none. *)
Theorem detections_carry_the_entry (re : Detector.Regex)
    ioc_engine (entry : gmap string (list N)) :
  let ip := default (lit "UNKNOWN") (entry !! "ip"%string) in
  let timestamp := default (lit "UNKNOWN") (entry !! "time"%string) in
  let hit := Detector.ioc_check ioc_engine ip in
  Forall (λ d : Detection,
            Det.ip d = Some ip ∧ Det.time d = Some timestamp
            ∧ Det.raw d = Some (Detector.raw_of entry)
            ∧ Det.ioc_hit d = Some hit)
         (Detector.analyze_entry ioc_engine entry)
  ∧ NoDup (map Det.rule (Detector.analyze_entry ioc_engine entry))
  ∧ length (Detector.analyze_entry ioc_engine entry)
    ≤ length Detector.DETECTION_RULES
  ∧ (hit = true → Detector.analyze_entry ioc_engine entry ≠ [])
  ∧ (hit = false →
     (∀ np, np ∈ Detector.DETECTION_RULES →
            Detector.re_search np.2 (Detector.payload_of entry) = false) →
     Detector.analyze_entry ioc_engine entry = []).
Proof.
  intros ip timestamp hit. split; [apply analyze_entry_fields|].
  split; [apply analyze_entry_rules_NoDup|].
  split; [apply analyze_entry_rules_NoDup|].
  split; [apply analyze_entry_hit|apply analyze_entry_nothing].
Qed.

Lemma detections_carry_the_entry_witness :
  let entry := Detector.entry_of (lit "203.0.113.9") (lit "get /index.html") in
  let engine := Some (Detector.ioc_engine_of Detector.one_bad_address) in
  let re := @Detector.py_re PyRe.ascii_tables in
  Detector.ioc_check engine (lit "203.0.113.9") = true
  ∧ @Detector.analyze_entry re engine entry ≠ []
  ∧ Forall (λ d : Detection,
              Det.ip d = Some (lit "203.0.113.9")
              ∧ Det.raw d = Some (lit "get /index.html")
              ∧ Det.ioc_hit d = Some true)
           (@Detector.analyze_entry re engine entry).
Proof.
  intros entry engine re.
  assert (Detector.ioc_check engine (lit "203.0.113.9") = true) as Hhit
    by (vm_compute; reflexivity).
  pose proof (detections_carry_the_entry re engine entry)
    as (Hfields & _ & _ & Hsome & _).
  split; [exact Hhit|]. split; [exact (Hsome Hhit)|].
  eapply Forall_impl; [exact Hfields|].
  intros d (Hip & _ & Hraw & Hioc). split; [exact Hip|].
  split; [exact Hraw|]. rewrite Hioc. f_equal.
Defined.

(** X12.  Without a usable reputation answer the engine falls back to
    its rules: when no engine is injected, when the entry has no
    address or the address "UNKNOWN", when the engine raises or when it
    clears the address, the result is the one of an engine without
    reputation data, each detection with the severity of its rule in
    the severity map. *)
Theorem no_reputation_answer_means_rules_only (re : Detector.Regex)
    ioc_engine (entry : gmap string (list N)) :
  let ip := default (lit "UNKNOWN") (entry !! "ip"%string) in
  (ioc_engine = None ∨ ip = [] ∨ ip = lit "UNKNOWN"
   ∨ ∃ is_malicious, ioc_engine = Some is_malicious
                     ∧ (is_malicious ip = Raised
                        ∨ is_malicious ip = Returned false)) →
  Detector.analyze_entry ioc_engine entry = Detector.analyze_entry None entry
  ∧ Forall (λ d : Detection,
              ∃ name, Det.rule d = Some name
                      ∧ Det.severity d = Some (SeverityMap.get_severity name)
                      ∧ Det.ioc_hit d = Some false)
           (Detector.analyze_entry ioc_engine entry).
Proof.
  intros ip Hcase.
  assert (Detector.ioc_check ioc_engine ip = false) as Hno.
  { unfold Detector.ioc_check.
    destruct Hcase as [->|[Hip|[Hip|(f & -> & [Hf|Hf])]]]; [done| | | |].
    - destruct ioc_engine; [|done]. by rewrite Hip.
    - destruct ioc_engine; [|done]. rewrite Hip.
      replace (eqb (lit "UNKNOWN") (lit "UNKNOWN")) with true
        by (symmetry; by apply eqb_true).
      by rewrite andb_false_r.
    - rewrite Hf. by destruct (_ && _).
    - rewrite Hf. by destruct (_ && _). }
  split; [by apply analyze_entry_engine|].
  rewrite analyze_entry_unfold. cbv zeta. fold ip. rewrite Hno. cbn [andb].
  eapply Forall_impl; [apply rule_detections_shape|].
  intros d (name & _ & Hrule & Hioc & Hsev). exists name.
  by rewrite Hsev, escalate_no_hit.
Qed.

Lemma no_reputation_answer_means_rules_only_witness :
  let entry :=
    Detector.entry_of (lit "203.0.113.9") (lit "get /etc/passwd") in
  let re := @Detector.py_re PyRe.ascii_tables in
  let failing : list N → outcome bool := λ _, Raised in
  @Detector.analyze_entry re (Some failing) entry
  = @Detector.analyze_entry re None entry.
Proof.
  intros entry re failing.
  refine (proj1 (no_reputation_answer_means_rules_only re (Some failing)
                   entry _)).
  right. right. right. exists failing. split; [reflexivity|].
  left. reflexivity.
Defined.

(** X13.  No rule of the detection engine has "Scanner" in its name,
    so a correlation over the detections of the engine never reports
    "Reconnaissance Followed by Exploitation". *)
Theorem detector_output_never_correlates_to_reconnaissance
    (T : Correlation.TimeLib) (re : Detector.Regex) (minutes : Z)
    ioc_engine (entries : list (gmap string (list N))) :
  Correlation.of_type (lit "Reconnaissance Followed by Exploitation")
    (Correlation.correlate minutes
       (Detector.analyze_batch ioc_engine entries)) = [].
Proof. apply correlate_no_scanner, analyze_batch_no_scanner. Qed.

(** X14.  Every incident of a correlation counts its evidence, and its
    evidence consists of detections of the batch that carry the address
    of the incident ("UNKNOWN" for a detection without one). *)
Theorem incidents_rest_on_the_batch (T : Correlation.TimeLib) (minutes : Z)
    (detections : list Detection) :
  Forall (λ i,
            Correlation.count i = length (Correlation.evidence i)
            ∧ ∀ d, d ∈ Correlation.evidence i →
                   d ∈ detections
                   ∧ default (lit "UNKNOWN") (Det.ip d) = Correlation.ip i)
         (Correlation.correlate minutes detections).
Proof. apply correlate_sound. Qed.

(** X15.  [correlate] groups a batch by address without losing or
    duplicating a detection: the group keys are pairwise different, the
    group of a key holds exactly the detections with that address, in
    batch order, no group is empty, and every detection has a group. *)
Theorem groups_partition_the_batch (detections : list Detection) :
  let groups := Correlation.group_by_ip detections in
  NoDup (groups.*1)
  ∧ (∀ k g, (k, g) ∈ groups →
       g ≠ []
       ∧ g = List.filter
               (λ d, eqb (default (lit "UNKNOWN") (Det.ip d)) k) detections)
  ∧ (∀ d, d ∈ detections →
       default (lit "UNKNOWN") (Det.ip d) ∈ groups.*1).
Proof. intros groups. apply group_by_ip_grouped. Qed.

(** X16.  Sorting the events of an address keeps every event and puts
    them in the order of their time strings: no event comes before one
    whose time string is smaller.  The order is the one of the strings,
    character by character. *)
Theorem events_are_sorted_by_time_string (events : list Detection) :
  Correlation.sort_by_time events ≡ₚ events
  ∧ StronglySorted
      (λ a b, ltb (Correlation.time_key b) (Correlation.time_key a) = false)
      (Correlation.sort_by_time events).
Proof. split; [apply sort_by_time_perm|apply sort_by_time_sorted]. Qed.

(** ** Stripping *)

Lemma lstrip_suffix (s : list N) : ∃ p, s = p ++ lstrip s.
Proof.
  induction s as [|c s [p IH]]; [by exists []|]. cbn [lstrip].
  destruct (isspace c); [|by exists []].
  exists (c :: p). cbn [app]. by f_equal.
Qed.

Lemma lstrip_nonspace (s : list N) (c : N) (t : list N) :
  lstrip s = c :: t → isspace c = false.
Proof.
  induction s as [|d s IH]; [done|]. cbn [lstrip].
  destruct (isspace d) eqn:Hd; [exact IH|]. by intros [= <- _].
Qed.

Lemma lstrip_fixed (s : list N) :
  (∀ c t, s = c :: t → isspace c = false) → lstrip s = s.
Proof.
  destruct s as [|c t]; [done|]. intros Hc. cbn [lstrip].
  by rewrite (Hc c t eq_refl).
Qed.

Lemma lstrip_idem (s : list N) : lstrip (lstrip s) = lstrip s.
Proof.
  apply lstrip_fixed. intros c t Hs. by apply (lstrip_nonspace s c t).
Qed.

Lemma strip_idem (s : list N) : strip (strip s) = strip s.
Proof.
  unfold strip.
  set (t := lstrip s). set (u := lstrip (rev t)).
  assert (lstrip (rev u) = rev u) as ->.
  { apply lstrip_fixed. intros x r Hx.
    destruct (lstrip_suffix (rev t)) as [p Hp]. fold u in Hp.
    assert (t = x :: r ++ rev p) as Ht.
    { rewrite <- (rev_involutive t), Hp, rev_app_distr, Hx. done. }
    by apply (lstrip_nonspace s x (r ++ rev p)). }
  rewrite rev_involutive. unfold u. by rewrite lstrip_idem.
Qed.

Section IOCMore.
Import IOC IOCStartup.
Context `{Environment}.

Lemma collect_lines_elem (lines : list (list N)) (collected : gset (list N))
    (x : list N) :
  x ∈ collect_lines lines collected
  ↔ x ∈ collected
    ∨ ∃ line, line ∈ lines ∧ x = strip line ∧ x ≠ []
              ∧ startswith x (lit "#") = false.
Proof.
  revert collected. induction lines as [|line rest IH]; intros collected;
    cbn [collect_lines].
  - split; [by left|]. intros [?|(line & Hin & _)]; [done|].
    by apply elem_of_nil in Hin.
  - destruct (truthy (strip line) && negb (startswith (strip line) (lit "#")))
      eqn:Hkeep; rewrite IH.
    + apply andb_true_iff in Hkeep as [Ht Hs].
      apply negb_true_iff in Hs.
      rewrite elem_of_union, elem_of_singleton. split.
      * intros [[->|Hin]|(l & Hin & Hl)].
        -- right. exists line. split; [by left|]. split; [done|].
           split; [by destruct (strip line)|done].
        -- by left.
        -- right. exists l. split; [by right|done].
      * intros [Hin|(l & Hin & -> & Hne & Hs')].
        -- left. by right.
        -- apply elem_of_cons in Hin as [->|Hin].
           ++ left. by left.
           ++ right. by exists l.
    + split.
      * intros [Hin|(l & Hin & Hl)]; [by left|].
        right. exists l. split; [by right|done].
      * intros [Hin|(l & Hin & -> & Hne & Hs')]; [by left|].
        apply elem_of_cons in Hin as [->|Hin].
        -- exfalso. apply andb_false_iff in Hkeep as [Ht|Hs].
           ++ by destruct (strip line).
           ++ apply negb_false_iff in Hs. congruence.
        -- right. by exists l.
Qed.

(** A stripped line that is neither empty nor a comment. *)
Lemma collect_lines_clean (lines : list (list N)) (collected : gset (list N)) :
  (∀ x, x ∈ collected → clean x) →
  ∀ x, x ∈ collect_lines lines collected → clean x.
Proof.
  intros Hc x Hx. apply collect_lines_elem in Hx as [Hx|(l & _ & -> & Hne & Hs)].
  - by apply Hc.
  - split; [done|]. split; [done|]. apply strip_idem.
Qed.

Lemma fetch_feeds_clean (feeds : list (list N * list N))
    (collected : gset (list N)) (log : list (list N)) :
  (∀ x, x ∈ collected → clean x) →
  ∀ x, x ∈ (fetch_feeds feeds collected log).1 → clean x.
Proof.
  revert collected log. induction feeds as [|[name url] rest IH];
    intros collected log Hc; cbn [fetch_feeds]; [done|].
  destruct (requests_get log url) as [text|].
  - apply IH. by apply collect_lines_clean.
  - by apply IH.
Qed.

Lemma fetch_feeds_requests (feeds : list (list N * list N))
    (collected : gset (list N)) (log : list (list N)) :
  (fetch_feeds feeds collected log).2 = log ++ feeds.*2.
Proof.
  revert collected log. induction feeds as [|[name url] rest IH];
    intros collected log; cbn [fetch_feeds].
  - by rewrite app_nil_r.
  - destruct (requests_get log url) as [text|]; rewrite IH;
      by rewrite <- app_assoc.
Qed.

Lemma update_iocs_cases now e :
  update_iocs now e
  = if bool_decide (now - last_updated e < Qc_of_Z 3600)%Qc
    then (Returned tt, e)
    else
      let collected := (fetch_feeds IOC_FEEDS ∅ (fetched e)).1 in
      let log := fetched e ++ IOC_FEEDS.*2 in
      if bool_decide (collected ≠ ∅) then
        if save_raises collected now
        then (Raised,
              {| iocs := collected; last_updated := now;
                 fetched := log; cache_file := cache_file e |})
        else (Returned tt,
              {| iocs := collected; last_updated := now;
                 fetched := log; cache_file := Some (collected, now) |})
      else (Returned tt,
            {| iocs := iocs e; last_updated := last_updated e;
               fetched := log; cache_file := cache_file e |}).
Proof.
  unfold update_iocs. case_bool_decide; [done|].
  pose proof (fetch_feeds_requests IOC_FEEDS ∅ (fetched e)) as Hlog.
  destruct (fetch_feeds IOC_FEEDS ∅ (fetched e)) as [collected log].
  cbn [fst snd] in *. cbv zeta. rewrite <- Hlog.
  case_bool_decide; [|done].
  unfold _save_cache. cbn [iocs last_updated fetched cache_file].
  by destruct (save_raises collected now).
Qed.

End IOCMore.

(** X17.  A refresh keeps the reputation set clean: when every member
    is a stripped, non-empty string that does not start with "#", the
    same holds after [update_iocs], whatever the feeds answer. *)
Theorem refresh_keeps_the_set_clean (env : IOC.Environment)
    (now : Qc) (e : IOC.Engine) :
  (∀ x, x ∈ IOC.iocs e →
        x ≠ [] ∧ startswith x (lit "#") = false ∧ strip x = x) →
  ∀ x, x ∈ IOC.iocs (IOC.update_iocs now e).2 →
       x ≠ [] ∧ startswith x (lit "#") = false ∧ strip x = x.
Proof.
  intros Hclean x. rewrite update_iocs_cases. cbv zeta.
  case_bool_decide; [apply Hclean|].
  case_bool_decide; [|apply Hclean].
  destruct (IOC.save_raises _ now); cbn [snd IOC.iocs];
    apply (fetch_feeds_clean IOC.IOC_FEEDS ∅ (IOC.fetched e));
    intros y Hy; by apply elem_of_empty in Hy.
Qed.

Lemma refresh_keeps_the_set_clean_witness :
  let e1 := (@IOC.update_iocs IOC.down_then_up (Qc_of_Z 10000)
               {| IOC.iocs := ∅; IOC.last_updated := Qc_of_Z 0;
                  IOC.fetched := [lit "https://example.invalid/earlier"];
                  IOC.cache_file := None |}).2 in
  lit "203.0.113.9" ∈ IOC.iocs e1
  ∧ ∀ x, x ∈ IOC.iocs e1 → startswith x (lit "#") = false.
Proof.
  intros e1. split; [by_compute|].
  intros x Hx.
  refine (proj1 (proj2 (refresh_keeps_the_set_clean IOC.down_then_up
                          (Qc_of_Z 10000) _ _ x Hx))).
  intros y Hy. by apply elem_of_empty in Hy.
Defined.

(** X18.  A call of [update_iocs] that the throttle lets through
    requests every feed once, in the order of the feed table, whether
    the feeds answer or not; a throttled call requests nothing. *)
Theorem refresh_requests_every_feed_once (env : IOC.Environment)
    (now : Qc) (e : IOC.Engine) :
  IOC.fetched (IOC.update_iocs now e).2
  = IOC.fetched e
    ++ (if bool_decide (now - IOC.last_updated e < Qc_of_Z 3600)%Qc
        then [] else IOC.IOC_FEEDS.*2).
Proof.
  rewrite update_iocs_cases. cbv zeta.
  case_bool_decide; [by rewrite app_nil_r|].
  case_bool_decide; [|done]. by destruct (IOC.save_raises _ now).
Qed.

(** X19.  When the feeds gave addresses but the cache artifact cannot
    be written, [update_iocs] raises after it has replaced the set and
    the time stamp in memory: the artifact keeps its old content, and
    for the next hour every further call is throttled. *)
Theorem failed_cache_write_still_replaces_the_set (env : IOC.Environment)
    (now now2 : Qc) (e : IOC.Engine) :
  let collected := (IOC.fetch_feeds IOC.IOC_FEEDS ∅ (IOC.fetched e)).1 in
  ¬ (now - IOC.last_updated e < Qc_of_Z 3600)%Qc →
  collected ≠ ∅ →
  IOC.save_raises collected now = true →
  (now2 - now < Qc_of_Z 3600)%Qc →
  let e1 := {| IOC.iocs := collected; IOC.last_updated := now;
               IOC.fetched := IOC.fetched e ++ IOC.IOC_FEEDS.*2;
               IOC.cache_file := IOC.cache_file e |} in
  IOC.update_iocs now e = (Raised, e1)
  ∧ IOCStartup._safe_update_once now e = e1
  ∧ IOC.update_iocs now2 e1 = (Returned tt, e1).
Proof.
  intros collected Hdue Hsome Hsave Hsoon e1.
  assert (IOC.update_iocs now e = (Raised, e1)) as Hup.
  { rewrite update_iocs_cases. cbv zeta. fold collected.
    rewrite bool_decide_eq_false_2 by done.
    rewrite bool_decide_eq_true_2 by done. by rewrite Hsave. }
  split; [exact Hup|]. split.
  - unfold IOCStartup._safe_update_once. by rewrite Hup.
  - by apply update_iocs_throttled.
Qed.

Lemma failed_cache_write_still_replaces_the_set_witness :
  let e1 :=
    {| IOC.iocs := {[ lit "203.0.113.9"; lit "198.51.100.4" ]};
       IOC.last_updated := Qc_of_Z 10000;
       IOC.fetched := IOC.IOC_FEEDS.*2;
       IOC.cache_file := None |} in
  @IOC.update_iocs IOCStartup.feed_up_disk_full (Qc_of_Z 10000)
    IOC.never_updated = (Raised, e1)
  ∧ @IOC.update_iocs IOCStartup.feed_up_disk_full (Qc_of_Z 13000) e1
    = (Returned tt, e1).
Proof.
  intros e1.
  pose proof (failed_cache_write_still_replaces_the_set
                IOCStartup.feed_up_disk_full (Qc_of_Z 10000) (Qc_of_Z 13000)
                IOC.never_updated
                ltac:(by_compute) ltac:(by_compute)
                ltac:(vm_compute; reflexivity) ltac:(by_compute))
    as (Hup & _ & Hnext).
  assert ((@IOC.fetch_feeds IOCStartup.feed_up_disk_full IOC.IOC_FEEDS ∅
             (IOC.fetched IOC.never_updated)).1
          = {[ lit "203.0.113.9"; lit "198.51.100.4" ]}) as Hset
    by by_compute.
  rewrite Hset in Hup, Hnext. split; [exact Hup|exact Hnext].
Defined.

(** X20.  The engine is built from the cache first: when the cache
    artifact holds an address, the engine starts with the addresses and
    the time stamp of the artifact (0 when it has none) and requests no
    feed.  Without a cached address it tries one refresh and drops its
    exception: with a missing or unreadable artifact, an hour or more
    after the epoch, every feed is requested once, while an artifact
    without addresses but with a time stamp less than an hour old
    throttles that refresh, so that the engine starts empty. *)
Theorem engine_start_up (env : IOC.Environment)
    (artifact : IOCStartup.CacheArtifact) (now : Qc) :
  (∀ cached stamp,
     artifact = IOCStartup.Parsed (Some cached) stamp →
     cached ≠ [] →
     IOCStartup.init artifact now
     = {| IOC.iocs := list_to_set cached;
          IOC.last_updated := default (Qc_of_Z 0) stamp;
          IOC.fetched := [];
          IOC.cache_file := None |})
  ∧ ((artifact = IOCStartup.Missing ∨ artifact = IOCStartup.Invalid) →
     ¬ (now - Qc_of_Z 0 < Qc_of_Z 3600)%Qc →
     IOC.fetched (IOCStartup.init artifact now) = IOC.IOC_FEEDS.*2)
  ∧ (∀ cached stamp,
       artifact = IOCStartup.Parsed cached (Some stamp) →
       default [] cached = [] →
       (now - stamp < Qc_of_Z 3600)%Qc →
       IOCStartup.init artifact now
       = {| IOC.iocs := ∅; IOC.last_updated := stamp;
            IOC.fetched := []; IOC.cache_file := None |}).
Proof.
  split; [|split].
  - intros cached stamp -> Hne. unfold IOCStartup.init. cbv zeta.
    cbn [IOCStartup._load_from_cache IOC.iocs IOC.fetched IOC.cache_file].
    rewrite bool_decide_eq_false_2; [done|].
    destruct cached as [|x rest]; [done|].
    cbn [default from_option id list_to_set].
    intros Hempty. assert (x ∈ ({[x]} ∪ list_to_set rest : gset (list N)))
      as Hin by (apply elem_of_union; left; by apply elem_of_singleton).
    rewrite Hempty in Hin. by apply elem_of_empty in Hin.
  - intros Hart Hdue.
    assert (IOCStartup.init artifact now
            = IOCStartup._safe_update_once now
                {| IOC.iocs := ∅; IOC.last_updated := Qc_of_Z 0;
                   IOC.fetched := []; IOC.cache_file := None |}) as ->.
    { unfold IOCStartup.init. cbv zeta.
      destruct Hart as [-> | ->];
        cbn [IOCStartup._load_from_cache IOC.iocs IOC.fetched IOC.cache_file];
        by rewrite bool_decide_eq_true_2. }
    unfold IOCStartup._safe_update_once.
    rewrite update_iocs_cases. cbv zeta.
    cbn [IOC.fetched IOC.last_updated].
    rewrite bool_decide_eq_false_2 by done.
    case_bool_decide; [|done]. by destruct (IOC.save_raises _ now).
  - intros cached stamp -> Hempty Hsoon.
    unfold IOCStartup.init. cbv zeta.
    cbn [IOCStartup._load_from_cache IOC.iocs IOC.fetched IOC.cache_file].
    rewrite Hempty. cbn [list_to_set default from_option id].
    rewrite bool_decide_eq_true_2 by done.
    unfold IOCStartup._safe_update_once.
    by rewrite update_iocs_throttled.
Qed.

Lemma engine_start_up_witness :
  @IOCStartup.init IOC.down_then_up
    (IOCStartup.Parsed (Some [lit "203.0.113.9"]) None) (Qc_of_Z 1700000000)
  = {| IOC.iocs := list_to_set [lit "203.0.113.9"];
       IOC.last_updated := Qc_of_Z 0;
       IOC.fetched := []; IOC.cache_file := None |}
  ∧ IOC.fetched (@IOCStartup.init IOC.down_then_up IOCStartup.Missing
                   (Qc_of_Z 1700000000)) = IOC.IOC_FEEDS.*2
  ∧ @IOCStartup.init IOC.down_then_up
      (IOCStartup.Parsed (Some []) (Some (Qc_of_Z 1699999000)))
      (Qc_of_Z 1700000000)
    = {| IOC.iocs := ∅; IOC.last_updated := Qc_of_Z 1699999000;
         IOC.fetched := []; IOC.cache_file := None |}.
Proof.
  split; [|split].
  - apply (proj1 (engine_start_up IOC.down_then_up
                    (IOCStartup.Parsed (Some [lit "203.0.113.9"]) None)
                    (Qc_of_Z 1700000000)) [lit "203.0.113.9"] None).
    + reflexivity.
    + discriminate.
  - apply (proj1 (proj2 (engine_start_up IOC.down_then_up
                           IOCStartup.Missing (Qc_of_Z 1700000000)))).
    + by left.
    + by_compute.
  - apply (proj2 (proj2 (engine_start_up IOC.down_then_up
                           (IOCStartup.Parsed (Some [])
                              (Some (Qc_of_Z 1699999000)))
                           (Qc_of_Z 1700000000))) (Some [])).
    + reflexivity.
    + reflexivity.
    + by_compute.
Defined.

Lemma concat_imap_Forall {A B} (P : B → Prop) (f : nat → A → list B)
    (l : list A) :
  (∀ i x, l !! i = Some x → Forall P (f i x)) →
  Forall P (concat (imap f l)).
Proof.
  revert f. induction l as [|x l IH]; intros f Hf; [constructor|].
  rewrite imap_cons. cbn [concat]. apply Forall_app_2.
  - by apply (Hf 0).
  - apply IH. intros i y Hy. by apply (Hf (S i)).
Qed.

Lemma concat_imap_id {A} (f : nat → A → list A) (l : list A) :
  (∀ i x, l !! i = Some x → f i x = [x]) →
  concat (imap f l) = l.
Proof.
  revert f. induction l as [|x l IH]; intros f Hf; [done|].
  rewrite imap_cons. cbn [concat]. rewrite (Hf 0 x) by done.
  cbn [app]. f_equal. apply IH. intros i y Hy. by apply (Hf (S i)).
Qed.

Lemma has_char_false (c : N) (s : list N) :
  Forall (λ d, (d =? c)%N = false) s → has_char c s = false.
Proof.
  induction 1 as [|d s Hd _ IH]; [done|].
  unfold has_char in *. cbn [existsb].
  rewrite N.eqb_sym, Hd. exact IH.
Qed.

Section NormalizerMore.
Import Normalizer NormalizerSpec.
Context `{Unicode}.

Lemma plain_parts (c : N) :
  plain c = true →
  (32 <= c <= 126)%N ∧ ¬ (65 <= c <= 90)%N
  ∧ c ≠ 37%N ∧ c ≠ 43%N ∧ c ≠ 38%N.
Proof.
  unfold plain, small_printable. intros Hp.
  repeat (apply andb_true_iff in Hp as [Hp ?]).
  repeat match goal with
         | H : negb _ = true |- _ => apply negb_true_iff in H
         end.
  apply N.leb_le in Hp.
  repeat match goal with
         | H : (_ <=? _)%N = true |- _ => apply N.leb_le in H
         | H : (_ =? _)%N = false |- _ => apply N.eqb_neq in H
         | H : (_ && _) = false |- _ => apply andb_false_iff in H
         end.
  repeat split; try done; try lia.
  intros [? ?].
  match goal with
  | H : _ ∨ _ |- _ => destruct H as [H|H]; apply N.leb_gt in H; lia
  end.
Qed.

Lemma small_printable_parts (c : N) :
  small_printable c = true ↔ (32 <= c <= 126)%N ∧ ¬ (65 <= c <= 90)%N.
Proof.
  unfold small_printable.
  rewrite !andb_true_iff, negb_true_iff, andb_false_iff,
    !N.leb_le, !N.leb_gt. lia.
Qed.

Lemma plain_decode_once (text : list N) :
  forallb plain text = true → decode_once text = Some text.
Proof.
  intros Hp. rewrite forallb_forall in Hp.
  assert (∀ c, c ∈ text → (32 <= c <= 126)%N ∧ ¬ (65 <= c <= 90)%N
                          ∧ c ≠ 37%N ∧ c ≠ 43%N ∧ c ≠ 38%N) as Hc.
  { intros c Hin. apply plain_parts, Hp. by apply list_elem_of_In. }
  unfold decode_once, unquote_plus.
  assert (map (λ c, if (c =? 43)%N then 32%N else c) text = text) as ->.
  { rewrite <- (map_id text) at 2. apply map_ext_in. intros c Hin.
    apply list_elem_of_In, Hc in Hin as (_ & _ & _ & H43 & _).
    by apply N.eqb_neq in H43 as ->. }
  unfold unquote. rewrite has_char_false.
  2:{ apply Forall_forall. intros c Hin.
      apply Hc in Hin as (_ & _ & H37 & _). by apply N.eqb_neq. }
  cbn [negb mbind option_bind]. unfold html_unescape.
  rewrite has_char_false; [done|].
  apply Forall_forall. intros c Hin.
  apply Hc in Hin as (_ & _ & _ & _ & H38). by apply N.eqb_neq.
Qed.

Lemma plain_normalize_field (text : list N) :
  forallb plain text = true →
  length text ≤ MAX_LEN →
  normalize_field text = text.
Proof.
  intros Hp Hlen. pose proof Hp as Hp'. rewrite forallb_forall in Hp'.
  assert (∀ c, c ∈ text → (32 <= c <= 126)%N ∧ ¬ (65 <= c <= 90)%N) as Hc.
  { intros c Hin. apply list_elem_of_In, Hp', plain_parts in Hin. tauto. }
  unfold normalize_field. cbv zeta.
  assert (recursive_decode text 3 = text) as ->.
  { unfold recursive_decode. destruct text as [|c t]; [done|].
    cbn [truthy negb decode_loop]. rewrite (plain_decode_once _ Hp).
    unfold eqb. by rewrite bool_decide_eq_true_2. }
  assert (_strip_control_chars text = text) as ->.
  { unfold _strip_control_chars. apply forallb_filter_id.
    apply forallb_forall. intros c Hin.
    apply list_elem_of_In, Hc in Hin as [[? ?] _]. unfold isprintable.
    assert ((c <? 128)%N = true) as -> by (apply N.ltb_lt; lia).
    apply andb_true_iff. split; apply N.leb_le; lia. }
  assert (lower text = text) as ->.
  { unfold lower. apply concat_imap_id. intros i c Hi.
    assert (c ∈ text) as Hin by (by eapply list_elem_of_lookup_2).
    apply Hc in Hin as [[? ?] Hcap]. unfold lower_char.
    assert ((c <? 128)%N = true) as -> by (apply N.ltb_lt; lia).
    assert (((65 <=? c)%N && (c <=? 90)%N) = false) as ->; [|done].
    apply andb_false_iff.
    destruct (decide (65 <= c)%N); [right|left]; apply N.leb_gt; lia. }
  by apply length_guard_short.
Qed.

Lemma normalize_field_alphabet (text : list N) :
  lower_stays_small →
  Forall (λ c, (c < 128)%N → small_printable c = true) (normalize_field text).
Proof.
  intros Hlib. unfold normalize_field. cbv zeta.
  generalize (recursive_decode text 3). clear text. intros decoded.
  set (stripped := _strip_control_chars decoded).
  assert (Forall (λ c, (c < 128)%N → (32 <= c <= 126)%N) stripped) as Hs.
  { apply Forall_forall. intros c Hin Hlt.
    apply list_elem_of_In, filter_In in Hin as [_ Hpr].
    unfold isprintable in Hpr.
    assert ((c <? 128)%N = true) as Hb by (by apply N.ltb_lt).
    rewrite Hb in Hpr. apply andb_true_iff in Hpr as [H1 H2].
    apply N.leb_le in H1, H2. lia. }
  assert (Forall (λ c, (c < 128)%N → small_printable c = true)
            (lower stripped)) as Hl.
  { unfold lower. apply concat_imap_Forall. intros i c0 Hi.
    unfold lower_char. destruct (c0 <? 128)%N eqn:Hc0.
    - apply N.ltb_lt in Hc0. apply Forall_singleton. intros _.
      rewrite Forall_forall in Hs.
      assert (32 <= c0 <= 126)%N as Hr.
      { apply Hs; [by eapply list_elem_of_lookup_2|done]. }
      apply small_printable_parts.
      destruct ((65 <=? c0)%N && (c0 <=? 90)%N) eqn:Hcap.
      + apply andb_true_iff in Hcap as [H1 H2].
        apply N.leb_le in H1, H2. lia.
      + apply andb_false_iff in Hcap.
        destruct Hcap as [Hcap|Hcap]; apply N.leb_gt in Hcap; lia.
    - apply N.ltb_ge in Hc0. by apply (Hlib stripped i c0). }
  unfold length_guard. destruct (MAX_LEN <? length (lower stripped)); [|done].
  apply Forall_app_2; [by apply Forall_take|].
  apply Forall_app_2; [|by apply Forall_drop].
  repeat constructor.
Qed.

End NormalizerMore.

(** X21.  Text that is already normal is left alone: a field of at most
    2000 printable ASCII characters without capital letters and without
    "%", "+" and "&" is its own normalization. *)
Theorem plain_text_is_left_alone (U : Normalizer.Unicode) (text : list N) :
  forallb NormalizerSpec.plain text = true →
  length text ≤ Normalizer.MAX_LEN →
  Normalizer.normalize_field text = text.
Proof. apply plain_normalize_field. Qed.

Lemma plain_text_is_left_alone_witness :
  @Normalizer.normalize_field Normalizer.ascii_only
    (lit "get /index.html?id=7 http/1.1")
  = lit "get /index.html?id=7 http/1.1".
Proof.
  apply (plain_text_is_left_alone Normalizer.ascii_only).
  - vm_compute. reflexivity.
  - vm_compute. lia.
Defined.

(** X22.  The text handed to the rules holds no ASCII control
    character and no ASCII capital letter: every character below 128
    of a normalized field is printable and not a capital, provided the
    library never lower-cases a character from 128 on to such a
    character. *)
Theorem normalized_text_has_no_capitals_or_controls
    (U : Normalizer.Unicode) (text : list N) :
  (∀ s i c0, s !! i = Some c0 → (128 <= c0)%N →
     Forall (λ c, (c < 128)%N → NormalizerSpec.small_printable c = true)
            (Normalizer.uni_lower_at s i)) →
  Forall (λ c, (c < 128)%N → NormalizerSpec.small_printable c = true)
         (Normalizer.normalize_field text).
Proof. apply normalize_field_alphabet. Qed.

Lemma normalized_text_has_no_capitals_or_controls_witness :
  @Normalizer.normalize_field Normalizer.ascii_only
    (lit "GET /Index%0A.HTML")
  = lit "get /index.html"
  ∧ Forall (λ c, (c < 128)%N → NormalizerSpec.small_printable c = true)
           (@Normalizer.normalize_field Normalizer.ascii_only
              (lit "GET /Index%0A.HTML")).
Proof.
  split; [vm_compute; reflexivity|].
  apply (normalized_text_has_no_capitals_or_controls Normalizer.ascii_only).
  intros s i c0 Hs Hc0. cbn [Normalizer.uni_lower_at Normalizer.ascii_only].
  rewrite Hs. apply Forall_singleton. intros Hlt. lia.
Defined.

Section ParserFacts.
Import Parser.
Context `{Patterns}.

Lemma five_keys_dom (a b c d e : list N) :
  dom (<[ "time"%string := a ]>
         (<[ "ip"%string := b ]>
            (<[ "request"%string := c ]>
               (<[ "status"%string := d ]>
                  (<[ "raw"%string := e ]> (∅ : gmap string (list N)))))))
  = ({[ "time"; "ip"; "request"; "status"; "raw" ]}%string : gset string).
Proof. rewrite !dom_insert_L, dom_empty_L. set_solver. Qed.

Lemma parse_log_line_empty : parse_log_line [] = ∅.
Proof. reflexivity. Qed.

Lemma parse_log_line_dom (line : list N) :
  line ≠ [] →
  dom (parse_log_line line)
  = ({[ "time"; "ip"; "request"; "status"; "raw" ]}%string : gset string).
Proof.
  intros Hne. unfold parse_log_line. destruct line as [|c t]; [done|].
  cbn [truthy negb]. cbv zeta.
  destruct (APACHE_COMBINED_PATTERN (strip (c :: t))); apply five_keys_dom.
Qed.

Lemma parse_log_line_raw (line : list N) :
  line ≠ [] →
  parse_log_line line !! "raw"%string = Some (strip line).
Proof.
  intros Hne. unfold parse_log_line. destruct line as [|c t]; [done|].
  cbn [truthy negb]. cbv zeta.
  destruct (APACHE_COMBINED_PATTERN (strip (c :: t))); by simplify_map_eq.
Qed.

Lemma parse_log_line_fallback (line : list N) :
  line ≠ [] →
  APACHE_COMBINED_PATTERN (strip line) = None →
  parse_log_line line !! "request"%string = Some (take 200 (strip line))
  ∧ parse_log_line line !! "status"%string = Some (lit "UNKNOWN")
  ∧ parse_log_line line !! "ip"%string
    = Some (default (lit "UNKNOWN") (IP_PATTERN (strip line)))
  ∧ parse_log_line line !! "time"%string
    = Some (default (lit "UNKNOWN") (TIME_PATTERN (strip line))).
Proof.
  intros Hne Hno. unfold parse_log_line. destruct line as [|c t]; [done|].
  cbn [truthy negb]. cbv zeta. rewrite Hno.
  repeat split; by simplify_map_eq.
Qed.

Lemma parse_log_line_no_message (line : list N) :
  parse_log_line line !! "message"%string = None
  ∧ parse_log_line line !! "original"%string = None
  ∧ parse_log_line line !! "normalized_request"%string = None
  ∧ parse_log_line line !! "normalized_raw"%string = None.
Proof.
  unfold parse_log_line. destruct line as [|c t]; [done|].
  cbn [truthy negb]. cbv zeta.
  destruct (APACHE_COMBINED_PATTERN (strip (c :: t)));
    repeat split; by simplify_map_eq.
Qed.

Lemma parse_log_line_raw_default (line : list N) :
  default [] (parse_log_line line !! "raw"%string) = strip line.
Proof.
  destruct line as [|c t]; [done|].
  by rewrite parse_log_line_raw.
Qed.

End ParserFacts.

Section PipelineFacts.
Import Parser Normalizer Detector.
Context `{Patterns} `{Unicode} `{Regex}.

Lemma or_else_empty (s : list N) : or_else s [] = s.
Proof. by destruct s. Qed.

Lemma loaded_entry_fields (line : list N) :
  let parsed := parse_log_line line in
  let entry := normalize_log_entry parsed in
  raw_of entry = strip line
  ∧ payload_of entry = normalize_field (default [] (parsed !! "request"%string))
  ∧ entry !! "ip"%string = parsed !! "ip"%string
  ∧ entry !! "time"%string = parsed !! "time"%string.
Proof.
  intros parsed entry.
  destruct (parse_log_line_no_message line) as (Hm & Ho & _ & _).
  fold parsed in Hm, Ho.
  assert (∀ key, key ≠ "normalized_raw"%string →
                 key ≠ "normalized_request"%string →
                 entry !! key = parsed !! key) as Hkeep.
  { intros key Hk1 Hk2. unfold entry, normalize_log_entry. cbv zeta.
    by rewrite !lookup_insert_ne. }
  assert (entry !! "normalized_request"%string
          = Some (normalize_field (default [] (parsed !! "request"%string))))
    as Hnr.
  { unfold entry, normalize_log_entry. cbv zeta.
    rewrite lookup_insert_ne by done. rewrite lookup_insert_eq.
    by rewrite or_else_empty. }
  split; [|split; [|split]].
  - unfold raw_of. rewrite !Hkeep by done. rewrite Ho, Hm.
    pose proof (parse_log_line_raw_default line) as Hraw. fold parsed in Hraw.
    destruct (parsed !! "raw"%string) as [raw|]; cbn [default from_option id] in *.
    + subst raw. cbn [or_opt]. by destruct (strip line).
    + done.
  - unfold payload_of. rewrite Hnr, Hkeep by done. rewrite Hm.
    cbn [or_opt].
    by destruct (normalize_field (default [] (parsed !! "request"%string))).
  - by apply Hkeep.
  - by apply Hkeep.
Qed.

End PipelineFacts.

Section KeptFacts.
Import LogViewer.

Lemma kept_sublist seen (ds : list Detection) : kept seen ds `sublist_of` ds.
Proof.
  revert seen. induction ds as [|d rest IH]; intros seen; cbn [kept]; [done|].
  case_bool_decide; [by apply sublist_cons|by apply sublist_skip].
Qed.

Lemma kept_keys seen (ds : list Detection) (d : Detection) :
  d ∈ kept seen ds → worker_key d ∉ seen.
Proof.
  revert seen. induction ds as [|d0 rest IH]; intros seen; cbn [kept].
  - intros Hin. by apply elem_of_nil in Hin.
  - case_bool_decide as Hseen; [apply IH|].
    intros Hin. apply elem_of_cons in Hin as [->|Hin]; [done|].
    apply IH in Hin. intros Hs. apply Hin, elem_of_union. by right.
Qed.

Lemma kept_NoDup seen (ds : list Detection) : NoDup (worker_key <$> kept seen ds).
Proof.
  revert seen. induction ds as [|d0 rest IH]; intros seen; cbn [kept].
  - constructor.
  - case_bool_decide as Hseen; [apply IH|].
    cbn [fmap list_fmap]. apply NoDup_cons. split; [|apply IH].
    intros Hin. apply list_elem_of_fmap in Hin as (d & Hk & Hin).
    apply kept_keys in Hin. rewrite <- Hk in Hin.
    apply Hin, elem_of_union. left. by apply elem_of_singleton.
Qed.

Lemma kept_covers seen (ds : list Detection) (d : Detection) :
  d ∈ ds → worker_key d ∈ seen ∨ worker_key d ∈ worker_key <$> kept seen ds.
Proof.
  revert seen. induction ds as [|d0 rest IH]; intros seen Hin; cbn [kept].
  - by apply elem_of_nil in Hin.
  - apply elem_of_cons in Hin as [->|Hin].
    + case_bool_decide as Hseen; [by left|]. right. cbn [fmap list_fmap].
      by left.
    + case_bool_decide as Hseen; [by apply IH|].
      destruct (IH ({[ worker_key d0 ]} ∪ seen) Hin) as [Hs|Hk].
      * apply elem_of_union in Hs as [Hs|Hs]; [|by left].
        apply elem_of_singleton in Hs. right. cbn [fmap list_fmap].
        rewrite Hs. by left.
      * right. cbn [fmap list_fmap]. by right.
Qed.

End KeptFacts.

Section WorkerFacts.
Import LogViewer Responder ResponderTrace.
Context {World : Type} `{Collaborators World} `{Detector.Regex}.
Variable policy : AutoBlock.
Variable features : Features.
Variable utcnow : nat → Z.
Variable ioc_engine : option (list N → outcome bool).

Lemma respond_all_app n (e : Engine World) (a b : list Detection) :
  respond_all policy features utcnow n e (a ++ b)
  = respond_all policy features utcnow (n + length a)
      (respond_all policy features utcnow n e a) b.
Proof.
  revert n e. induction a as [|d a IH]; intros n e; cbn [respond_all app length].
  - by rewrite Nat.add_0_r.
  - rewrite IH. f_equal. lia.
Qed.

(** The inner loop, on detections that have their key. *)
Lemma handle_each_keyed (w : Worker World) (ds : list Detection) :
  Forall keyed ds →
  handle_each policy features utcnow w ds
  = Some {| _seen := list_to_set (worker_key <$> kept (_seen w) ds) ∪ _seen w;
            detections := detections w ++ kept (_seen w) ds;
            responder :=
              respond_all policy features utcnow (readings w) (responder w)
                (kept (_seen w) ds);
            readings := readings w + length (kept (_seen w) ds) |}.
Proof.
  intros Hk. revert w. induction Hk as [|d rest Hd _ IH]; intros w.
  - cbn [handle_each kept fmap list_fmap list_to_set respond_all length].
    destruct w as [seen dets resp n].
    cbn [_seen detections responder readings].
    by rewrite union_empty_l_L, app_nil_r, Nat.add_0_r.
  - cbn [handle_each kept].
    destruct Hd as ([s Hs] & [r Hr] & [i Hi]).
    unfold handle_one. rewrite Hs, Hr, Hi.
    assert (worker_key d = (s, r, i)) as Hkey
      by (unfold worker_key; by rewrite Hs, Hr, Hi).
    rewrite <- Hkey.
    case_bool_decide as Hseen; [apply IH|].
    rewrite IH. cbn [_seen detections responder readings].
    cbn [fmap list_fmap list_to_set respond_all length].
    f_equal. f_equal.
    + apply set_eq. intros x. rewrite !elem_of_union. tauto.
    + by rewrite <- app_assoc.
    + lia.
Qed.

Lemma handle_each_app (w : Worker World) (a b : list Detection) :
  handle_each policy features utcnow w (a ++ b)
  = match handle_each policy features utcnow w a with
    | Some w' => handle_each policy features utcnow w' b
    | None => None
    end.
Proof.
  revert w. induction a as [|d a IH]; intros w; cbn [handle_each app]; [done|].
  destruct (handle_one policy features utcnow w d); [apply IH|done].
Qed.

Lemma run_batch (w : Worker World) (entries : list (gmap string (list N))) :
  run policy features utcnow ioc_engine w entries
  = handle_each policy features utcnow w
      (Detector.analyze_batch ioc_engine entries).
Proof.
  revert w. induction entries as [|entry rest IH]; intros w; [done|].
  cbn [run]. unfold Detector.analyze_batch. cbn [flat_map].
  rewrite handle_each_app.
  destruct (handle_each policy features utcnow w
              (Detector.analyze_entry ioc_engine entry)); [apply IH|done].
Qed.

Lemma analyze_entry_keyed (entry : gmap string (list N)) :
  Forall keyed (Detector.analyze_entry ioc_engine entry).
Proof.
  rewrite analyze_entry_unfold. cbv zeta.
  generalize Detector.DETECTION_RULES. intros rules.
  assert (∀ h,
    Forall keyed
      (map (λ np : list N * string,
              Detector.rule_detection np.1 (Detector.payload_of entry)
                (default (lit "UNKNOWN") (entry !! "ip"%string))
                (default (lit "UNKNOWN") (entry !! "time"%string))
                (Detector.raw_of entry) h)
           (List.filter
              (λ np : list N * string,
                 Detector.re_search np.2 (Detector.payload_of entry))
              rules))) as Hrules.
  { intros h. apply Forall_forall. intros d Hd.
    apply list_elem_of_fmap in Hd as (np & -> & _).
    repeat split; by eexists. }
  destruct (_ && _); [|apply Hrules].
  apply Forall_app_2; [apply Hrules|]. apply Forall_singleton.
  repeat split; by eexists.
Qed.

Lemma analyze_batch_keyed (entries : list (gmap string (list N))) :
  Forall keyed (Detector.analyze_batch ioc_engine entries).
Proof.
  unfold Detector.analyze_batch.
  induction entries as [|entry rest IH]; [constructor|].
  cbn [flat_map]. apply Forall_app_2; [apply analyze_entry_keyed|exact IH].
Qed.

Lemma run_detection_result (e : Engine World)
    (parsed_logs : list (gmap string (list N))) (n : nat) :
  parsed_logs ≠ [] →
  let ds := kept ∅ (Detector.analyze_batch ioc_engine parsed_logs) in
  run_detection policy features utcnow ioc_engine e parsed_logs n
  = Some {| _seen := list_to_set (worker_key <$> ds) ∪ ∅;
            detections := ds;
            responder :=
              respond_all policy features utcnow n (reset_latch e) ds;
            readings := n + length ds |}.
Proof.
  intros Hne ds. unfold run_detection.
  destruct parsed_logs as [|entry rest]; [done|].
  rewrite run_batch, handle_each_keyed by apply analyze_batch_keyed.
  reflexivity.
Qed.

Lemma keyed_truthy (d : Detection) : keyed d → Det.truthy d = true.
Proof.
  intros ([s Hs] & _). unfold Det.truthy. apply negb_true_iff.
  apply bool_decide_eq_false. intros ->. done.
Qed.

Lemma keyed_keys (d1 d2 : Detection) :
  keyed d1 → keyed d2 →
  key_of d1 = key_of d2 → worker_key d1 = worker_key d2.
Proof.
  intros ([s1 Hs1] & [r1 Hr1] & [i1 Hi1]) ([s2 Hs2] & [r2 Hr2] & [i2 Hi2]).
  unfold key_of, worker_key.
  rewrite Hs1, Hr1, Hi1, Hs2, Hr2, Hi2. cbn [default from_option id].
  by intros [= -> -> ->].
Qed.

Lemma cleanup_lookup_None now handled (k : list N * list N * list N) :
  handled !! k = None → _cleanup_old_incidents now handled !! k = None.
Proof.
  intros Hk. destruct (_cleanup_old_incidents now handled !! k) as [ts|] eqn:Hc;
    [|done].
  apply cleanup_lookup_Some in Hc as [Hc _]. congruence.
Qed.

(** A run over detections with fresh, pairwise different keys. *)
Lemma respond_all_fresh (ds : list Detection) (n : nat) (e : Engine World) :
  Forall keyed ds →
  NoDup (worker_key <$> ds) →
  (∀ d, d ∈ ds → _handled_incidents e !! key_of d = None) →
  List.filter is_send_alert
    (calls (respond_all policy features utcnow n e ds))
  = List.filter is_send_alert (calls e)
    ++ flat_map (λ d, email_calls features
                        (default (lit "Low") (Det.severity d)) d) ds.
Proof.
  revert n e. induction ds as [|d rest IH]; intros n e Hk Hnd Hfresh;
    cbn [respond_all flat_map]; [by rewrite app_nil_r|].
  apply Forall_cons in Hk as [Hd Hk].
  cbn [fmap list_fmap] in Hnd. apply NoDup_cons in Hnd as [Hnotin Hnd].
  assert (_cleanup_old_incidents (utcnow n) (_handled_incidents e)
            !! key_of d = None) as Hnone.
  { apply cleanup_lookup_None, Hfresh. by left. }
  rewrite IH; [|done|done|].
  - rewrite (handle_detection_fresh _ _ _ _ _ (keyed_truthy d Hd) Hnone).
    rewrite response_steps_calls.
    cbn [with_handled calls world _pdf_generated_for_run].
    rewrite (List.filter_app _ (calls e)), filter_send_alert_steps.
    by rewrite <- app_assoc.
  - intros d' Hd'.
    rewrite (handle_detection_handled _ _ _ _ _ (keyed_truthy d Hd)).
    rewrite bool_decide_eq_false_2 by (rewrite Hnone; by intros [? ?]).
    rewrite lookup_insert_ne.
    + apply cleanup_lookup_None, Hfresh. by right.
    + intros Heq. apply Hnotin. apply list_elem_of_fmap. exists d'.
      split; [|done]. apply keyed_keys; [done| |done].
      rewrite Forall_forall in Hk. by apply Hk.
Qed.

Lemma respond_all_latched (ds : list Detection) (n : nat) (e : Engine World) :
  _pdf_generated_for_run e = true →
  List.filter is_generate (calls (respond_all policy features utcnow n e ds))
  = List.filter is_generate (calls e).
Proof.
  revert n e. induction ds as [|d rest IH]; intros n e Hl;
    cbn [respond_all]; [done|].
  destruct (handle_detection_latched policy features (utcnow n) e d Hl)
    as [Hl' Hc].
  by rewrite IH.
Qed.

Lemma handle_detection_report now (e : Engine World) (d : Detection) :
  Det.truthy d = true →
  _cleanup_old_incidents now (_handled_incidents e) !! key_of d = None →
  _pdf_generated_for_run e = false →
  (∀ x d', returned (reporter_generate x d').1 = true) →
  _pdf_generated_for_run (handle_detection policy features now e d) = true
  ∧ List.filter is_generate
      (calls (handle_detection policy features now e d))
    = List.filter is_generate (calls e) ++ [Generate d].
Proof.
  intros Ht Hnone Hl Hret. split.
  - rewrite (handle_detection_fresh _ _ _ _ _ Ht Hnone).
    unfold response_steps. cbv zeta.
    set (e2 := _handle_email _ _ _ _).
    assert (_pdf_generated_for_run e2 = false) as Hl2.
    { unfold e2. rewrite (proj2 (handle_email_calls _ _ _ _)).
      by rewrite (proj2 (firewall_step_calls _ _ _ _ _ _)). }
    unfold report_step. rewrite Hl2.
    specialize (Hret (world e2) d).
    by destruct (reporter_generate (world e2) d) as [[?|] ?].
  - rewrite (handle_detection_fresh _ _ _ _ _ Ht Hnone).
    rewrite response_steps_calls.
    cbn [with_handled calls world _pdf_generated_for_run]. rewrite Hl.
    rewrite (List.filter_app _ (calls e)), app_assoc.
    rewrite (List.filter_app _ _ [Generate d]), filter_generate_steps.
    done.
Qed.

Lemma respond_all_one_report (ds : list Detection) (n : nat)
    (e : Engine World) :
  Forall keyed ds →
  (∀ d, d ∈ ds → _handled_incidents e !! key_of d = None) →
  _pdf_generated_for_run e = false →
  (∀ x d, returned (reporter_generate x d).1 = true) →
  List.filter is_generate (calls (respond_all policy features utcnow n e ds))
  = List.filter is_generate (calls e) ++ map Generate (take 1 ds).
Proof.
  intros Hk Hfresh Hl Hret. destruct ds as [|d rest];
    cbn [respond_all take map]; [by rewrite app_nil_r|].
  apply Forall_cons in Hk as [Hd Hk].
  assert (_cleanup_old_incidents (utcnow n) (_handled_incidents e)
            !! key_of d = None) as Hnone.
  { apply cleanup_lookup_None, Hfresh. by left. }
  destruct (handle_detection_report (utcnow n) e d (keyed_truthy d Hd)
              Hnone Hl Hret) as [Hl' Hc].
  rewrite respond_all_latched by done. rewrite Hc. by destruct rest.
Qed.

Lemma cleanup_stamped n (e : Engine World) :
  within_ttl utcnow → stamped utcnow e →
  _cleanup_old_incidents (utcnow n) (_handled_incidents e)
  = _handled_incidents e.
Proof.
  intros Hclock Hst. unfold _cleanup_old_incidents.
  apply map_filter_id. intros k ts Hk. cbn [snd].
  destruct (Hst _ _ Hk) as [i ->]. specialize (Hclock i n). lia.
Qed.

Lemma handle_detection_stamped n (e : Engine World) (d : Detection) :
  within_ttl utcnow → stamped utcnow e →
  stamped utcnow (handle_detection policy features (utcnow n) e d)
  ∧ (∀ k, is_Some (_handled_incidents e !! k) →
          is_Some (_handled_incidents
                     (handle_detection policy features (utcnow n) e d) !! k))
  ∧ (Det.truthy d = true →
     is_Some (_handled_incidents
                (handle_detection policy features (utcnow n) e d)
                !! key_of d)).
Proof.
  intros Hclock Hst.
  destruct (Det.truthy d) eqn:Ht.
  - unfold stamped at 1.
    rewrite (handle_detection_handled _ _ _ _ _ Ht).
    rewrite (cleanup_stamped n e Hclock Hst).
    case_bool_decide as Hk.
    + split; [exact Hst|]. split; [done|]. done.
    + split; [|split].
      * intros k ts. destruct (decide (k = key_of d)) as [->|Hne].
        -- rewrite lookup_insert_eq. intros [= <-]. by exists n.
        -- rewrite lookup_insert_ne by done. apply Hst.
      * intros k Hs. destruct (decide (k = key_of d)) as [->|Hne].
        -- rewrite lookup_insert_eq. eauto.
        -- by rewrite lookup_insert_ne.
      * intros _. rewrite lookup_insert_eq. eauto.
  - rewrite handle_detection_cases, Ht. cbn [negb]. done.
Qed.

Lemma respond_all_stamped (ds : list Detection) (n : nat) (e : Engine World) :
  within_ttl utcnow → stamped utcnow e →
  stamped utcnow (respond_all policy features utcnow n e ds)
  ∧ (∀ k, is_Some (_handled_incidents e !! k) →
          is_Some (_handled_incidents
                     (respond_all policy features utcnow n e ds) !! k))
  ∧ (∀ d, d ∈ ds → Det.truthy d = true →
          is_Some (_handled_incidents
                     (respond_all policy features utcnow n e ds)
                     !! key_of d)).
Proof.
  intros Hclock. revert n e. induction ds as [|d rest IH]; intros n e Hst;
    cbn [respond_all].
  - split; [done|]. split; [done|]. intros d Hd. by apply elem_of_nil in Hd.
  - destruct (handle_detection_stamped n e d Hclock Hst) as (Hst1 & Hmono1 & Hd1).
    destruct (IH (S n) _ Hst1) as (Hst2 & Hmono2 & Hd2).
    split; [done|]. split; [by intros k Hk; apply Hmono2, Hmono1|].
    intros d' Hin Ht. apply elem_of_cons in Hin as [->|Hin].
    + by apply Hmono2, Hd1.
    + by apply Hd2.
Qed.

Lemma respond_all_suppressed (ds : list Detection) (n : nat)
    (e : Engine World) :
  within_ttl utcnow → stamped utcnow e →
  (∀ d, d ∈ ds → is_Some (_handled_incidents e !! key_of d)) →
  respond_all policy features utcnow n e ds = e.
Proof.
  intros Hclock Hst. revert n. induction ds as [|d rest IH]; intros n Hin;
    cbn [respond_all]; [done|].
  assert (handle_detection policy features (utcnow n) e d = e) as ->.
  { rewrite handle_detection_cases.
    destruct (Det.truthy d); cbn [negb]; [|done].
    rewrite (cleanup_stamped n e Hclock Hst).
    rewrite bool_decide_eq_true_2 by (apply Hin; by left).
    apply with_handled_same. }
  apply IH. intros d' Hd'. apply Hin. by right.
Qed.

End WorkerFacts.

(** X23.  A parsed line always has the same five fields, and its raw
    field is the line without the surrounding white space; the empty
    string parses to the empty dict.  When the combined log pattern
    does not match, the request is the raw line cut to 200 characters
    and the status is "UNKNOWN". *)
Theorem parsed_line_has_five_fields (P : Parser.Patterns) (line : list N) :
  let entry := Parser.parse_log_line line in
  (line = [] → entry = ∅)
  ∧ (line ≠ [] →
     dom entry
     = ({[ "time"; "ip"; "request"; "status"; "raw" ]}%string : gset string)
     ∧ entry !! "raw"%string = Some (strip line)
     ∧ (Parser.APACHE_COMBINED_PATTERN (strip line) = None →
        entry !! "status"%string = Some (lit "UNKNOWN")
        ∧ ∃ request, entry !! "request"%string = Some request
                     ∧ length request ≤ 200
                     ∧ request `prefix_of` strip line)).
Proof.
  intros entry. split; [by intros ->|].
  intros Hne. split; [by apply parse_log_line_dom|].
  split; [by apply parse_log_line_raw|].
  intros Hno.
  destruct (parse_log_line_fallback line Hne Hno) as (Hreq & Hst & _).
  split; [exact Hst|]. exists (take 200 (strip line)).
  split; [exact Hreq|]. split; [rewrite length_take; lia|].
  apply prefix_take.
Qed.

Lemma parsed_line_has_five_fields_witness :
  let line := lit "  kernel: oom killer invoked  " ++ [10%N] in
  let entry := @Parser.parse_log_line Parser.no_match line in
  dom entry
  = ({[ "time"; "ip"; "request"; "status"; "raw" ]}%string : gset string)
  ∧ entry !! "raw"%string = Some (lit "kernel: oom killer invoked")
  ∧ entry !! "status"%string = Some (lit "UNKNOWN").
Proof.
  intros line entry.
  destruct (proj2 (parsed_line_has_five_fields Parser.no_match line)
              ltac:(discriminate)) as (Hdom & Hraw & Hfall).
  split; [exact Hdom|]. split.
  - refine (eq_trans Hraw _). vm_compute. reflexivity.
  - exact (proj1 (Hfall eq_refl)).
Defined.

(** X24.  From a line of the log file to its detections: the loader
    makes one entry per line; the rules see the normalized request of
    the parsed line; and every detection of the entry carries as raw
    evidence the line itself, stripped of surrounding white space, not
    its normalized form. *)
Theorem detections_quote_the_line (P : Parser.Patterns)
    (U : Normalizer.Unicode) (re : Detector.Regex)
    ioc_engine (lines : list (list N)) (line : list N) :
  let parsed := Parser.parse_log_line line in
  let entry := Normalizer.normalize_log_entry parsed in
  length (LogViewer.load_entries lines) = length lines
  ∧ (line ∈ lines → entry ∈ LogViewer.load_entries lines)
  ∧ Detector.payload_of entry
    = Normalizer.normalize_field (default [] (parsed !! "request"%string))
  ∧ Forall (λ d : Detection, Det.raw d = Some (strip line))
           (Detector.analyze_entry ioc_engine entry).
Proof.
  intros parsed entry.
  destruct (loaded_entry_fields line) as (Hraw & Hpay & _ & _).
  fold parsed entry in Hraw, Hpay.
  split; [apply length_map|]. split; [|split; [exact Hpay|]].
  - intros Hin. unfold LogViewer.load_entries.
    apply list_elem_of_In, in_map_iff. exists line.
    split; [done|by apply list_elem_of_In].
  - eapply Forall_impl; [apply analyze_entry_fields|].
    intros d (_ & _ & Hd & _). by rewrite Hd, Hraw.
Qed.

Lemma detections_quote_the_line_witness :
  let line := lit "  GET /ETC/PASSWD  " in
  let entry :=
    @Normalizer.normalize_log_entry Normalizer.ascii_only
      (@Parser.parse_log_line Parser.no_match line) in
  @Detector.analyze_entry (@Detector.py_re PyRe.ascii_tables) None entry ≠ []
  ∧ Forall (λ d : Detection, Det.raw d = Some (lit "GET /ETC/PASSWD"))
           (@Detector.analyze_entry (@Detector.py_re PyRe.ascii_tables)
              None entry).
Proof.
  intros line entry. split; [vm_compute; discriminate|].
  pose proof (detections_quote_the_line Parser.no_match Normalizer.ascii_only
                (@Detector.py_re PyRe.ascii_tables) None [line] line)
    as (_ & _ & _ & Hraw).
  eapply Forall_impl; [exact Hraw|].
  intros d Hd. rewrite Hd. f_equal.
Defined.

(** X25.  The detection worker never fails on the output of the
    detection engine, and it keeps one detection per key (severity,
    rule, address): the detections it reports are detections of the
    batch in batch order, their keys are pairwise different, and every
    key of the batch is among them. *)
Theorem worker_keeps_one_detection_per_key
    {World : Type} (collab : Responder.Collaborators World)
    (re : Detector.Regex) policy features (utcnow : nat → Z) ioc_engine
    (e : Responder.Engine World)
    (parsed_logs : list (gmap string (list N))) (n : nat) :
  ∃ w,
    LogViewer.run_detection policy features utcnow ioc_engine e parsed_logs n
    = Some w
    ∧ NoDup (LogViewer.worker_key <$> LogViewer.detections w)
    ∧ LogViewer.detections w
      `sublist_of` Detector.analyze_batch ioc_engine parsed_logs
    ∧ ∀ d, d ∈ Detector.analyze_batch ioc_engine parsed_logs →
           LogViewer.worker_key d
           ∈ LogViewer.worker_key <$> LogViewer.detections w.
Proof.
  destruct parsed_logs as [|entry rest].
  - eexists. split; [reflexivity|]. cbn [LogViewer.detections].
    split; [constructor|]. split; [done|].
    intros d Hd. by apply elem_of_nil in Hd.
  - eexists. split; [by apply run_detection_result|].
    cbn [LogViewer.detections].
    split; [apply kept_NoDup|]. split; [apply kept_sublist|].
    intros d Hd. destruct (kept_covers ∅ _ d Hd) as [Hin|Hin]; [|done].
    by apply elem_of_empty in Hin.
Qed.

(** X26.  A run of the detection worker on a response engine with an
    empty dedup table: no detection the worker keeps is suppressed by
    the engine.  The mailer is called once for each kept detection the
    email policy selects, in order, and, when the report generator
    never raises, the generator is called once, for the first kept
    detection. *)
Theorem fresh_engine_answers_every_kept_detection
    {World : Type} (collab : Responder.Collaborators World)
    (re : Detector.Regex) policy features (utcnow : nat → Z) ioc_engine
    (e : Responder.Engine World)
    (parsed_logs : list (gmap string (list N))) (n : nat)
    (w : LogViewer.Worker World) :
  Responder._handled_incidents e = ∅ →
  parsed_logs ≠ [] →
  LogViewer.run_detection policy features utcnow ioc_engine e parsed_logs n
  = Some w →
  List.filter ResponderTrace.is_send_alert
    (Responder.calls (LogViewer.responder w))
  = List.filter ResponderTrace.is_send_alert (Responder.calls e)
    ++ flat_map (λ d, ResponderTrace.email_calls features
                        (default (lit "Low") (Det.severity d)) d)
                (LogViewer.detections w)
  ∧ ((∀ x d, ResponderTrace.returned (Responder.reporter_generate x d).1
             = true) →
     List.filter ResponderTrace.is_generate
       (Responder.calls (LogViewer.responder w))
     = List.filter ResponderTrace.is_generate (Responder.calls e)
       ++ map Responder.Generate (take 1 (LogViewer.detections w))).
Proof.
  intros Hempty Hne. rewrite run_detection_result by done. cbv zeta.
  intros [= <-]. cbn [LogViewer.responder LogViewer.detections].
  assert (Forall LogViewer.keyed
            (LogViewer.kept ∅ (Detector.analyze_batch ioc_engine parsed_logs)))
    as Hkeyed.
  { apply Forall_forall. intros d Hd.
    apply (sublist_subseteq _ _ (kept_sublist ∅ _)) in Hd.
    pose proof (analyze_batch_keyed ioc_engine parsed_logs) as Hall.
    rewrite Forall_forall in Hall. by apply Hall. }
  assert (∀ d : Detection,
            Responder._handled_incidents (LogViewer.reset_latch e)
              !! Responder.key_of d = None) as Hfresh.
  { intros d. cbn [LogViewer.reset_latch Responder._handled_incidents].
    by rewrite Hempty. }
  split.
  - rewrite respond_all_fresh; [done|done|apply kept_NoDup|].
    intros d _. apply Hfresh.
  - intros Hret. rewrite respond_all_one_report; [done|done| |done|done].
    intros d _. apply Hfresh.
Qed.

Lemma fresh_engine_answers_every_kept_detection_witness :
  let logs :=
    [Detector.entry_of (lit "203.0.113.9") (lit "get /etc/passwd");
     Detector.entry_of (lit "203.0.113.9") (lit "get /etc/passwd");
     Detector.entry_of (lit "198.51.100.4") (lit "get /etc/shadow")] in
  let e :=
    {| Responder._handled_incidents := ∅;
       Responder._pdf_generated_for_run := true;
       Responder.world := tt; Responder.calls := [] |} in
  let re : Detector.Regex := {| Detector.re_search := λ _ _, false |} in
  let ioc : option (list N → outcome bool) := Some (λ _, Returned true) in
  let clock := λ n : nat, Z.of_nat n in
  let ds := LogViewer.kept ∅ (@Detector.analyze_batch re ioc logs) in
  let w :=
    {| LogViewer._seen := list_to_set (LogViewer.worker_key <$> ds) ∪ ∅;
       LogViewer.detections := ds;
       LogViewer.responder :=
         @LogViewer.respond_all _ ResponderTrace.all_return
           AUTO_BLOCK FEATURES clock 0 (LogViewer.reset_latch e) ds;
       LogViewer.readings := 0 + length ds |} in
  @LogViewer.run_detection _ ResponderTrace.all_return re
    AUTO_BLOCK FEATURES clock ioc e logs 0 = Some w
  ∧ length (LogViewer.detections w) = 2
  ∧ List.filter ResponderTrace.is_generate
      (Responder.calls (LogViewer.responder w))
    = List.filter ResponderTrace.is_generate (Responder.calls e)
      ++ map Responder.Generate (take 1 (LogViewer.detections w)).
Proof.
  intros logs e re ioc clock ds w.
  assert (@LogViewer.run_detection _ ResponderTrace.all_return re
            AUTO_BLOCK FEATURES clock ioc e logs 0 = Some w) as Hw
    by (by apply run_detection_result).
  split; [exact Hw|]. split; [vm_compute; reflexivity|].
  exact (proj2 (fresh_engine_answers_every_kept_detection
                  ResponderTrace.all_return re AUTO_BLOCK FEATURES clock ioc
                  e logs 0 w eq_refl ltac:(discriminate) Hw)
               (λ _ _, eq_refl)).
Defined.

(** X27.  The dedup table of the response engine outlives a run, the
    keys seen by the worker do not: when detection is run again on the
    same entries while every clock reading lies within ten minutes of
    every other, the second run reports the same detections and makes
    no call at all (no block, no mail, no report), although the report
    latch was reset. *)
Theorem second_run_within_ttl_makes_no_call
    {World : Type} (collab : Responder.Collaborators World)
    (re : Detector.Regex) policy features (utcnow : nat → Z) ioc_engine
    (e : Responder.Engine World)
    (parsed_logs : list (gmap string (list N))) (n : nat)
    (w1 w2 : LogViewer.Worker World) :
  (∀ i j, (utcnow j - utcnow i ≤ Responder._dedup_ttl)%Z) →
  Responder._handled_incidents e = ∅ →
  parsed_logs ≠ [] →
  LogViewer.run_detection policy features utcnow ioc_engine e parsed_logs n
  = Some w1 →
  LogViewer.run_detection policy features utcnow ioc_engine
    (LogViewer.responder w1) parsed_logs (LogViewer.readings w1) = Some w2 →
  LogViewer.detections w2 = LogViewer.detections w1
  ∧ Responder.calls (LogViewer.responder w2)
    = Responder.calls (LogViewer.responder w1)
  ∧ Responder.world (LogViewer.responder w2)
    = Responder.world (LogViewer.responder w1)
  ∧ Responder._pdf_generated_for_run (LogViewer.responder w2) = false.
Proof.
  intros Hclock Hempty Hne.
  rewrite run_detection_result by done. cbv zeta. intros [= <-].
  cbn [LogViewer.responder LogViewer.readings LogViewer.detections].
  rewrite run_detection_result by done. cbv zeta. intros [= <-].
  cbn [LogViewer.responder LogViewer.readings LogViewer.detections].
  set (ds := LogViewer.kept ∅ (Detector.analyze_batch ioc_engine parsed_logs)).
  assert (LogViewer.stamped utcnow (LogViewer.reset_latch e)) as Hst.
  { intros k ts. cbn [LogViewer.reset_latch Responder._handled_incidents].
    by rewrite Hempty. }
  destruct (respond_all_stamped policy features utcnow ds n
              (LogViewer.reset_latch e) Hclock Hst) as (Hst1 & _ & Hkeys).
  set (e1 := LogViewer.respond_all policy features utcnow n
               (LogViewer.reset_latch e) ds) in *.
  assert (Forall LogViewer.keyed ds) as Hkeyed.
  { apply Forall_forall. intros d Hd.
    apply (sublist_subseteq _ _ (kept_sublist ∅ _)) in Hd.
    pose proof (analyze_batch_keyed ioc_engine parsed_logs) as Hall.
    rewrite Forall_forall in Hall. by apply Hall. }
  rewrite (respond_all_suppressed policy features utcnow ds _
             (LogViewer.reset_latch e1)); [done|done| |].
  - intros k ts. cbn [LogViewer.reset_latch Responder._handled_incidents].
    apply Hst1.
  - intros d Hd. cbn [LogViewer.reset_latch Responder._handled_incidents].
    apply Hkeys; [done|]. apply keyed_truthy.
    rewrite Forall_forall in Hkeyed. by apply Hkeyed.
Qed.

Lemma second_run_within_ttl_makes_no_call_witness :
  let logs :=
    [Detector.entry_of (lit "203.0.113.9") (lit "get /etc/passwd");
     Detector.entry_of (lit "198.51.100.4") (lit "get /etc/shadow")] in
  let e :=
    {| Responder._handled_incidents := ∅;
       Responder._pdf_generated_for_run := false;
       Responder.world := tt; Responder.calls := [] |} in
  let re : Detector.Regex := {| Detector.re_search := λ _ _, false |} in
  let ioc : option (list N → outcome bool) := Some (λ _, Returned true) in
  let clock := λ n : nat, Z.of_nat (n `min` 100) in
  let ds := LogViewer.kept ∅ (@Detector.analyze_batch re ioc logs) in
  let worker e n :=
    {| LogViewer._seen := list_to_set (LogViewer.worker_key <$> ds) ∪ ∅;
       LogViewer.detections := ds;
       LogViewer.responder :=
         @LogViewer.respond_all _ ResponderTrace.all_return
           AUTO_BLOCK FEATURES clock n (LogViewer.reset_latch e) ds;
       LogViewer.readings := n + length ds |} in
  let w1 := worker e 0 in
  let w2 := worker (LogViewer.responder w1) (LogViewer.readings w1) in
  @LogViewer.run_detection _ ResponderTrace.all_return re
    AUTO_BLOCK FEATURES clock ioc e logs 0 = Some w1
  ∧ @LogViewer.run_detection _ ResponderTrace.all_return re
      AUTO_BLOCK FEATURES clock ioc (LogViewer.responder w1) logs
      (LogViewer.readings w1) = Some w2
  ∧ length (Responder.calls (LogViewer.responder w1)) = 3
  ∧ Responder.calls (LogViewer.responder w2)
    = Responder.calls (LogViewer.responder w1).
Proof.
  intros logs e re ioc clock ds worker w1 w2.
  assert (∀ i j, (clock j - clock i ≤ Responder._dedup_ttl)%Z) as Hclock.
  { intros i j. unfold clock, Responder._dedup_ttl. lia. }
  assert (@LogViewer.run_detection _ ResponderTrace.all_return re
            AUTO_BLOCK FEATURES clock ioc e logs 0 = Some w1) as Hw1
    by (by apply run_detection_result).
  assert (@LogViewer.run_detection _ ResponderTrace.all_return re
            AUTO_BLOCK FEATURES clock ioc (LogViewer.responder w1) logs
            (LogViewer.readings w1) = Some w2) as Hw2
    by (by apply run_detection_result).
  split; [exact Hw1|]. split; [exact Hw2|]. split; [vm_compute; reflexivity|].
  exact (proj1 (proj2 (second_run_within_ttl_makes_no_call
                         ResponderTrace.all_return re AUTO_BLOCK FEATURES
                         clock ioc e logs 0 w1 w2 Hclock eq_refl
                         ltac:(discriminate) Hw1 Hw2))).
Defined.

Lemma StronglySorted_snoc {A} (R : A → A → Prop) (l : list A) (x : A) :
  StronglySorted R l → Forall (λ y, R y x) l → StronglySorted R (l ++ [x]).
Proof.
  induction l as [|a l IH]; intros Hs Hx; cbn [app].
  - repeat constructor.
  - apply StronglySorted_inv in Hs as [Hs Ha].
    apply Forall_cons in Hx as [Hax Hx].
    constructor; [by apply IH|].
    apply Forall_app_2; [done|]. by apply Forall_singleton.
Qed.

Lemma StronglySorted_snoc_inv {A} (R : A → A → Prop) (l : list A) (x : A) :
  StronglySorted R (l ++ [x]) → Forall (λ y, R y x) l.
Proof.
  induction l as [|a l IH]; cbn [app]; intros Hs; [constructor|].
  apply StronglySorted_inv in Hs as [Hs Ha].
  apply Forall_app in Ha as [_ Hax]. apply Forall_inv in Hax.
  apply Forall_cons. split; [exact Hax|by apply IH].
Qed.

Section AlertingFacts.
Import Alerting.
Context `{Smtp}.

Lemma send_batch_safe_spaced now (m : AlertManager) (ds : list Detection) :
  spaced m → spaced (_send_batch_safe now m ds).
Proof.
  intros [Hs Hl]. unfold _send_batch_safe. cbv zeta.
  destruct (_last_sent m) as [last|] eqn:Hlast.
  - destruct (now - last <? _cooldown)%Z eqn:Hsoon.
    + split; [done|]. by rewrite Hlast.
    + apply Z.ltb_ge in Hsoon. destruct Hl as (earlier & b & Hp).
      split; cbn [passed _last_sent]; [|by eexists _, _].
      apply StronglySorted_snoc; [done|]. rewrite Hp in Hs |- *.
      apply Forall_app_2.
      * apply StronglySorted_snoc_inv in Hs.
        eapply Forall_impl; [exact Hs|]. intros [t b']. cbn [fst].
        unfold _cooldown in *. lia.
      * apply Forall_singleton. cbn [fst]. lia.
  - split; cbn [passed _last_sent]; [|by eexists _, _].
    rewrite Hl. repeat constructor.
Qed.

Lemma send_batch_alerts_spaced now (m : AlertManager) (ds : list Detection) :
  spaced m → spaced (send_batch_alerts now m ds).
Proof.
  intros Hs. unfold send_batch_alerts.
  repeat case_match; try done. by apply send_batch_safe_spaced.
Qed.

Lemma send_all_spaced batches (m : AlertManager) :
  spaced m → spaced (send_all batches m).
Proof.
  unfold send_all. revert m.
  induction batches as [|[now ds] rest IH]; intros m Hs; [done|].
  cbn [fold_left]. apply IH. by apply send_batch_alerts_spaced.
Qed.

Lemma send_batch_alerts_switch now (m : AlertManager) (ds : list Detection) :
  enabled (send_batch_alerts now m ds) = enabled m
  ∧ _config_valid (send_batch_alerts now m ds) = _config_valid m.
Proof.
  unfold send_batch_alerts, _send_batch_safe.
  repeat case_match; done.
Qed.

Lemma send_all_off batches (m : AlertManager) :
  enabled m && _config_valid m = false →
  send_all batches m = m.
Proof.
  unfold send_all. intros Hoff.
  induction batches as [|[now ds] rest IH]; [done|].
  cbn [fold_left fst snd].
  assert (send_batch_alerts now m ds = m) as ->; [|exact IH].
  unfold send_batch_alerts.
  destruct (enabled m); [|done]. by destruct (_config_valid m).
Qed.

Lemma send_batch_safe_delivered now (m : AlertManager) (ds : list Detection) :
  delivered m `sublist_of` (passed m).*2 →
  delivered (_send_batch_safe now m ds)
    `sublist_of` (passed (_send_batch_safe now m ds)).*2.
Proof.
  intros Hsub. unfold _send_batch_safe. cbv zeta.
  assert (delivered
            {| enabled := enabled m; _config_valid := _config_valid m;
               _last_sent := Some now;
               passed := passed m ++ [(now, ds)];
               delivered := if smtp_raises now ds then delivered m
                            else delivered m ++ [ds] |}
          `sublist_of` (passed m ++ [(now, ds)]).*2) as Hgo.
  { cbn [delivered]. rewrite fmap_app. cbn [fmap list_fmap snd].
    destruct (smtp_raises now ds).
    - by apply sublist_inserts_r.
    - by apply sublist_app. }
  destruct (_last_sent m) as [last|]; [|exact Hgo].
  by destruct (now - last <? _cooldown)%Z.
Qed.

Lemma send_all_delivered batches (m : AlertManager) :
  delivered m `sublist_of` (passed m).*2 →
  delivered (send_all batches m) `sublist_of` (passed (send_all batches m)).*2.
Proof.
  unfold send_all. revert m.
  induction batches as [|[now ds] rest IH]; intros m Hs; [done|].
  cbn [fold_left fst snd]. apply IH. unfold send_batch_alerts.
  repeat case_match; try done. by apply send_batch_safe_delivered.
Qed.

End AlertingFacts.

(** X28.  The rate limit of the alert manager: whatever batches are
    handed to a new manager and whenever their threads run, any two
    batches it lets through to the mail server are at least thirty
    seconds apart; every delivered batch is among them, in order; and
    a manager that is disabled or has an incomplete configuration lets
    nothing through. *)
Theorem mails_are_thirty_seconds_apart (smtp : Alerting.Smtp)
    (features : Features) (config_valid : bool)
    (batches : list (Z * list Detection)) :
  let m := Alerting.send_all batches (Alerting.new features config_valid) in
  StronglySorted (λ a b : Z * list Detection,
                    (Alerting._cooldown ≤ b.1 - a.1)%Z)
                 (Alerting.passed m)
  ∧ Alerting.delivered m `sublist_of` (Alerting.passed m).*2
  ∧ (if default false (EMAIL_ALERTS features) && config_valid
     then True else Alerting.passed m = []).
Proof.
  intros m. split; [|split].
  - apply (send_all_spaced batches (Alerting.new features config_valid)).
    split; [constructor|done].
  - by apply send_all_delivered.
  - destruct (default false (EMAIL_ALERTS features) && config_valid) eqn:Hon;
      [done|].
    unfold m. by rewrite send_all_off.
Qed.

Section StatsFacts.
Import Stats.
Context `{Casing}.

Lemma total_cons (k : list N) (n : nat) (rest : list (list N * nat)) :
  total ((k, n) :: rest) = n + total rest.
Proof. reflexivity. Qed.

Lemma incr_total (c : list (list N * nat)) (key : list N) :
  total (incr c key) = S (total c).
Proof.
  induction c as [|[k n] rest IH]; cbn [incr]; [done|].
  destruct (eqb k key); rewrite !total_cons; [lia|]. rewrite IH. lia.
Qed.

Lemma incr_keys (c : list (list N * nat)) (key : list N) :
  (incr c key).*1
  = if bool_decide (key ∈ c.*1) then c.*1 else c.*1 ++ [key].
Proof.
  induction c as [|[k n] rest IH]; cbn [incr].
  - by rewrite bool_decide_eq_false_2 by apply not_elem_of_nil.
  - destruct (eqb k key) eqn:Hk.
    + apply eqb_true in Hk as ->. cbn [fmap list_fmap fst].
      rewrite bool_decide_eq_true_2; [done|by left].
    + apply eqb_false in Hk. cbn [fmap list_fmap fst]. rewrite IH.
      case_bool_decide as Hin.
      * rewrite bool_decide_eq_true_2; [done|by right].
      * rewrite bool_decide_eq_false_2; [done|].
        intros Hin'. apply elem_of_cons in Hin' as [->|Hin']; done.
Qed.

Lemma incr_positive (c : list (list N * nat)) (key : list N) :
  Forall (λ kn, 1 ≤ kn.2) c → Forall (λ kn : list N * nat, 1 ≤ kn.2) (incr c key).
Proof.
  induction 1 as [|[k n] rest Hn Hrest IH]; cbn [incr].
  - apply Forall_singleton. done.
  - cbn [snd] in Hn. destruct (eqb k key).
    + constructor; [cbn [snd]; lia|exact Hrest].
    + constructor; [exact Hn|exact IH].
Qed.

Lemma severity_step_ok c seen d :
  counts_ok c seen → counts_ok (severity_step c d) (S seen).
Proof.
  intros (Hnd & Hvalid & Hpos & Htotal). unfold severity_step.
  destruct (Det.severity d) as [s|]; [|repeat split; try done; lia].
  cbv zeta. case_bool_decide as Hin; [|repeat split; try done; lia].
  split; [|split; [|split]].
  - rewrite incr_keys. case_bool_decide as Hk; [done|].
    apply NoDup_app. split; [done|]. split; [|apply NoDup_singleton].
    intros x Hx Hx'. apply list_elem_of_singleton in Hx' as ->. done.
  - rewrite incr_keys. case_bool_decide as Hk; [done|].
    apply Forall_app_2; [done|]. by apply Forall_singleton.
  - by apply incr_positive.
  - rewrite incr_total. lia.
Qed.

Lemma severity_fold_ok (ds : list Detection) c seen :
  counts_ok c seen →
  counts_ok (fold_left severity_step ds c) (seen + length ds).
Proof.
  revert c seen. induction ds as [|d rest IH]; intros c seen Hok;
    cbn [fold_left length].
  - by rewrite Nat.add_0_r.
  - replace (seen + S (length rest)) with (S seen + length rest) by lia.
    apply IH. by apply severity_step_ok.
Qed.

Lemma severity_fold_exact (ds : list Detection) c :
  Forall (λ d, ∃ s, Det.severity d = Some s ∧ s ∈ VALID_SEVERITIES) ds →
  total (fold_left severity_step ds c) = total c + length ds.
Proof.
  intros Hall. revert c. induction Hall as [|d rest (s & Hs & Hin) _ IH];
    intros c; cbn [fold_left length]; [lia|].
  rewrite IH. unfold severity_step. rewrite Hs. cbv zeta.
  assert (capitalize (strip s) = s) as ->.
  { unfold VALID_SEVERITIES in Hin.
    repeat (apply elem_of_cons in Hin as [->|Hin]; [vm_compute; reflexivity|]).
    by apply elem_of_nil in Hin. }
  rewrite bool_decide_eq_true_2 by done. rewrite incr_total. lia.
Qed.

End StatsFacts.

Section DetectorSeverities.
Import SeverityMap Detector.
Context `{Regex}.

Lemma escalated_level (s : list N) (h : bool) :
  s ∈ SEVERITY_LEVELS → _escalate_severity s h ∈ SEVERITY_LEVELS.
Proof.
  intros Hs. destruct h; [|by rewrite escalate_no_hit].
  destruct (escalate_cases s Hs) as [_ Hc].
  destruct Hc as [[_ ->]|[[_ ->]|[[_ ->]|[_ ->]]]]; by_compute.
Qed.

Lemma analyze_entry_levels ioc_engine (entry : gmap string (list N)) :
  Forall (λ d, ∃ s, Det.severity d = Some s ∧ s ∈ SEVERITY_LEVELS)
         (analyze_entry ioc_engine entry).
Proof.
  rewrite analyze_entry_unfold. cbv zeta.
  generalize DETECTION_RULES. intros rules.
  generalize (ioc_check ioc_engine
                (default (lit "UNKNOWN") (entry !! "ip"%string))).
  intros h.
  assert (Forall (λ d, ∃ s, Det.severity d = Some s ∧ s ∈ SEVERITY_LEVELS)
            (map (λ np : list N * string,
                    rule_detection np.1 (payload_of entry)
                      (default (lit "UNKNOWN") (entry !! "ip"%string))
                      (default (lit "UNKNOWN") (entry !! "time"%string))
                      (raw_of entry) h)
                 (List.filter
                    (λ np : list N * string,
                       re_search np.2 (payload_of entry)) rules)))
    as Hrules.
  { eapply Forall_impl; [apply rule_detections_shape|].
    intros d (name & _ & _ & _ & Hsev). eexists. split; [exact Hsev|].
    apply escalated_level, get_severity_level. }
  destruct (h && negb (nonempty _)); [|exact Hrules].
  apply Forall_app_2; [exact Hrules|]. apply Forall_singleton.
  eexists. split; [reflexivity|]. by_compute.
Qed.

Lemma analyze_batch_levels ioc_engine (entries : list (gmap string (list N))) :
  Forall (λ d, ∃ s, Det.severity d = Some s ∧ s ∈ SEVERITY_LEVELS)
         (analyze_batch ioc_engine entries).
Proof.
  unfold analyze_batch. induction entries as [|entry rest IH]; [constructor|].
  cbn [flat_map]. apply Forall_app_2; [apply analyze_entry_levels|exact IH].
Qed.

End DetectorSeverities.

Section OffenderFacts.
Import Stats.
Context `{Casing}.

Lemma incr_lookup (c : list (list N * nat)) (key k : list N) (n : nat) :
  NoDup (c.*1) →
  (k, n) ∈ incr c key
  ↔ (k ≠ key ∧ (k, n) ∈ c)
    ∨ (k = key ∧ ((∃ m, (key, m) ∈ c ∧ n = S m)
                  ∨ ((key ∉ c.*1) ∧ n = 1))).
Proof.
  induction c as [|[k0 n0] rest IH]; intros Hnd; cbn [incr].
  - rewrite list_elem_of_singleton. split.
    + intros [= -> ->]. right. split; [done|]. right.
      split; [apply not_elem_of_nil|done].
    + intros [[_ Hin]|(-> & [(m & Hin & _)|[_ ->]])]; [| |done];
        by apply elem_of_nil in Hin.
  - cbn [fmap list_fmap fst] in Hnd. apply NoDup_cons in Hnd as [Hnotin Hnd].
    destruct (eqb k0 key) eqn:Hk.
    + apply eqb_true in Hk as ->. rewrite !elem_of_cons. split.
      * intros [[= -> ->]|Hin].
        -- right. split; [done|]. left. exists n0. split; [by left|done].
        -- left. split; [|by right]. intros ->. apply Hnotin.
           apply list_elem_of_fmap. by exists (key, n).
      * intros [[Hne [[= -> ->]|Hin]]
               |(-> & [(m & Hin & ->)|[Hnot ->]])].
        -- done.
        -- by right.
        -- apply elem_of_cons in Hin as [[= ->]|Hin]; [by left|].
           exfalso. apply Hnotin. apply list_elem_of_fmap. by exists (key, m).
        -- exfalso. apply Hnot. cbn [fmap list_fmap fst]. by left.
    + apply eqb_false in Hk. rewrite !elem_of_cons, (IH Hnd). split.
      * intros [[= -> ->]|[[Hne Hin]
                          |(-> & [(m & Hin & ->)|[Hnot ->]])]].
        -- left. split; [done|by left].
        -- left. split; [done|by right].
        -- right. split; [done|]. left. exists m. split; [by right|done].
        -- right. split; [done|]. right. split; [|done].
           cbn [fmap list_fmap fst].
           intros Hin'. apply elem_of_cons in Hin' as [->|Hin']; done.
      * intros [[Hne [[= -> ->]|Hin]]
               |(-> & [(m & Hin & ->)|[Hnot ->]])].
        -- by left.
        -- right. by left.
        -- apply elem_of_cons in Hin as [[= -> ->]|Hin]; [done|].
           right. right. split; [done|]. left. by exists m.
        -- right. right. split; [done|]. right. split; [|done].
           intros Hin'. apply Hnot. cbn [fmap list_fmap fst]. by right.
Qed.

Lemma offences_snoc (ip : list N) (ds : list Detection) (d : Detection) :
  offences ip (ds ++ [d])
  = offences ip ds
    + (if bool_decide (strip <$> Det.ip d = Some ip) then 1 else 0).
Proof.
  unfold offences. rewrite List.filter_app, length_app. cbn [List.filter].
  by case_bool_decide.
Qed.

Lemma tally_step (c : list (list N * nat)) (ds : list Detection)
    (d : Detection) :
  tally c ds → tally (offender_step c d) (ds ++ [d]).
Proof.
  intros [Hnd Hc]. unfold offender_step.
  destruct (Det.ip d) as [s|] eqn:Hip.
  - cbv zeta. destruct (skipped (strip s)) eqn:Hskip.
    + split; [done|]. intros ip n. rewrite Hc, offences_snoc, Hip.
      cbn [fmap option_fmap option_map].
      case_bool_decide as Heq; [|by rewrite Nat.add_0_r].
      injection Heq as <-. split; intros [Hs _]; congruence.
    + split.
      * rewrite incr_keys. case_bool_decide; [done|].
        apply NoDup_app. split; [done|]. split; [|apply NoDup_singleton].
        intros x Hx Hx'. apply list_elem_of_singleton in Hx' as ->. done.
      * intros ip n. rewrite (incr_lookup _ _ _ _ Hnd), offences_snoc, Hip.
        cbn [fmap option_fmap option_map].
        split.
        -- intros [[Hne Hin]|(-> & [(m & Hin & ->)|[Hnot ->]])].
           ++ apply Hc in Hin as (Hs & -> & Hpos).
              rewrite bool_decide_eq_false_2 by congruence.
              rewrite Nat.add_0_r. done.
           ++ apply Hc in Hin as (Hs & -> & Hpos).
              rewrite bool_decide_eq_true_2 by done.
              split; [done|]. split; lia.
           ++ rewrite bool_decide_eq_true_2 by done.
              split; [done|]. split; [|done].
              destruct (offences (strip s) ds) as [|m] eqn:Hoff; [done|].
              exfalso. apply Hnot. apply list_elem_of_fmap.
              exists (strip s, S m). split; [done|]. apply Hc.
              split; [done|]. split; [done|lia].
        -- intros (Hs & -> & Hpos).
           destruct (decide (ip = strip s)) as [->|Hne].
           ++ right. split; [done|].
              rewrite bool_decide_eq_true_2 by done.
              destruct (offences (strip s) ds) as [|m] eqn:Hoff.
              ** right. split; [|done]. intros Hin.
                 apply list_elem_of_fmap in Hin as ([k m] & Hk & Hin).
                 cbn [fst] in Hk. subst k.
                 apply Hc in Hin as (_ & Hm & Hm1). lia.
              ** left. exists (S m). split; [|lia]. apply Hc.
                 split; [done|]. split; [done|lia].
           ++ left. split; [done|].
              rewrite bool_decide_eq_false_2 in Hpos |- * by congruence.
              rewrite Nat.add_0_r in Hpos |- *. apply Hc. done.
  - split; [done|]. intros ip n. rewrite Hc, offences_snoc, Hip.
    cbn [fmap option_fmap option_map].
    rewrite bool_decide_eq_false_2 by done. by rewrite Nat.add_0_r.
Qed.

Lemma tally_fold (ds : list Detection) :
  tally (fold_left offender_step ds []) ds.
Proof.
  induction ds as [|d ds IH] using rev_ind.
  - split; [constructor|]. intros ip n. split.
    + intros Hin. by apply elem_of_nil in Hin.
    + intros (_ & -> & Hpos). cbn in Hpos. lia.
  - rewrite fold_left_app. cbn [fold_left]. by apply tally_step.
Qed.

Lemma insert_by_count_perm (x : list N * nat) (sorted : list (list N * nat)) :
  insert_by_count x sorted ≡ₚ x :: sorted.
Proof.
  induction sorted as [|y rest IH]; cbn [insert_by_count]; [done|].
  destruct (x.2 <? y.2); [|done]. rewrite IH. apply Permutation_swap.
Qed.

Lemma sort_by_count_perm (items : list (list N * nat)) :
  sort_by_count items ≡ₚ items.
Proof.
  unfold sort_by_count. induction items as [|x rest IH]; cbn [foldr]; [done|].
  by rewrite insert_by_count_perm, IH.
Qed.

Lemma insert_by_count_sorted (x : list N * nat)
    (sorted : list (list N * nat)) :
  StronglySorted (λ a b : list N * nat, b.2 ≤ a.2) sorted →
  StronglySorted (λ a b : list N * nat, b.2 ≤ a.2) (insert_by_count x sorted).
Proof.
  induction sorted as [|y rest IH]; intros Hs; cbn [insert_by_count].
  - repeat constructor.
  - apply StronglySorted_inv in Hs as [Hrest Hall].
    destruct (x.2 <? y.2) eqn:Hlt.
    + apply Nat.ltb_lt in Hlt. constructor; [by apply IH|].
      apply Forall_forall. intros z Hz. rewrite insert_by_count_perm in Hz.
      apply elem_of_cons in Hz as [->|Hz]; [lia|].
      rewrite Forall_forall in Hall. by apply Hall.
    + apply Nat.ltb_ge in Hlt. constructor; [by constructor|].
      constructor; [done|].
      eapply Forall_impl; [exact Hall|]. intros z Hz. cbn beta in *. lia.
Qed.

Lemma sort_by_count_sorted (items : list (list N * nat)) :
  StronglySorted (λ a b : list N * nat, b.2 ≤ a.2) (sort_by_count items).
Proof.
  unfold sort_by_count. induction items as [|x rest IH]; cbn [foldr].
  - constructor.
  - by apply insert_by_count_sorted.
Qed.

End OffenderFacts.

(** X29.  The severity counts behind the charts: for any detections the
    counter has pairwise different keys among the four severities, every
    count is at least one, and the counts add up to at most the number
    of detections.  For the detections of the detection engine nothing
    is left out: the counts add up to the number of detections. *)
Theorem severity_counts_account_for_the_detections (C : Stats.Casing)
    (re : Detector.Regex) ioc_engine
    (entries : list (gmap string (list N))) (detections : list Detection) :
  let counts := Stats.severity_counts detections in
  NoDup (counts.*1)
  ∧ Forall (λ k, k ∈ Stats.VALID_SEVERITIES) (counts.*1)
  ∧ Forall (λ kn : list N * nat, 1 ≤ kn.2) counts
  ∧ Stats.total counts ≤ length detections
  ∧ Stats.total
      (Stats.severity_counts (Detector.analyze_batch ioc_engine entries))
    = length (Detector.analyze_batch ioc_engine entries).
Proof.
  intros counts.
  destruct (severity_fold_ok detections [] 0) as (Hnd & Hv & Hp & Ht).
  { split; [constructor|]. split; [constructor|]. split; [constructor|].
    done. }
  split; [exact Hnd|]. split; [exact Hv|]. split; [exact Hp|].
  split; [exact Ht|].
  unfold Stats.severity_counts. rewrite severity_fold_exact; [done|].
  apply analyze_batch_levels.
Qed.

(** X30.  The top offenders: the result lists at most [limit] addresses
    (none for a limit that is not positive), the larger counts first;
    with the addresses left out it holds each address once that occurs
    in the detections, is not empty and does not read "UNKNOWN" in
    upper case, surrounding white space aside, together with the number
    of detections that carry it; an address left out never has a larger
    count than a listed one. *)
Theorem top_offenders_are_ranked (C : Stats.Casing)
    (detections : list Detection) (limit : Z) :
  let top := Stats.top_offender_ips detections limit in
  ∃ rest,
    length top = Z.to_nat limit `min` length (top ++ rest)
    ∧ StronglySorted (λ a b : list N * nat, b.2 ≤ a.2) (top ++ rest)
    ∧ NoDup ((top ++ rest).*1)
    ∧ ∀ ip n, (ip, n) ∈ top ++ rest
              ↔ Stats.skipped ip = false
                ∧ n = Stats.offences ip detections ∧ 1 ≤ n.
Proof.
  intros top. unfold top, Stats.top_offender_ips, Stats.most_common.
  set (c := fold_left Stats.offender_step detections []).
  exists (drop (Z.to_nat limit) (Stats.sort_by_count c)).
  rewrite take_drop. destruct (tally_fold detections) as [Hnd Hc]. fold c in Hnd, Hc.
  split; [apply length_take|]. split; [apply sort_by_count_sorted|].
  split.
  - by rewrite sort_by_count_perm.
  - intros ip n. by rewrite sort_by_count_perm.
Qed.
